(** * Study_Emotion_Awareness: temporal smoothing and multi-modal emotion fusion

    A shallow embedding of
      - frontend/src/services/facialEmotionDetector.ts  (class FacialEmotionDetector)
      - frontend/src/services/multiModalEmotionContext.ts (class MultiModalEmotionContext)

    Modelling conventions.
      - A JavaScript [number] that carries a probability, a weight, a count or
        a duration is an exact rational ([Q]); results of arithmetic are
        compared with [==].  NaN, infinities and rounding are outside the model.
      - [Date.now()] is an argument of the operation that reads the clock; a
        timestamp is a [Z].
      - A [Record<string, number>] built at run time is an association list in
        insertion order.  That is the order in which [Object.keys] and
        [Object.entries] enumerate own properties, and a read finds own
        properties only, as long as the keys are ordinary words: the emotion
        labels of this program are words, never array indices ("0", "1", ...,
        which JavaScript enumerates first) and never names of members of
        [Object.prototype] ("constructor", "toString", ..., which a read of an
        object literal would find).
      - The methods of the two classes are first given as functions on the
        value of the private fields.  Module [Heap] then gives the fusion
        engine over an explicit store of objects, where two references to one
        array or one channel object are aliases; the lemmas [*_simulates]
        relate the two. *)

From Stdlib Require Import String List ZArith QArith Qminmax Bool Lia Lqa.
From stdpp Require Import base list.
Import ListNotations.

Open Scope string_scope.
Open Scope list_scope.
Open Scope Q_scope.

(** ** JavaScript helpers *)

(** [a > b] on numbers. *)
Definition Qgtb (a b : Q) : bool := negb (Qle_bool a b).

(** [x || 0] where [x] is a number or [undefined]: both [undefined] and the
    falsy number [0] give [0]. *)
Definition orZero (x : option Q) : Q :=
  match x with
  | Some v => if Qeq_bool v 0 then 0 else v
  | None => 0
  end.

(** A property read in arithmetic position.  The read of a missing property
    ([undefined], which arithmetic turns into NaN) has no counterpart in [Q]:
    the engine reads the keys it has just enumerated or written, and the
    dominant label of a non-empty window
    ([getSmoothedEmotion_reads_present]). *)
Definition num (x : option Q) : Q :=
  match x with
  | Some v => v
  | None => 0
  end.

Module JsRecord.
(** [Record<string, number>], own properties in insertion order. *)
Definition t : Type := list (string * Q).

Definition empty : t := [].

(** [o[k]] *)
Fixpoint get (k : string) (o : t) : option Q :=
  match o with
  | [] => None
  | (k', v) :: o' => if String.eqb k k' then Some v else get k o'
  end.

(** [o[k] = v]: an existing property keeps its place, a new one goes last. *)
Fixpoint set (k : string) (v : Q) (o : t) : t :=
  match o with
  | [] => [(k, v)]
  | (k', v') :: o' =>
      if String.eqb k k' then (k, v) :: o' else (k', v') :: set k v o'
  end.

(** [Object.keys(o)] *)
Definition keys (o : t) : list string := map fst o.

(** [Object.entries(o)] *)
Definition entries (o : t) : list (string * Q) := o.
End JsRecord.

(** [push] then [shift] when the array has outgrown [limit]. *)
Definition pushBounded {A : Type} (limit : nat) (x : A) (l : list A) : list A :=
  let l' := l ++ [x] in
  if (limit <? length l')%nat then tl l' else l'.

(** The scan shared by every "find dominant" loop of the two files:
    [if (score > max) { max = score; dominant = label }]. *)
Definition dominantStep (acc : string * Q) (e : string * Q) : string * Q :=
  let '(dominant, mx) := acc in
  let '(label, score) := e in
  if Qgtb score mx then (label, score) else (dominant, mx).

(** ** facialEmotionDetector.ts *)

Module Expressions.
Record t : Type := mk {
  neutral : Q;
  happy : Q;
  sad : Q;
  angry : Q;
  fearful : Q;
  disgusted : Q;
  surprised : Q
}.

(** [Object.entries(expressions)], in the order of the interface (which is
    the order in which face-api fills the object). *)
Definition entries (e : t) : list (string * Q) :=
  [ ("neutral", neutral e); ("happy", happy e); ("sad", sad e);
    ("angry", angry e); ("fearful", fearful e);
    ("disgusted", disgusted e); ("surprised", surprised e) ].
End Expressions.

Module FacialEmotionData.
Record t : Type := mk {
  emotion : string;
  confidence : Q;
  expressions : Expressions.t;
  timestamp : Z
}.
End FacialEmotionData.

Module SmoothedEmotionState.
Record t : Type := mk {
  emotion : string;
  confidence : Q;
  history : list FacialEmotionData.t;
  lastUpdate : Z
}.
End SmoothedEmotionState.

Definition maxHistorySize : nat := 10.

(** The dominant raw category of [processFaceExpressions]. *)
Definition dominantExpression (expressions : Expressions.t) : string * Q :=
  fold_left dominantStep (Expressions.entries expressions)
            ("neutral", Expressions.neutral expressions).

(** The [if / else if] chain that maps the raw winner to a label. *)
Definition mapEmotion (dominantEmotion : string) : string :=
  if String.eqb dominantEmotion "happy" then "happy"
  else if String.eqb dominantEmotion "sad" then "tired"
  else if String.eqb dominantEmotion "angry" then "stressed"
  else if String.eqb dominantEmotion "fearful" then "stressed"
  else if String.eqb dominantEmotion "surprised" then "focused"
  else "neutral".

Definition processFaceExpressions (now : Z) (expressions : Expressions.t)
  : FacialEmotionData.t :=
  let '(dominantEmotion, maxConfidence) := dominantExpression expressions in
  {| FacialEmotionData.emotion := mapEmotion dominantEmotion;
     FacialEmotionData.confidence := maxConfidence;
     FacialEmotionData.expressions := expressions;
     FacialEmotionData.timestamp := now |}.

(** The [forEach] that fills [emotionCounts] and [emotionConfidences]. *)
Definition tallyStep (acc : JsRecord.t * JsRecord.t) (data : FacialEmotionData.t)
  : JsRecord.t * JsRecord.t :=
  let '(emotionCounts, emotionConfidences) := acc in
  let e := FacialEmotionData.emotion data in
  ( JsRecord.set e (orZero (JsRecord.get e emotionCounts) + 1) emotionCounts,
    JsRecord.set e (orZero (JsRecord.get e emotionConfidences)
                    + FacialEmotionData.confidence data) emotionConfidences ).

Definition tally (emotionHistory : list FacialEmotionData.t)
  : JsRecord.t * JsRecord.t :=
  fold_left tallyStep emotionHistory (JsRecord.empty, JsRecord.empty).

Definition getSmoothedEmotion (now : Z) (emotionHistory : list FacialEmotionData.t)
  : SmoothedEmotionState.t :=
  if (length emotionHistory =? 0)%nat then
    {| SmoothedEmotionState.emotion := "neutral";
       SmoothedEmotionState.confidence := 0.5;
       SmoothedEmotionState.history := [];
       SmoothedEmotionState.lastUpdate := now |}
  else
    let '(emotionCounts, emotionConfidences) := tally emotionHistory in
    let '(dominantEmotion, maxCount) :=
      fold_left dominantStep (JsRecord.entries emotionCounts) ("neutral", 0) in
    let avgConfidence :=
      num (JsRecord.get dominantEmotion emotionConfidences)
      / num (JsRecord.get dominantEmotion emotionCounts) in
    {| SmoothedEmotionState.emotion := dominantEmotion;
       SmoothedEmotionState.confidence := Qmin avgConfidence 1;
       SmoothedEmotionState.history := emotionHistory;
       SmoothedEmotionState.lastUpdate := now |}.

(** The fields of [FacialEmotionDetector] that the smoothing reads or writes. *)
Module Detector.
Record t : Type := mk {
  emotionHistory : list FacialEmotionData.t;
  isRunning : bool
}.

Definition init : t := {| emotionHistory := []; isRunning := false |}.
End Detector.

(** The part of [startDetection] that runs before the timer is installed. *)
Definition startDetection (d : Detector.t) : Detector.t :=
  {| Detector.emotionHistory := Detector.emotionHistory d;
     Detector.isRunning := true |}.

(** One firing of the [setInterval] callback of [startDetection], when no
    other method is called while the classifier is awaited ([tickResume]
    below is the part after the [await], for the firings that are
    interleaved with other calls).
    [detections] is what the classifier returned for the frame ([None]: no
    face, or the call threw and the error was logged); the second component is
    the argument of [onEmotionDetected], when it is called. *)
Definition detectionTick (now now' : Z) (detections : option Expressions.t)
    (d : Detector.t) : Detector.t * option SmoothedEmotionState.t :=
  if negb (Detector.isRunning d) then (d, None)
  else
    match detections with
    | None => (d, None)
    | Some expressions =>
        let facialEmotion := processFaceExpressions now expressions in
        let h := pushBounded maxHistorySize facialEmotion (Detector.emotionHistory d) in
        ( {| Detector.emotionHistory := h; Detector.isRunning := Detector.isRunning d |},
          Some (getSmoothedEmotion now' h) )
    end.

(** The same callback from the point where it resumes after
    [await faceapi.detectSingleFace(...).withFaceExpressions()].  The test of
    [isRunning] lies before the [await] and is not repeated after it: the rest
    of the callback runs on the detector as it is when the classifier
    answers, whatever was called in between.  [detectionTick] is the firing
    during which nothing else is called. *)
Definition tickResume (now now' : Z) (detections : option Expressions.t)
    (d : Detector.t) : Detector.t * option SmoothedEmotionState.t :=
  match detections with
  | None => (d, None)
  | Some expressions =>
      let facialEmotion := processFaceExpressions now expressions in
      let h := pushBounded maxHistorySize facialEmotion (Detector.emotionHistory d) in
      ( {| Detector.emotionHistory := h; Detector.isRunning := Detector.isRunning d |},
        Some (getSmoothedEmotion now' h) )
  end.

Definition stopDetection (d : Detector.t) : Detector.t :=
  {| Detector.emotionHistory := []; Detector.isRunning := false |}.

Definition getCurrentEmotion (now : Z) (d : Detector.t) : SmoothedEmotionState.t :=
  getSmoothedEmotion now (Detector.emotionHistory d).

Definition clearHistory (d : Detector.t) : Detector.t :=
  {| Detector.emotionHistory := []; Detector.isRunning := Detector.isRunning d |}.

Definition isDetectionRunning (d : Detector.t) : bool := Detector.isRunning d.

(** ** multiModalEmotionContext.ts *)

Module TextEmotionData.
Record t : Type := mk {
  emotion : string;
  confidence : Q;
  timestamp : Z
}.
End TextEmotionData.

Module VoiceEmotionData.
Record t : Type := mk {
  emotion : string;
  confidence : Q;
  tone : string;
  timestamp : Z
}.
End VoiceEmotionData.

(** ['facial' | 'voice' | 'text' | 'merged'] *)
Inductive Source : Type := facial | voice | text | merged.

Module HistoryEntry.
Record t : Type := mk {
  emotion : string;
  source : Source;
  timestamp : Z
}.
End HistoryEntry.

Module MultiModalEmotionState.
Record t : Type := mk {
  facialEmotion : option SmoothedEmotionState.t;
  voiceEmotion : option VoiceEmotionData.t;
  textEmotion : option TextEmotionData.t;
  sessionDuration : Q;
  mergedEmotion : string;
  confidence : Q;
  lastUpdate : Z;
  emotionHistory : list HistoryEntry.t
}.
End MultiModalEmotionState.

Import MultiModalEmotionState.

Module EMOTION_WEIGHTS.
Definition facial : Q := 0.5.
Definition voice : Q := 0.3.
Definition text : Q := 0.2.
End EMOTION_WEIGHTS.

Definition emotionHistoryLimit : nat := 50.

(** The initializer of the private field [currentState]. *)
Definition initialState (now : Z) : MultiModalEmotionState.t :=
  {| facialEmotion := None;
     voiceEmotion := None;
     textEmotion := None;
     sessionDuration := 0;
     mergedEmotion := "neutral";
     confidence := 0.5;
     lastUpdate := now;
     emotionHistory := [] |}.

(** The array [emotions] of [recomputeMergedEmotion]: one entry per channel
    that is not [null], in the order facial, voice, text. *)
Definition collectEmotions (s : MultiModalEmotionState.t) : list (string * Q) :=
  match facialEmotion s with
  | Some f => [(SmoothedEmotionState.emotion f, EMOTION_WEIGHTS.facial)]
  | None => []
  end ++
  match voiceEmotion s with
  | Some v => [(VoiceEmotionData.emotion v, EMOTION_WEIGHTS.voice)]
  | None => []
  end ++
  match textEmotion s with
  | Some x => [(TextEmotionData.emotion x, EMOTION_WEIGHTS.text)]
  | None => []
  end.

(** [emotionScores[emotion] = (emotionScores[emotion] || 0) + weight;
     totalWeight += weight] *)
Definition scoreStep (acc : JsRecord.t * Q) (e : string * Q) : JsRecord.t * Q :=
  let '(emotionScores, totalWeight) := acc in
  let '(emotion, weight) := e in
  ( JsRecord.set emotion (orZero (JsRecord.get emotion emotionScores) + weight)
                 emotionScores,
    totalWeight + weight ).

(** [emotionScores[emotion] /= totalWeight] *)
Definition normalizeStep (totalWeight : Q) (emotionScores : JsRecord.t)
    (emotion : string) : JsRecord.t :=
  JsRecord.set emotion (num (JsRecord.get emotion emotionScores) / totalWeight)
               emotionScores.

(** [emotionScores[k] += x] *)
Definition addTo (k : string) (x : Q) (o : JsRecord.t) : JsRecord.t :=
  JsRecord.set k (num (JsRecord.get k o) + x) o.

(** The session-duration heuristics. *)
Definition applySessionDuration (sessionDuration : Q) (emotionScores : JsRecord.t)
  : JsRecord.t :=
  let s0 := JsRecord.set "tired" (orZero (JsRecord.get "tired" emotionScores))
                         emotionScores in
  let s1 := if Qgtb sessionDuration (45 * 60) then addTo "tired" 0.1 s0 else s0 in
  if Qgtb sessionDuration (90 * 60) then addTo "tired" 0.15 s1 else s1.

(** [emotionScores] as it stands when the dominant emotion is looked for. *)
Definition scoreEmotions (emotions : list (string * Q)) (sessionDuration : Q)
  : JsRecord.t :=
  let '(emotionScores, totalWeight) :=
    fold_left scoreStep emotions (JsRecord.empty, 0) in
  let normalized :=
    fold_left (normalizeStep totalWeight) (JsRecord.keys emotionScores)
              emotionScores in
  applySessionDuration sessionDuration normalized.

Definition recomputeMergedEmotion (now : Z) (s : MultiModalEmotionState.t)
  : MultiModalEmotionState.t :=
  let emotions := collectEmotions s in
  if (length emotions =? 0)%nat then
    {| facialEmotion := facialEmotion s;
       voiceEmotion := voiceEmotion s;
       textEmotion := textEmotion s;
       sessionDuration := sessionDuration s;
       mergedEmotion := "neutral";
       confidence := 0.5;
       lastUpdate := lastUpdate s;
       emotionHistory := emotionHistory s |}
  else
    let emotionScores := scoreEmotions emotions (sessionDuration s) in
    let '(dominantEmotion, maxScore) :=
      fold_left dominantStep (JsRecord.entries emotionScores) ("neutral", 0) in
    {| facialEmotion := facialEmotion s;
       voiceEmotion := voiceEmotion s;
       textEmotion := textEmotion s;
       sessionDuration := sessionDuration s;
       mergedEmotion := dominantEmotion;
       confidence := Qmin maxScore 1;
       lastUpdate := lastUpdate s;
       emotionHistory :=
         pushBounded emotionHistoryLimit
           {| HistoryEntry.emotion := dominantEmotion;
              HistoryEntry.source := merged;
              HistoryEntry.timestamp := now |}
           (emotionHistory s) |}.

(** The three channel updates read the clock twice: [now] stamps [lastUpdate],
    [now'] is the time of the history entry. *)
Definition updateFacialEmotion (now now' : Z) (f : SmoothedEmotionState.t)
    (s : MultiModalEmotionState.t) : MultiModalEmotionState.t :=
  recomputeMergedEmotion now'
    {| facialEmotion := Some f;
       voiceEmotion := voiceEmotion s;
       textEmotion := textEmotion s;
       sessionDuration := sessionDuration s;
       mergedEmotion := mergedEmotion s;
       confidence := confidence s;
       lastUpdate := now;
       emotionHistory := emotionHistory s |}.

Definition updateVoiceEmotion (now now' : Z) (v : VoiceEmotionData.t)
    (s : MultiModalEmotionState.t) : MultiModalEmotionState.t :=
  recomputeMergedEmotion now'
    {| facialEmotion := facialEmotion s;
       voiceEmotion := Some v;
       textEmotion := textEmotion s;
       sessionDuration := sessionDuration s;
       mergedEmotion := mergedEmotion s;
       confidence := confidence s;
       lastUpdate := now;
       emotionHistory := emotionHistory s |}.

Definition updateTextEmotion (now now' : Z) (x : TextEmotionData.t)
    (s : MultiModalEmotionState.t) : MultiModalEmotionState.t :=
  recomputeMergedEmotion now'
    {| facialEmotion := facialEmotion s;
       voiceEmotion := voiceEmotion s;
       textEmotion := Some x;
       sessionDuration := sessionDuration s;
       mergedEmotion := mergedEmotion s;
       confidence := confidence s;
       lastUpdate := now;
       emotionHistory := emotionHistory s |}.

Definition updateSessionDuration (now : Z) (seconds : Q)
    (s : MultiModalEmotionState.t) : MultiModalEmotionState.t :=
  recomputeMergedEmotion now
    {| facialEmotion := facialEmotion s;
       voiceEmotion := voiceEmotion s;
       textEmotion := textEmotion s;
       sessionDuration := seconds;
       mergedEmotion := mergedEmotion s;
       confidence := confidence s;
       lastUpdate := lastUpdate s;
       emotionHistory := emotionHistory s |}.

Definition reset (now : Z) (s : MultiModalEmotionState.t) : MultiModalEmotionState.t :=
  {| facialEmotion := None;
     voiceEmotion := None;
     textEmotion := None;
     sessionDuration := 0;
     mergedEmotion := "neutral";
     confidence := 0.5;
     lastUpdate := now;
     emotionHistory := [] |}.

(** *** Response guidelines *)

Inductive Tone := energetic | calm | supportive | patient | professional.
Inductive Verbosity := minimal | concise | normal | detailed.
Inductive Detail := simplified | step_by_step | comprehensive.
Inductive Pitch := pitch_low | pitch_medium | pitch_high.
Inductive Pace := pace_slow | pace_medium | pace_fast | pace_normal.

Module VoiceSettings.
Record t : Type := mk {
  pitch : Pitch;
  pace : Pace;
  emotion : string
}.
End VoiceSettings.

Module EmotionResponseGuidelines.
Record t : Type := mk {
  tone : Tone;
  verbosity : Verbosity;
  detail : Detail;
  suggestions : list string;
  breakNeeded : bool;
  encouragement : bool;
  voiceSettings : VoiceSettings.t
}.
End EmotionResponseGuidelines.

Import EmotionResponseGuidelines.

Definition getResponseGuidelines (s : MultiModalEmotionState.t)
  : EmotionResponseGuidelines.t :=
  let emotion := mergedEmotion s in
  if String.eqb emotion "happy" || String.eqb emotion "focused" then
    {| tone := energetic;
       verbosity := normal;
       detail := comprehensive;
       suggestions := ["Continue learning"; "Maintain momentum"];
       breakNeeded := false;
       encouragement := true;
       voiceSettings :=
         {| VoiceSettings.pitch := pitch_high;
            VoiceSettings.pace := pace_fast;
            VoiceSettings.emotion := "happy" |} |}
  else if String.eqb emotion "stressed" || String.eqb emotion "anxious" then
    {| tone := calm;
       verbosity := concise;
       detail := simplified;
       suggestions := ["Take a short break"; "Try a breathing exercise";
                       "Move to a different location"];
       breakNeeded := true;
       encouragement := true;
       voiceSettings :=
         {| VoiceSettings.pitch := pitch_low;
            VoiceSettings.pace := pace_slow;
            VoiceSettings.emotion := "calm" |} |}
  else if String.eqb emotion "tired" || String.eqb emotion "sad" then
    {| tone := supportive;
       verbosity := minimal;
       detail := simplified;
       suggestions := ["Take a longer break"; "Try a 10-minute power nap";
                       "Go for a walk"; "Stretch and move around"];
       breakNeeded := true;
       encouragement := true;
       voiceSettings :=
         {| VoiceSettings.pitch := pitch_medium;
            VoiceSettings.pace := pace_slow;
            VoiceSettings.emotion := "calm" |} |}
  else if String.eqb emotion "confused" then
    {| tone := patient;
       verbosity := detailed;
       detail := step_by_step;
       suggestions := ["Break down the problem"; "Use analogies";
                       "Start with fundamentals"];
       breakNeeded := false;
       encouragement := true;
       voiceSettings :=
         {| VoiceSettings.pitch := pitch_medium;
            VoiceSettings.pace := pace_medium;
            VoiceSettings.emotion := "calm" |} |}
  else
    {| tone := professional;
       verbosity := normal;
       detail := comprehensive;
       suggestions := ["Keep learning"; "Maintain focus"];
       breakNeeded := false;
       encouragement := false;
       voiceSettings :=
         {| VoiceSettings.pitch := pitch_medium;
            VoiceSettings.pace := pace_normal;
            VoiceSettings.emotion := "neutral" |} |}.

(** ** The fusion engine over a store of objects

    The same methods with the objects of the program in a store: a
    [MultiModalEmotionState] object holds references to its channel objects
    and to its [emotionHistory] array, so that whoever holds one of these
    references sees, and can make, the in-place updates. *)

Module Heap.
Abbreviation ref := nat.

Module StateObj.
Record t : Type := mk {
  facialEmotion : option ref;
  voiceEmotion : option ref;
  textEmotion : option ref;
  sessionDuration : Q;
  mergedEmotion : string;
  confidence : Q;
  lastUpdate : Z;
  emotionHistory : ref
}.
End StateObj.

Inductive cell : Type :=
| CState (o : StateObj.t)
| CFacial (o : SmoothedEmotionState.t)
| CVoice (o : VoiceEmotionData.t)
| CText (o : TextEmotionData.t)
| CHistory (a : list HistoryEntry.t).

Abbreviation heap := (list cell).

(** The engine object: its private field [currentState]. *)
Record Engine : Type := mkEngine { currentState : ref }.

(** A new object gets the next free address. *)
Definition alloc (c : cell) (h : heap) : heap * ref := (h ++ [c], length h).

Definition asState (c : cell) : option StateObj.t :=
  match c with CState o => Some o | _ => None end.

Definition asFacial (c : cell) : option SmoothedEmotionState.t :=
  match c with CFacial o => Some o | _ => None end.

Definition asVoice (c : cell) : option VoiceEmotionData.t :=
  match c with CVoice o => Some o | _ => None end.

Definition asText (c : cell) : option TextEmotionData.t :=
  match c with CText o => Some o | _ => None end.

Definition asHistory (c : cell) : option (list HistoryEntry.t) :=
  match c with CHistory a => Some a | _ => None end.

(** The object at [r], when it is of the kind that [as_] recognizes. *)
Definition read {A : Type} (as_ : cell -> option A) (h : heap) (r : ref) : option A :=
  match h !! r with
  | Some c => as_ c
  | None => None
  end.

Definition readState : heap -> ref -> option StateObj.t := read asState.
Definition readFacial : heap -> ref -> option SmoothedEmotionState.t := read asFacial.
Definition readVoice : heap -> ref -> option VoiceEmotionData.t := read asVoice.
Definition readText : heap -> ref -> option TextEmotionData.t := read asText.
Definition readHistory : heap -> ref -> option (list HistoryEntry.t) := read asHistory.

(** A nullable reference read through [rd]. *)
Definition readNullable {A : Type} (rd : heap -> ref -> option A)
    (h : heap) (r : option ref) : option (option A) :=
  match r with
  | None => Some None
  | Some r' => match rd h r' with Some a => Some (Some a) | None => None end
  end.

(** Everything a reader reaches from the state object at [r]. *)
Definition snapshot (h : heap) (r : ref) : option MultiModalEmotionState.t :=
  o ← readState h r;
  f ← readNullable readFacial h (StateObj.facialEmotion o);
  v ← readNullable readVoice h (StateObj.voiceEmotion o);
  x ← readNullable readText h (StateObj.textEmotion o);
  a ← readHistory h (StateObj.emotionHistory o);
  Some {| facialEmotion := f;
          voiceEmotion := v;
          textEmotion := x;
          sessionDuration := StateObj.sessionDuration o;
          mergedEmotion := StateObj.mergedEmotion o;
          confidence := StateObj.confidence o;
          lastUpdate := StateObj.lastUpdate o;
          emotionHistory := a |}.

(** [this.currentState.mergedEmotion = m; this.currentState.confidence = c] *)
Definition setMerged (m : string) (c : Q) (o : StateObj.t) : StateObj.t :=
  {| StateObj.facialEmotion := StateObj.facialEmotion o;
     StateObj.voiceEmotion := StateObj.voiceEmotion o;
     StateObj.textEmotion := StateObj.textEmotion o;
     StateObj.sessionDuration := StateObj.sessionDuration o;
     StateObj.mergedEmotion := m;
     StateObj.confidence := c;
     StateObj.lastUpdate := StateObj.lastUpdate o;
     StateObj.emotionHistory := StateObj.emotionHistory o |}.

Definition recomputeMergedEmotion (now : Z) (h : heap) (this : Engine)
  : option heap :=
  s ← snapshot h (currentState this);
  o ← readState h (currentState this);
  let emotions := collectEmotions s in
  if (length emotions =? 0)%nat then
    Some (<[currentState this := CState (setMerged "neutral" 0.5 o)]> h)
  else
    let emotionScores := scoreEmotions emotions (StateObj.sessionDuration o) in
    let '(dominantEmotion, maxScore) :=
      fold_left dominantStep (JsRecord.entries emotionScores) ("neutral", 0) in
    let h1 := <[currentState this :=
                  CState (setMerged dominantEmotion (Qmin maxScore 1) o)]> h in
    a ← readHistory h1 (StateObj.emotionHistory o);
    Some (<[StateObj.emotionHistory o :=
              CHistory (pushBounded emotionHistoryLimit
                          {| HistoryEntry.emotion := dominantEmotion;
                             HistoryEntry.source := merged;
                             HistoryEntry.timestamp := now |} a)]> h1).

Definition updateFacialEmotion (now now' : Z) (facialEmotion : ref)
    (h : heap) (this : Engine) : option heap :=
  o ← readState h (currentState this);
  recomputeMergedEmotion now'
    (<[currentState this :=
         CState {| StateObj.facialEmotion := Some facialEmotion;
                   StateObj.voiceEmotion := StateObj.voiceEmotion o;
                   StateObj.textEmotion := StateObj.textEmotion o;
                   StateObj.sessionDuration := StateObj.sessionDuration o;
                   StateObj.mergedEmotion := StateObj.mergedEmotion o;
                   StateObj.confidence := StateObj.confidence o;
                   StateObj.lastUpdate := now;
                   StateObj.emotionHistory := StateObj.emotionHistory o |}]> h)
    this.

Definition updateVoiceEmotion (now now' : Z) (voiceEmotion : ref)
    (h : heap) (this : Engine) : option heap :=
  o ← readState h (currentState this);
  recomputeMergedEmotion now'
    (<[currentState this :=
         CState {| StateObj.facialEmotion := StateObj.facialEmotion o;
                   StateObj.voiceEmotion := Some voiceEmotion;
                   StateObj.textEmotion := StateObj.textEmotion o;
                   StateObj.sessionDuration := StateObj.sessionDuration o;
                   StateObj.mergedEmotion := StateObj.mergedEmotion o;
                   StateObj.confidence := StateObj.confidence o;
                   StateObj.lastUpdate := now;
                   StateObj.emotionHistory := StateObj.emotionHistory o |}]> h)
    this.

Definition updateTextEmotion (now now' : Z) (textEmotion : ref)
    (h : heap) (this : Engine) : option heap :=
  o ← readState h (currentState this);
  recomputeMergedEmotion now'
    (<[currentState this :=
         CState {| StateObj.facialEmotion := StateObj.facialEmotion o;
                   StateObj.voiceEmotion := StateObj.voiceEmotion o;
                   StateObj.textEmotion := Some textEmotion;
                   StateObj.sessionDuration := StateObj.sessionDuration o;
                   StateObj.mergedEmotion := StateObj.mergedEmotion o;
                   StateObj.confidence := StateObj.confidence o;
                   StateObj.lastUpdate := now;
                   StateObj.emotionHistory := StateObj.emotionHistory o |}]> h)
    this.

Definition updateSessionDuration (now : Z) (seconds : Q)
    (h : heap) (this : Engine) : option heap :=
  o ← readState h (currentState this);
  recomputeMergedEmotion now
    (<[currentState this :=
         CState {| StateObj.facialEmotion := StateObj.facialEmotion o;
                   StateObj.voiceEmotion := StateObj.voiceEmotion o;
                   StateObj.textEmotion := StateObj.textEmotion o;
                   StateObj.sessionDuration := seconds;
                   StateObj.mergedEmotion := StateObj.mergedEmotion o;
                   StateObj.confidence := StateObj.confidence o;
                   StateObj.lastUpdate := StateObj.lastUpdate o;
                   StateObj.emotionHistory := StateObj.emotionHistory o |}]> h)
    this.

(** [return { ...this.currentState }]: a new object whose fields hold what
    the fields of the current state hold, references included. *)
Definition getCurrentState (h : heap) (this : Engine) : option (heap * ref) :=
  o ← readState h (currentState this);
  Some (alloc (CState o) h).

(** A new state object with a new, empty array; the engine points to it. *)
Definition fresh (now : Z) (h : heap) : heap * Engine :=
  let '(h1, a) := alloc (CHistory []) h in
  let '(h2, r) :=
    alloc (CState {| StateObj.facialEmotion := None;
                     StateObj.voiceEmotion := None;
                     StateObj.textEmotion := None;
                     StateObj.sessionDuration := 0;
                     StateObj.mergedEmotion := "neutral";
                     StateObj.confidence := 0.5;
                     StateObj.lastUpdate := now;
                     StateObj.emotionHistory := a |}) h1 in
  (h2, {| currentState := r |}).

Definition reset (now : Z) (h : heap) (this : Engine) : heap * Engine :=
  fresh now h.

(** *** What the holder of a returned state object can do with it *)

(** [c.f = v] for fields of the object [c] itself: the object becomes [o']. *)
Definition assignFields (c : ref) (o' : StateObj.t) (h : heap) : option heap :=
  _ ← readState h c;
  Some (<[c := CState o']> h).

(** [c.emotionHistory.push(e)] *)
Definition pushHistory (c : ref) (e : HistoryEntry.t) (h : heap) : option heap :=
  o ← readState h c;
  a ← readHistory h (StateObj.emotionHistory o);
  Some (<[StateObj.emotionHistory o := CHistory (a ++ [e])]> h).

(** [c.textEmotion.emotion = label] *)
Definition setTextLabel (c : ref) (label : string) (h : heap) : option heap :=
  o ← readState h c;
  r ← StateObj.textEmotion o;
  x ← readText h r;
  Some (<[r := CText {| TextEmotionData.emotion := label;
                        TextEmotionData.confidence := TextEmotionData.confidence x;
                        TextEmotionData.timestamp := TextEmotionData.timestamp x |}]> h).

(** What is done through the returned object [c]. *)
Inductive Mutation : Type :=
| MAssign (o' : StateObj.t)
| MPushHistory (e : HistoryEntry.t)
| MSetTextLabel (label : string).

Definition mutate (c : ref) (m : Mutation) (h : heap) : option heap :=
  match m with
  | MAssign o' => assignFields c o' h
  | MPushHistory e => pushHistory c e h
  | MSetTextLabel label => setTextLabel c label h
  end.

(** The property of a defensive copy: nothing that is done through the
    returned object shows in the state of the engine. *)
Definition defensiveCopy : Prop :=
  forall h this h' c m h'',
    getCurrentState h this = Some (h', c) ->
    mutate c m h' = Some h'' ->
    snapshot h'' (currentState this) = snapshot h' (currentState this).
End Heap.

(** ** Definitions of the specification *)

(** What the loop [if (score > max) ...] leaves in [(dominant, max)]:
    either nothing beat the initial value, or the result is the first entry
    (in iteration order) that carries the greatest score. *)
Inductive dominantOf (init : string * Q) (l : list (string * Q))
  : string * Q -> Prop :=
| dominant_init :
    Forall (fun e => snd e <= snd init) l ->
    dominantOf init l init
| dominant_entry l1 l2 d m :
    l = l1 ++ (d, m) :: l2 ->
    snd init < m ->
    Forall (fun e => snd e < m) l1 ->
    Forall (fun e => snd e <= m) l2 ->
    dominantOf init l (d, m).

(** The dispatch table of the specification: the rows of the table, each with
    the labels it covers; a label on no row gets the last line. *)
Definition guidelineRows
  : list (list string * (Tone * Verbosity * Detail * bool * bool)) :=
  [ (["happy"; "focused"], (energetic, normal, comprehensive, false, true));
    (["stressed"; "anxious"], (calm, concise, simplified, true, true));
    (["tired"; "sad"], (supportive, minimal, simplified, true, true));
    (["confused"], (patient, detailed, step_by_step, false, true)) ].

Definition guidelineRow (label : string) : Tone * Verbosity * Detail * bool * bool :=
  match find (fun r => existsb (String.eqb label) (fst r)) guidelineRows with
  | Some r => snd r
  | None => (professional, normal, comprehensive, false, false)
  end.

Definition rowOf (g : EmotionResponseGuidelines.t) : Tone * Verbosity * Detail * bool * bool :=
  (tone g, verbosity g, detail g, breakNeeded g, encouragement g).

(** The lookup of the specification from the raw winner to the label: the
    listed pairs, and "neutral" for anything else. *)
Definition canonicalTable : list (string * string) :=
  [ ("sad", "tired"); ("angry", "stressed"); ("fearful", "stressed");
    ("surprised", "focused"); ("happy", "happy") ].

Definition rawToCanonical (raw : string) : string :=
  match find (fun p => String.eqb raw (fst p)) canonicalTable with
  | Some p => snd p
  | None => "neutral"
  end.

(** *** The weighted vote, as the specification words it *)

(** The sum of the weights of the channels that report [label]. *)
Fixpoint labelWeight (label : string) (emotions : list (string * Q)) : Q :=
  match emotions with
  | [] => 0
  | (l, w) :: rest =>
      (if String.eqb label l then w else 0) + labelWeight label rest
  end.

(** The sum of the weights of the channels that are present. *)
Fixpoint presentWeight (emotions : list (string * Q)) : Q :=
  match emotions with
  | [] => 0
  | (_, w) :: rest => w + presentWeight rest
  end.

(** 0.10 past 45 minutes and a further 0.15 past 90 minutes. *)
Definition fatigueBias (duration : Q) : Q :=
  (if Qgtb duration 2700 then 0.10 else 0)
  + (if Qgtb duration 5400 then 0.15 else 0).

(** The total of [label]: its share of the present weight, plus the fatigue
    bias when the label is "tired"; nothing is renormalized after the bias. *)
Definition expectedTotal (emotions : list (string * Q)) (duration : Q)
    (label : string) : Q :=
  labelWeight label emotions / presentWeight emotions
  + (if String.eqb label "tired" then fatigueBias duration else 0).

(** [k] joins the keys [ks] at the end unless it is one of them. *)
Definition addKey (k : string) (ks : list string) : list string :=
  if existsb (String.eqb k) ks then ks else ks ++ [k].

(** The labels of [ls] in the order of their first occurrence, those of
    [seen] left out. *)
Fixpoint firstOccurrencesFrom (seen ls : list string) : list string :=
  match ls with
  | [] => []
  | l :: rest =>
      if existsb (String.eqb l) seen then firstOccurrencesFrom seen rest
      else l :: firstOccurrencesFrom (seen ++ [l]) rest
  end.

Definition firstOccurrences (ls : list string) : list string :=
  firstOccurrencesFrom [] ls.

(** *** The weighted vote, on the three channels

    The definitions below are written from the specification alone.  A
    channel is given by the label it reports, [None] when it is absent. *)

Definition facialLabel (s : MultiModalEmotionState.t) : option string :=
  option_map SmoothedEmotionState.emotion (facialEmotion s).

Definition voiceLabel (s : MultiModalEmotionState.t) : option string :=
  option_map VoiceEmotionData.emotion (voiceEmotion s).

Definition textLabel (s : MultiModalEmotionState.t) : option string :=
  option_map TextEmotionData.emotion (textEmotion s).

(** What a channel of weight [w] gives to [label]: [w] when it reports
    [label], nothing otherwise. *)
Definition channelVote (w : Q) (reported : option string) (label : string) : Q :=
  match reported with
  | Some l => if String.eqb label l then w else 0
  | None => 0
  end.

(** What a channel of weight [w] adds to the sum of the present weights. *)
Definition channelPresent (w : Q) (reported : option string) : Q :=
  match reported with
  | Some _ => w
  | None => 0
  end.

(** The total of [label] when the facial, voice and text channels report
    [f], [v] and [x]: the weights (facial 0.5, voice 0.3, text 0.2) of the
    channels that report [label], divided by the weights of the channels
    that are present; for "tired", 0.10 more past 2700 seconds and a further
    0.15 past 5400 seconds, added after the division. *)
Definition voteTotal (f v x : option string) (duration : Q) (label : string) : Q :=
  (channelVote 0.5 f label + channelVote 0.3 v label + channelVote 0.2 x label)
  / (channelPresent 0.5 f + channelPresent 0.3 v + channelPresent 0.2 x)
  + (if String.eqb label "tired"
     then (if Qgtb duration 2700 then 0.10 else 0)
          + (if Qgtb duration 5400 then 0.15 else 0)
     else 0).

(** The order in which the labels are encountered: the facial label, the
    voice label, the text label, each where it is new, then "tired" unless a
    channel reported it. *)
Definition voteOrder (f v x : option string) : list string :=
  firstOccurrences (option_list f ++ option_list v ++ option_list x ++ ["tired"]).

(** *** The majority vote, as the specification words it *)

(** The number of entries of the window that carry [label]. *)
Definition occurrences (label : string) (window : list FacialEmotionData.t) : nat :=
  length (List.filter (fun d => String.eqb (FacialEmotionData.emotion d) label) window).

(** The sum of the confidences recorded for [label] within the window. *)
Fixpoint confidenceSum (label : string) (window : list FacialEmotionData.t) : Q :=
  match window with
  | [] => 0
  | d :: rest =>
      (if String.eqb (FacialEmotionData.emotion d) label
       then FacialEmotionData.confidence d else 0)
      + confidenceSum label rest
  end.

(** A count, as a number. *)
Definition countQ (n : nat) : Q := inject_Z (Z.of_nat n).

(** The arithmetic mean of the confidences recorded for [label]. *)
Definition meanConfidence (label : string) (window : list FacialEmotionData.t) : Q :=
  confidenceSum label window / countQ (occurrences label window).

(** [label] occurs more often than any other label. *)
Definition strictlyDominates (label : string) (window : list FacialEmotionData.t)
  : Prop :=
  forall other, other <> label ->
    (occurrences other window < occurrences label window)%nat.

(** *** Sequences of operations *)

(** The calls that change the detector. *)
Inductive DetectorOp : Type :=
| DStart
| DTick (now now' : Z) (detections : option Expressions.t)
| DStop
| DClear.

Definition detectorStep (d : Detector.t) (op : DetectorOp) : Detector.t :=
  match op with
  | DStart => startDetection d
  | DTick now now' detections => fst (detectionTick now now' detections d)
  | DStop => stopDetection d
  | DClear => clearHistory d
  end.

Definition runDetector (ops : list DetectorOp) (d : Detector.t) : Detector.t :=
  fold_left detectorStep ops d.

(** A new reading on one of the three channels. *)
Inductive ChannelUpdate : Type :=
| UFacial (now now' : Z) (f : SmoothedEmotionState.t)
| UVoice (now now' : Z) (v : VoiceEmotionData.t)
| UText (now now' : Z) (x : TextEmotionData.t).

(** The calls that change the fusion engine. *)
Inductive EngineOp : Type :=
| OUpdate (u : ChannelUpdate)
| OSessionDuration (now : Z) (seconds : Q)
| OReset (now : Z).

Definition channelStep (s : MultiModalEmotionState.t) (u : ChannelUpdate)
  : MultiModalEmotionState.t :=
  match u with
  | UFacial now now' f => updateFacialEmotion now now' f s
  | UVoice now now' v => updateVoiceEmotion now now' v s
  | UText now now' x => updateTextEmotion now now' x s
  end.

Definition engineStep (s : MultiModalEmotionState.t) (op : EngineOp)
  : MultiModalEmotionState.t :=
  match op with
  | OUpdate u => channelStep s u
  | OSessionDuration now seconds => updateSessionDuration now seconds s
  | OReset now => reset now s
  end.

Definition runEngine (ops : list EngineOp) (s : MultiModalEmotionState.t)
  : MultiModalEmotionState.t :=
  fold_left engineStep ops s.

(** The last [n] elements of a list. *)
Definition lastN {A : Type} (n : nat) (l : list A) : list A :=
  skipn (length l - n) l.

(** The time at which the merge of a channel update is logged. *)
Definition logTime (u : ChannelUpdate) : Z :=
  match u with
  | UFacial _ now' _ | UVoice _ now' _ | UText _ now' _ => now'
  end.

(** The merge results of a sequence of channel updates, in the order in which
    they were computed. *)
Fixpoint mergeLog (us : list ChannelUpdate) (s : MultiModalEmotionState.t)
  : list HistoryEntry.t :=
  match us with
  | [] => []
  | u :: us' =>
      let s' := channelStep s u in
      {| HistoryEntry.emotion := mergedEmotion s';
         HistoryEntry.source := merged;
         HistoryEntry.timestamp := logTime u |} :: mergeLog us' s'
  end.

(** The entries that a sequence of classified frames adds to the window. *)
Definition frameEntry (f : Z * Z * Expressions.t) : FacialEmotionData.t :=
  processFaceExpressions (fst (fst f)) (snd f).

Definition frameTick (f : Z * Z * Expressions.t) : DetectorOp :=
  DTick (fst (fst f)) (snd (fst f)) (Some (snd f)).

(** *** Sample values *)

Definition happyState : MultiModalEmotionState.t :=
  {| facialEmotion := None; voiceEmotion := None;
     textEmotion := Some {| TextEmotionData.emotion := "happy";
                            TextEmotionData.confidence := 0.9;
                            TextEmotionData.timestamp := 7 |};
     sessionDuration := 0; mergedEmotion := "happy"; confidence := 1;
     lastUpdate := 7; emotionHistory := [] |}.

Definition calmFace : Expressions.t :=
  {| Expressions.neutral := 0.1; Expressions.happy := 0.6; Expressions.sad := 0.05;
     Expressions.angry := 0.05; Expressions.fearful := 0.05;
     Expressions.disgusted := 0.05; Expressions.surprised := 0.1 |}.

(** Frames and text readings stamped 1, 2, ..., n. *)
Definition framesUpTo (n : nat) : list (Z * Z * Expressions.t) :=
  map (fun i => (Z.of_nat i, Z.of_nat i, calmFace)) (seq 1 n).

Definition textUpTo (n : nat) : list ChannelUpdate :=
  map (fun i => UText (Z.of_nat i) (Z.of_nat i)
                  {| TextEmotionData.emotion := "happy";
                     TextEmotionData.confidence := 0.9;
                     TextEmotionData.timestamp := Z.of_nat i |}) (seq 1 n).

Definition sampleEntry (label : string) (c : Q) (t : Z) : FacialEmotionData.t :=
  {| FacialEmotionData.emotion := label;
     FacialEmotionData.confidence := c;
     FacialEmotionData.expressions := calmFace;
     FacialEmotionData.timestamp := t |}.

Definition sampleWindow : list FacialEmotionData.t :=
  [ sampleEntry "happy" 0.8 1; sampleEntry "tired" 0.9 2; sampleEntry "happy" 0.6 3 ].


(** A new engine that has received one text reading: the store holds the
    history array (0), the state object (1) and the reading (2). *)
Definition sampleEngine : Heap.Engine := snd (Heap.fresh 0 []).

Definition sampleHeap : Heap.heap :=
  let h := fst (Heap.alloc (Heap.CText {| TextEmotionData.emotion := "happy";
                                          TextEmotionData.confidence := 0.9;
                                          TextEmotionData.timestamp := 1 |})
                           (fst (Heap.fresh 0 []))) in
  match Heap.updateTextEmotion 1 1 2%nat h sampleEngine with
  | Some h' => h'
  | None => h
  end.

Definition strayEntry : HistoryEntry.t :=
  {| HistoryEntry.emotion := "stressed";
     HistoryEntry.source := facial;
     HistoryEntry.timestamp := 99 |}.

(** The state that the sample engine holds. *)
Definition sampleState : MultiModalEmotionState.t :=
  {| facialEmotion := None;
     voiceEmotion := None;
     textEmotion := Some {| TextEmotionData.emotion := "happy";
                            TextEmotionData.confidence := 0.9;
                            TextEmotionData.timestamp := 1 |};
     sessionDuration := 0;
     mergedEmotion := "happy";
     confidence := 20 # 20;
     lastUpdate := 1;
     emotionHistory := [ {| HistoryEntry.emotion := "happy";
                            HistoryEntry.source := merged;
                            HistoryEntry.timestamp := 1 |} ] |}.

(** The store after [getCurrentState()]: the returned object is at 3. *)
Definition copiedHeap : Heap.heap :=
  match Heap.getCurrentState sampleHeap sampleEngine with
  | Some (h', _) => h'
  | None => sampleHeap
  end.

(** What a reader of the engine sees of the history and of the merged label. *)
Definition observedHistory (h : option Heap.heap) : option (list HistoryEntry.t) :=
  h' ← h; option_map emotionHistory (Heap.snapshot h' (Heap.currentState sampleEngine)).

Definition observedMerged (h : option Heap.heap) : option string :=
  h' ← h; option_map mergedEmotion (Heap.snapshot h' (Heap.currentState sampleEngine)).

From Stdlib Require Import Qround.

(** ** The code around the claims *)

(** *** multiModalEmotionContext.ts: [getEmotionColorScheme] *)

Module EmotionColorScheme.
Record t : Type := mk {
  primary : string;
  secondary : string;
  background : string;
  text : string;
  accent : string;
  gradient : string
}.
End EmotionColorScheme.

(** [o[k]] on an object literal with string keys, own properties in source
    order. *)
Fixpoint lookup {A : Type} (k : string) (o : list (string * A)) : option A :=
  match o with
  | [] => None
  | (k', v) :: o' => if String.eqb k k' then Some v else lookup k o'
  end.

(** The table [schemes] of [getEmotionColorScheme]. *)
Definition schemes : list (string * EmotionColorScheme.t) :=
  [ ("happy",
     {| EmotionColorScheme.primary := "#FCD34D";
        EmotionColorScheme.secondary := "#FBBF24";
        EmotionColorScheme.background := "#FFFBEB";
        EmotionColorScheme.text := "#000000";
        EmotionColorScheme.accent := "#F59E0B";
        EmotionColorScheme.gradient := "from-yellow-300 to-orange-400" |});
    ("focused",
     {| EmotionColorScheme.primary := "#10B981";
        EmotionColorScheme.secondary := "#059669";
        EmotionColorScheme.background := "#ECFDF5";
        EmotionColorScheme.text := "#000000";
        EmotionColorScheme.accent := "#34D399";
        EmotionColorScheme.gradient := "from-green-400 to-emerald-600" |});
    ("neutral",
     {| EmotionColorScheme.primary := "#9CA3AF";
        EmotionColorScheme.secondary := "#6B7280";
        EmotionColorScheme.background := "#F9FAFB";
        EmotionColorScheme.text := "#000000";
        EmotionColorScheme.accent := "#D1D5DB";
        EmotionColorScheme.gradient := "from-gray-400 to-gray-600" |});
    ("calm",
     {| EmotionColorScheme.primary := "#60A5FA";
        EmotionColorScheme.secondary := "#3B82F6";
        EmotionColorScheme.background := "#EFF6FF";
        EmotionColorScheme.text := "#000000";
        EmotionColorScheme.accent := "#93C5FD";
        EmotionColorScheme.gradient := "from-blue-400 to-blue-600" |});
    ("stressed",
     {| EmotionColorScheme.primary := "#F87171";
        EmotionColorScheme.secondary := "#EF4444";
        EmotionColorScheme.background := "#FEF2F2";
        EmotionColorScheme.text := "#000000";
        EmotionColorScheme.accent := "#FCA5A5";
        EmotionColorScheme.gradient := "from-red-400 to-red-600" |});
    ("tired",
     {| EmotionColorScheme.primary := "#A78BFA";
        EmotionColorScheme.secondary := "#8B5CF6";
        EmotionColorScheme.background := "#FAF5FF";
        EmotionColorScheme.text := "#000000";
        EmotionColorScheme.accent := "#D8B4FE";
        EmotionColorScheme.gradient := "from-purple-400 to-purple-600" |});
    ("sad",
     {| EmotionColorScheme.primary := "#38BDF8";
        EmotionColorScheme.secondary := "#0EA5E9";
        EmotionColorScheme.background := "#F0F9FF";
        EmotionColorScheme.text := "#000000";
        EmotionColorScheme.accent := "#7DD3FC";
        EmotionColorScheme.gradient := "from-sky-400 to-blue-600" |});
    ("confused",
     {| EmotionColorScheme.primary := "#F97316";
        EmotionColorScheme.secondary := "#FB923C";
        EmotionColorScheme.background := "#FFF7ED";
        EmotionColorScheme.text := "#000000";
        EmotionColorScheme.accent := "#FDBA74";
        EmotionColorScheme.gradient := "from-orange-400 to-orange-600" |});
    ("anxious",
     {| EmotionColorScheme.primary := "#F472B6";
        EmotionColorScheme.secondary := "#EC4899";
        EmotionColorScheme.background := "#FDF2F8";
        EmotionColorScheme.text := "#000000";
        EmotionColorScheme.accent := "#F9A8D4";
        EmotionColorScheme.gradient := "from-pink-400 to-red-500" |}) ].

(** [schemes.neutral]; the key is in the table, the other branch stands for
    [undefined]. *)
Definition schemes_neutral : EmotionColorScheme.t :=
  match lookup "neutral" schemes with
  | Some scheme => scheme
  | None => {| EmotionColorScheme.primary := ""; EmotionColorScheme.secondary := "";
               EmotionColorScheme.background := ""; EmotionColorScheme.text := "";
               EmotionColorScheme.accent := ""; EmotionColorScheme.gradient := "" |}
  end.

(** [return schemes[emotion] || schemes.neutral]: an object is truthy. *)
Definition getEmotionColorScheme (s : MultiModalEmotionState.t)
  : EmotionColorScheme.t :=
  let emotion := mergedEmotion s in
  match lookup emotion schemes with
  | Some scheme => scheme
  | None => schemes_neutral
  end.

(** *** components/WebcamCapture.tsx: what the overlay shows *)

Definition emotionEmojis : list (string * string) :=
  [ ("happy", "😊"); ("neutral", "😐"); ("sad", "😢"); ("stressed", "😣");
    ("tired", "😴"); ("focused", "🎯"); ("anxious", "😰"); ("surprised", "😲") ].

Definition emotionColors : list (string * string) :=
  [ ("happy", "from-yellow-400 to-orange-400");
    ("neutral", "from-gray-300 to-gray-400");
    ("sad", "from-blue-400 to-blue-600");
    ("stressed", "from-red-400 to-red-600");
    ("tired", "from-purple-400 to-purple-600");
    ("focused", "from-green-400 to-green-600");
    ("anxious", "from-orange-400 to-red-500");
    ("surprised", "from-pink-400 to-purple-400") ].

(** [x || d] where [x] is a string or [undefined]: [undefined] and the empty
    string are falsy. *)
Definition orString (x : option string) (d : string) : string :=
  match x with
  | Some v => if String.eqb v "" then d else v
  | None => d
  end.

(** [emotionColors[currentEmotion.emotion] || emotionColors.neutral] *)
Definition emotionColor (currentEmotion : SmoothedEmotionState.t) : string :=
  orString (lookup (SmoothedEmotionState.emotion currentEmotion) emotionColors)
           (orString (lookup "neutral" emotionColors) "").

(** [emotionEmojis[currentEmotion.emotion] || '😐'] *)
Definition emotionEmoji (currentEmotion : SmoothedEmotionState.t) : string :=
  orString (lookup (SmoothedEmotionState.emotion currentEmotion) emotionEmojis) "😐".

(** [Math.round]: the nearest integer, halves towards plus infinity. *)
Definition MathRound (x : Q) : Z := Qfloor (x + 1 / 2).

(** [Math.round(currentEmotion.confidence * 100)] *)
Definition confidencePercent (currentEmotion : SmoothedEmotionState.t) : Z :=
  MathRound (SmoothedEmotionState.confidence currentEmotion * 100).

(** *** Notions used by the statements below *)

(** The labels that [processFaceExpressions] assigns. *)
Definition detectorLabels : list string :=
  ["happy"; "tired"; "stressed"; "focused"; "neutral"].

(** The labels reported by the channels that are present. *)
Definition reportedLabels (s : MultiModalEmotionState.t) : list string :=
  map fst (collectEmotions s).

(** A distribution whose seven scores are probabilities. *)
Definition validExpressions (e : Expressions.t) : Prop :=
  Forall (fun c => 0 <= snd c /\ snd c <= 1) (Expressions.entries e).

(** A detector call whose classifier output, if any, is a valid distribution. *)
Definition validDetectorOp (op : DetectorOp) : Prop :=
  match op with
  | DTick _ _ (Some e) => validExpressions e
  | _ => True
  end.

(** Firings of the detection timer, with what the classifier returned. *)
Definition tickOps (ticks : list (Z * Z * option Expressions.t)) : list DetectorOp :=
  map (fun t => DTick (fst (fst t)) (snd (fst t)) (snd t)) ticks.

(** The default answer of the smoother. *)
Definition neutralDefault (now : Z) : SmoothedEmotionState.t :=
  {| SmoothedEmotionState.emotion := "neutral";
     SmoothedEmotionState.confidence := 0.5;
     SmoothedEmotionState.history := [];
     SmoothedEmotionState.lastUpdate := now |}.


(** The label of the newest entry of the log, if there is one. *)
Definition newestLogged (s : MultiModalEmotionState.t) : option string :=
  option_map HistoryEntry.emotion (last (emotionHistory s)).

(** *** More sample values *)

Definition sampleSmoothed (label : string) : SmoothedEmotionState.t :=
  {| SmoothedEmotionState.emotion := label;
     SmoothedEmotionState.confidence := 0.8;
     SmoothedEmotionState.history := [];
     SmoothedEmotionState.lastUpdate := 1 |}.

Definition sampleVoice (label : string) : VoiceEmotionData.t :=
  {| VoiceEmotionData.emotion := label;
     VoiceEmotionData.confidence := 0.7;
     VoiceEmotionData.tone := "soft";
     VoiceEmotionData.timestamp := 2 |}.

Definition sampleText (label : string) : TextEmotionData.t :=
  {| TextEmotionData.emotion := label;
     TextEmotionData.confidence := 0.9;
     TextEmotionData.timestamp := 3 |}.

(** A state with the channels reporting [f], [v] and [x] after [duration]
    seconds. *)
Definition sampleFusion (f v x : string) (duration : Q) : MultiModalEmotionState.t :=
  {| facialEmotion := Some (sampleSmoothed f);
     voiceEmotion := Some (sampleVoice v);
     textEmotion := Some (sampleText x);
     sessionDuration := duration;
     mergedEmotion := "neutral";
     confidence := 0.5;
     lastUpdate := 3;
     emotionHistory := [] |}.

(** A running detector whose window holds one entry. *)
Definition runningDetector : Detector.t :=
  runDetector (DStart :: map frameTick (framesUpTo 1)) Detector.init.

(** The labels for which [getEmotionColorScheme] has a palette. *)
Definition schemeLabels : list string := map fst schemes.


(** The channel that an update writes, and the label it brings. *)
Definition channelOf (u : ChannelUpdate) : Source :=
  match u with
  | UFacial _ _ _ => facial
  | UVoice _ _ _ => voice
  | UText _ _ _ => text
  end.

Definition labelOf (u : ChannelUpdate) : string :=
  match u with
  | UFacial _ _ f => SmoothedEmotionState.emotion f
  | UVoice _ _ v => VoiceEmotionData.emotion v
  | UText _ _ x => TextEmotionData.emotion x
  end.

(** What a reader takes from a state: the merged label and its confidence. *)
Definition verdict (s : MultiModalEmotionState.t) : string * Q :=
  (mergedEmotion s, confidence s).

(** * Properties *)

(** ** Numbers and records *)

Lemma Qgtb_true (a b : Q) : Qgtb a b = true <-> b < a.
Proof.
  unfold Qgtb. rewrite negb_true_iff, <- not_true_iff_false, Qle_bool_iff.
  split; [apply Qnot_le_lt | apply Qlt_not_le].
Qed.

Lemma Qgtb_false (a b : Q) : Qgtb a b = false <-> a <= b.
Proof.
  unfold Qgtb. rewrite negb_false_iff. apply Qle_bool_iff.
Qed.

Lemma orZero_Some (v : Q) : orZero (Some v) == v.
Proof.
  unfold orZero. destruct (Qeq_bool v 0) eqn:E; [|reflexivity].
  apply Qeq_bool_iff in E. now rewrite E.
Qed.

Module JsRecordFacts.
Import JsRecord.

Lemma get_set_same k v o : get k (set k v o) = Some v.
Proof.
  induction o as [|[k' v'] o IH]; simpl.
  - now rewrite String.eqb_refl.
  - destruct (String.eqb k k') eqn:E; simpl; rewrite ?String.eqb_refl, ?E; auto.
Qed.

Lemma get_set_other k k' v o : k <> k' -> get k' (set k v o) = get k' o.
Proof.
  intros Hne. induction o as [|[k0 v0] o IH]; simpl.
  - destruct (String.eqb_spec k' k); congruence.
  - destruct (String.eqb_spec k k0) as [->|]; simpl.
    + destruct (String.eqb_spec k' k0); congruence.
    + now rewrite IH.
Qed.

Lemma get_None_keys k o : get k o = None <-> ~ In k (keys o).
Proof.
  induction o as [|[k' v'] o IH]; simpl; [tauto|].
  destruct (String.eqb_spec k k') as [->|Hne].
  - split; [discriminate | tauto].
  - rewrite IH. split; [intros H [?|?]; congruence || tauto | tauto].
Qed.

Lemma get_Some_In k v o : get k o = Some v -> In (k, v) o.
Proof.
  induction o as [|[k' v'] o IH]; simpl; [discriminate|].
  destruct (String.eqb_spec k k') as [->|Hne]; [intros [= ->]; auto | auto].
Qed.

Lemma In_get k v o : List.NoDup (keys o) -> In (k, v) o -> get k o = Some v.
Proof.
  induction o as [|[k' v'] o IH]; simpl; [tauto|].
  intros Hnd [[= -> ->]|Hin].
  - now rewrite String.eqb_refl.
  - apply NoDup_cons_iff in Hnd as [Hk Hnd].
    destruct (String.eqb_spec k k') as [->|Hne]; [|auto].
    exfalso. apply Hk. change k' with (fst (k', v)). now apply in_map.
Qed.

(** Writing a present key changes no key; a new key goes last. *)
Lemma keys_set k v o :
  keys (set k v o) =
  match get k o with Some _ => keys o | None => keys o ++ [k] end.
Proof.
  induction o as [|[k' v'] o IH]; simpl; [reflexivity|].
  destruct (String.eqb_spec k k') as [->|Hne]; simpl; [reflexivity|].
  rewrite IH. now destruct (get k o).
Qed.

Lemma NoDup_keys_set k v o : List.NoDup (keys o) -> List.NoDup (keys (set k v o)).
Proof.
  intros Hnd. rewrite keys_set. destruct (get k o) eqn:E; [assumption|].
  apply get_None_keys in E.
  apply List.NoDup_app; auto.
  - constructor; [simpl; tauto | constructor].
  - intros x Hx [<-|[]]. tauto.
Qed.

Lemma set_middle k v v' pre post :
  ~ In k (keys pre) ->
  set k v' (pre ++ (k, v) :: post) = pre ++ (k, v') :: post.
Proof.
  induction pre as [|[k0 v0] pre IH]; simpl; intros Hk.
  - now rewrite String.eqb_refl.
  - destruct (String.eqb_spec k k0) as [->|Hne]; [tauto|].
    rewrite IH; tauto.
Qed.

Lemma get_middle k v pre post :
  ~ In k (keys pre) -> get k (pre ++ (k, v) :: post) = Some v.
Proof.
  induction pre as [|[k0 v0] pre IH]; simpl; intros Hk.
  - now rewrite String.eqb_refl.
  - destruct (String.eqb_spec k k0) as [->|Hne]; [tauto|].
    apply IH; tauto.
Qed.

Lemma set_absent k v o : get k o = None -> set k v o = o ++ [(k, v)].
Proof.
  induction o as [|[k' v'] o IH]; simpl; [reflexivity|].
  destruct (String.eqb k k'); [discriminate|]. intros H. now rewrite IH.
Qed.
End JsRecordFacts.

(** ** The dominant-label scan *)

Lemma dominantStep_spec l : forall init, dominantOf init l (fold_left dominantStep l init).
Proof.
  induction l as [|[k v] l IH]; intros [d0 m0]; simpl.
  - now constructor.
  - destruct (Qgtb v m0) eqn:E.
    + apply Qgtb_true in E.
      destruct (IH (k, v)) as [Hall | l1 l2 d m -> Hlt H1 H2]; simpl in *.
      * now apply (dominant_entry _ _ [] l).
      * apply (dominant_entry _ _ ((k, v) :: l1) l2);
          [reflexivity | simpl; lra | | assumption].
        constructor; [simpl; lra | assumption].
    + apply Qgtb_false in E.
      destruct (IH (d0, m0)) as [Hall | l1 l2 d m -> Hlt H1 H2]; simpl in *.
      * constructor. constructor; [simpl; lra | assumption].
      * apply (dominant_entry _ _ ((k, v) :: l1) l2);
          [reflexivity | simpl; lra | | assumption].
        constructor; [simpl; lra | assumption].
Qed.

Lemma dominantOf_max init l r :
  dominantOf init l r -> snd init <= snd r /\ Forall (fun e => snd e <= snd r) l.
Proof.
  intros [Hall | l1 l2 d m -> Hlt H1 H2]; simpl.
  - split; [lra | assumption].
  - split; [lra|]. apply Forall_app. split.
    + eapply List.Forall_impl; [|exact H1]. simpl. intros; lra.
    + constructor; [simpl; lra | assumption].
Qed.

(** ** Frame lemmas of [recomputeMergedEmotion] *)

Lemma recompute_frame now s :
  facialEmotion (recomputeMergedEmotion now s) = facialEmotion s
  /\ voiceEmotion (recomputeMergedEmotion now s) = voiceEmotion s
  /\ textEmotion (recomputeMergedEmotion now s) = textEmotion s
  /\ sessionDuration (recomputeMergedEmotion now s) = sessionDuration s
  /\ lastUpdate (recomputeMergedEmotion now s) = lastUpdate s.
Proof.
  unfold recomputeMergedEmotion.
  destruct (length (collectEmotions s) =? 0)%nat; [now simpl|].
  destruct (fold_left dominantStep _ _) as [d m]. now simpl.
Qed.

(** ** C5: the defaults *)

(** C5.  Neither [getSmoothedEmotion] nor [recomputeMergedEmotion] can fail
    (both are total functions, and no branch raises).  On the empty window the
    smoother answers label "neutral" with confidence 0.5, and on a fusion
    state whose three channels are all [null] the recompute sets
    [mergedEmotion] to "neutral" and [confidence] to 0.5 (and touches nothing
    else). *)
Theorem defaults_on_empty_input :
  (forall now,
      getSmoothedEmotion now [] =
      {| SmoothedEmotionState.emotion := "neutral";
         SmoothedEmotionState.confidence := 0.5;
         SmoothedEmotionState.history := [];
         SmoothedEmotionState.lastUpdate := now |})
  /\ (forall now d, getCurrentEmotion now (clearHistory d) = getSmoothedEmotion now []
                    /\ getCurrentEmotion now (stopDetection d) = getSmoothedEmotion now []
                    /\ getCurrentEmotion now Detector.init = getSmoothedEmotion now [])
  /\ (forall now duration m c t h,
         recomputeMergedEmotion now
           {| facialEmotion := None; voiceEmotion := None; textEmotion := None;
              sessionDuration := duration; mergedEmotion := m; confidence := c;
              lastUpdate := t; emotionHistory := h |} =
         {| facialEmotion := None; voiceEmotion := None; textEmotion := None;
            sessionDuration := duration; mergedEmotion := "neutral";
            confidence := 0.5; lastUpdate := t; emotionHistory := h |}).
Proof.
  split; [|split].
  - reflexivity.
  - intros now d. repeat split.
  - reflexivity.
Qed.

(** ** C8: reset *)

(** C8.  [reset()] assigns to [currentState] the object literal of the field
    initializer: the three channels [null], [sessionDuration] 0,
    [mergedEmotion] "neutral", [confidence] 0.5 and an empty history, whatever
    the state was before.  The state after [reset()] is the state of a newly
    created engine ([lastUpdate] is the clock reading [Date.now()] in both). *)
Theorem reset_restores_initial_state now s :
  reset now s = initialState now
  /\ facialEmotion (reset now s) = None
  /\ voiceEmotion (reset now s) = None
  /\ textEmotion (reset now s) = None
  /\ sessionDuration (reset now s) = 0
  /\ mergedEmotion (reset now s) = "neutral"
  /\ confidence (reset now s) = 0.5
  /\ emotionHistory (reset now s) = [].
Proof. repeat split. Qed.

(** ** C10: what [updateSessionDuration] leaves alone *)

(** C10.  [updateSessionDuration] never changes [lastUpdate], whereas each
    of the three channel updates stamps it with the clock.  When no channel is
    present, the early return of the recompute skips the history append:
    [updateSessionDuration] then changes [sessionDuration], [mergedEmotion]
    and [confidence] only. *)
Theorem updateSessionDuration_frame now seconds s :
  lastUpdate (updateSessionDuration now seconds s) = lastUpdate s
  /\ (forall now' f, lastUpdate (updateFacialEmotion now now' f s) = now)
  /\ (forall now' v, lastUpdate (updateVoiceEmotion now now' v s) = now)
  /\ (forall now' x, lastUpdate (updateTextEmotion now now' x s) = now)
  /\ (forall duration m c t h,
         updateSessionDuration now seconds
           {| facialEmotion := None; voiceEmotion := None; textEmotion := None;
              sessionDuration := duration; mergedEmotion := m; confidence := c;
              lastUpdate := t; emotionHistory := h |} =
         {| facialEmotion := None; voiceEmotion := None; textEmotion := None;
            sessionDuration := seconds; mergedEmotion := "neutral";
            confidence := 0.5; lastUpdate := t; emotionHistory := h |}).
Proof.
  unfold updateSessionDuration, updateFacialEmotion, updateVoiceEmotion,
    updateTextEmotion.
  repeat split; intros;
    try (match goal with
         | |- lastUpdate (recomputeMergedEmotion ?n ?st) = _ =>
             destruct (recompute_frame n st) as (_ & _ & _ & _ & ->)
         end; reflexivity).
Qed.

(** ** C9: response guidelines *)

Lemma getResponseGuidelines_row s :
  rowOf (getResponseGuidelines s) = guidelineRow (mergedEmotion s).
Proof.
  unfold getResponseGuidelines, guidelineRow, guidelineRows, find, existsb, fst, snd.
  generalize (mergedEmotion s). intros e.
  repeat (match goal with
          | |- context [String.eqb e ?l] => destruct (String.eqb e l)
          end; simpl; try reflexivity).
Qed.

(** C9.  [getResponseGuidelines] reads [mergedEmotion] and nothing else:
    two states with the same [mergedEmotion] (whatever their confidence,
    channels, duration or history) get the same guidelines, so two calls with
    no state change in between return the same output; and the output
    follows the dispatch table, with every label that is on no row getting
    professional / normal / comprehensive / no break / no encouragement. *)
Theorem getResponseGuidelines_table s :
  (forall s', mergedEmotion s' = mergedEmotion s ->
              getResponseGuidelines s' = getResponseGuidelines s)
  /\ rowOf (getResponseGuidelines s) = guidelineRow (mergedEmotion s)
  /\ (~ In (mergedEmotion s)
        ["happy"; "focused"; "stressed"; "anxious"; "tired"; "sad"; "confused"] ->
      rowOf (getResponseGuidelines s)
      = (professional, normal, comprehensive, false, false)).
Proof.
  split; [|split].
  - intros s' H. unfold getResponseGuidelines. now rewrite H.
  - apply getResponseGuidelines_row.
  - intros Hnot. unfold getResponseGuidelines.
    repeat (match goal with
            | |- context [String.eqb (mergedEmotion s) ?l] =>
                destruct (String.eqb_spec (mergedEmotion s) l) as [E|E];
                [exfalso; apply Hnot; rewrite E; simpl; tauto | clear E]
            end).
    reflexivity.
Qed.

Lemma getResponseGuidelines_table_witness :
  getResponseGuidelines
    {| facialEmotion := None; voiceEmotion := None; textEmotion := None;
       sessionDuration := 3000; mergedEmotion := "happy"; confidence := 0.25;
       lastUpdate := 0; emotionHistory := [] |}
  = getResponseGuidelines happyState
  /\ rowOf (getResponseGuidelines (initialState 0))
     = (professional, normal, comprehensive, false, false).
Proof.
  split.
  - apply (proj1 (getResponseGuidelines_table happyState)). reflexivity.
  - apply (proj2 (proj2 (getResponseGuidelines_table (initialState 0)))).
    simpl. intros H. repeat (destruct H as [H|H]; [discriminate H|]). exact H.
Defined.

(** ** C6: from the raw distribution to a label *)

Lemma mapEmotion_table raw : mapEmotion raw = rawToCanonical raw.
Proof.
  unfold mapEmotion, rawToCanonical, canonicalTable, find, fst, snd.
  destruct (String.eqb_spec raw "happy") as [->|]; [reflexivity|].
  repeat (match goal with
          | |- context [String.eqb raw ?l] => destruct (String.eqb raw l)
          end; try reflexivity).
Qed.

(** C6.  For every raw distribution, [processFaceExpressions] selects among
    the seven raw categories (neutral, happy, sad, angry, fearful, disgusted,
    surprised, iterated in this order) one of maximal probability: it is
    "neutral", with the neutral score, when none of the seven strictly
    exceeds the neutral score, and otherwise the first of the seven, in
    iteration order, that carries the greatest probability.  The entry it
    returns has the winner translated by the fixed lookup (sad to tired,
    angry and fearful to stressed, surprised to focused, happy to happy,
    anything else to neutral) as its label and the winning probability as
    its confidence. *)
Theorem processFaceExpressions_selects_and_maps now e :
  let categories :=
    [ ("neutral", Expressions.neutral e); ("happy", Expressions.happy e);
      ("sad", Expressions.sad e); ("angry", Expressions.angry e);
      ("fearful", Expressions.fearful e); ("disgusted", Expressions.disgusted e);
      ("surprised", Expressions.surprised e) ] in
  let raw := fst (dominantExpression e) in
  let p := snd (dominantExpression e) in
  In (raw, p) categories
  /\ Forall (fun c => snd c <= p) categories
  /\ ( (raw = "neutral" /\ p = Expressions.neutral e
        /\ Forall (fun c => snd c <= Expressions.neutral e) categories)
       \/ (Expressions.neutral e < p
           /\ exists l1 l2,
               categories = l1 ++ (raw, p) :: l2
               /\ Forall (fun c => snd c < p) l1) )
  /\ processFaceExpressions now e =
     {| FacialEmotionData.emotion := rawToCanonical raw;
        FacialEmotionData.confidence := p;
        FacialEmotionData.expressions := e;
        FacialEmotionData.timestamp := now |}.
Proof.
  intros categories raw p.
  assert (Hscan : dominantExpression e
                  = fold_left dominantStep categories
                              ("neutral", Expressions.neutral e)) by reflexivity.
  pose proof (dominantStep_spec categories ("neutral", Expressions.neutral e)) as Hd.
  rewrite <- Hscan in Hd.
  pose proof (dominantOf_max _ _ _ Hd) as [_ Hmax].
  assert (Hrp : dominantExpression e = (raw, p))
    by (subst raw p; now destruct (dominantExpression e)).
  rewrite Hrp in Hd, Hmax. cbn [snd] in Hmax.
  repeat split.
  - inversion Hd as [Hall | l1 l2 d m Hl Hlt H1 H2]; subst.
    + left. reflexivity.
    + rewrite Hl. apply in_app_iff. right. now left.
  - exact Hmax.
  - inversion Hd as [Hall | l1 l2 d m Hl Hlt H1 H2].
    + left. cbn [snd] in Hall. auto.
    + right. cbn [snd] in Hlt. split; [exact Hlt|]. now exists l1, l2.
  - unfold processFaceExpressions. rewrite Hrp. now rewrite mapEmotion_table.
Qed.

(** ** C7: the two bounded buffers *)

Lemma pushBounded_length {A} n (x : A) l :
  (length l <= n)%nat -> (length (pushBounded n x l) <= n)%nat.
Proof.
  intros H. unfold pushBounded.
  destruct (Nat.ltb_spec n (length (l ++ [x]))) as [Hlt|Hge]; [|exact Hge].
  rewrite length_app in Hlt. simpl in Hlt.
  destruct l; simpl in *; [lia|]. rewrite length_app. simpl. lia.
Qed.

(** Pushing onto a full buffer drops the oldest element. *)
Lemma pushBounded_full {A} n (x : A) l :
  length l = n -> pushBounded n x l = tl (l ++ [x]).
Proof.
  intros H. unfold pushBounded. rewrite length_app. simpl.
  destruct (Nat.ltb_spec n (length l + 1)); [reflexivity | lia].
Qed.

Lemma pushBounded_room {A} n (x : A) l :
  (length l < n)%nat -> pushBounded n x l = l ++ [x].
Proof.
  intros H. unfold pushBounded. rewrite length_app. simpl.
  destruct (Nat.ltb_spec n (length l + 1)); [lia | reflexivity].
Qed.

Lemma lastN_length {A} n (l : list A) : length (lastN n l) = Nat.min n (length l).
Proof. unfold lastN. rewrite length_skipn. lia. Qed.

Lemma tl_skipn_snoc {A} (x : A) l : forall k,
  (k <= length l)%nat -> tl (skipn k l ++ [x]) = skipn (S k) (l ++ [x]).
Proof.
  induction l as [|a l IH]; intros [|k] Hk; simpl in *; try reflexivity; try lia.
  apply IH. lia.
Qed.

Lemma pushBounded_lastN {A} n (x : A) l :
  pushBounded n x (lastN n l) = lastN n (l ++ [x]).
Proof.
  destruct (Nat.lt_ge_cases (length l) n) as [Hlt|Hge].
  - rewrite pushBounded_room by (rewrite lastN_length; lia).
    unfold lastN. rewrite length_app. simpl.
    replace (length l - n)%nat with 0%nat by lia.
    replace (length l + 1 - n)%nat with 0%nat by lia. reflexivity.
  - rewrite pushBounded_full by (rewrite lastN_length; lia).
    unfold lastN. rewrite length_app. simpl.
    replace (length l + 1 - n)%nat with (S (length l - n)) by lia.
    apply tl_skipn_snoc. lia.
Qed.

Lemma fold_pushBounded {A} n (es : list A) :
  fold_left (fun w e => pushBounded n e w) es [] = lastN n es.
Proof.
  induction es as [|e es IH] using rev_ind; [reflexivity|].
  rewrite fold_left_app. simpl. rewrite IH. apply pushBounded_lastN.
Qed.

Lemma recompute_history now s :
  emotionHistory (recomputeMergedEmotion now s) =
  if (length (collectEmotions s) =? 0)%nat then emotionHistory s
  else pushBounded emotionHistoryLimit
         {| HistoryEntry.emotion := mergedEmotion (recomputeMergedEmotion now s);
            HistoryEntry.source := merged;
            HistoryEntry.timestamp := now |}
         (emotionHistory s).
Proof.
  unfold recomputeMergedEmotion.
  destruct (length (collectEmotions s) =? 0)%nat; [reflexivity|].
  destruct (fold_left dominantStep _ _) as [d m]. reflexivity.
Qed.

(** A channel update always logs its merge: the channel it has just set is
    present. *)
Lemma channelStep_history s u :
  emotionHistory (channelStep s u) =
  pushBounded emotionHistoryLimit
    {| HistoryEntry.emotion := mergedEmotion (channelStep s u);
       HistoryEntry.source := merged;
       HistoryEntry.timestamp := logTime u |}
    (emotionHistory s).
Proof.
  destruct u as [now now' f | now now' v | now now' x]; simpl;
    unfold updateFacialEmotion, updateVoiceEmotion, updateTextEmotion;
    rewrite recompute_history; unfold collectEmotions; simpl;
    destruct (facialEmotion s), (voiceEmotion s), (textEmotion s); reflexivity.
Qed.

Lemma engineStep_bound s op :
  (length (emotionHistory s) <= emotionHistoryLimit)%nat ->
  (length (emotionHistory (engineStep s op)) <= emotionHistoryLimit)%nat.
Proof.
  intros H. destruct op as [u | now seconds | now]; simpl.
  - rewrite channelStep_history. now apply pushBounded_length.
  - unfold updateSessionDuration. rewrite recompute_history.
    destruct (length _ =? 0)%nat; simpl; [exact H | now apply pushBounded_length].
  - unfold emotionHistoryLimit. lia.
Qed.

Lemma runEngine_bound ops : forall s,
  (length (emotionHistory s) <= emotionHistoryLimit)%nat ->
  (length (emotionHistory (runEngine ops s)) <= emotionHistoryLimit)%nat.
Proof.
  induction ops as [|op ops IH]; intros s H; simpl; [exact H|].
  apply IH. now apply engineStep_bound.
Qed.

Lemma detectorStep_bound d op :
  (length (Detector.emotionHistory d) <= maxHistorySize)%nat ->
  (length (Detector.emotionHistory (detectorStep d op)) <= maxHistorySize)%nat.
Proof.
  intros H. destruct op as [| now now' [e|] | |]; simpl;
    try exact H; try (unfold maxHistorySize; lia);
    unfold detectionTick; destruct (Detector.isRunning d); simpl; try exact H.
  now apply pushBounded_length.
Qed.

Lemma runDetector_bound ops : forall d,
  (length (Detector.emotionHistory d) <= maxHistorySize)%nat ->
  (length (Detector.emotionHistory (runDetector ops d)) <= maxHistorySize)%nat.
Proof.
  induction ops as [|op ops IH]; intros d H; simpl; [exact H|].
  apply IH. now apply detectorStep_bound.
Qed.

Lemma runDetector_frames frames : forall d,
  Detector.isRunning d = true ->
  Detector.emotionHistory (runDetector (map frameTick frames) d) =
  fold_left (fun w e => pushBounded maxHistorySize e w) (map frameEntry frames)
            (Detector.emotionHistory d).
Proof.
  induction frames as [|[[now now'] e] frames IH]; intros d Hrun; simpl;
    [reflexivity|].
  unfold detectionTick. rewrite Hrun. simpl. now rewrite IH.
Qed.

Lemma runEngine_updates us : forall s,
  emotionHistory (runEngine (map OUpdate us) s) =
  fold_left (fun w e => pushBounded emotionHistoryLimit e w) (mergeLog us s)
            (emotionHistory s).
Proof.
  induction us as [|u us IH]; intros s; simpl; [reflexivity|].
  rewrite IH. now rewrite channelStep_history.
Qed.

(** C7.  After every sequence of operations on a new detector the window
    holds at most 10 entries, and after every sequence of operations on a new
    fusion engine the history holds at most 50 entries.  Both buffers drop
    their oldest entry first: after any number of classified frames the
    window is the last 10 of the entries made from them, and after any number
    of channel updates the history is the last 50 of the merge results.  In
    particular, of 11 frames stamped 1 to 11 the window keeps those stamped 2
    to 11, and of 51 merges stamped 1 to 51 the history keeps those stamped 2
    to 51. *)
Theorem buffers_bounded_fifo :
  (forall ops,
      (length (Detector.emotionHistory (runDetector ops Detector.init)) <= 10)%nat)
  /\ (forall ops now,
      (length (emotionHistory (runEngine ops (initialState now))) <= 50)%nat)
  /\ (forall frames,
      Detector.emotionHistory
        (runDetector (map frameTick frames) (startDetection Detector.init))
      = lastN 10 (map frameEntry frames))
  /\ (forall us now,
      emotionHistory (runEngine (map OUpdate us) (initialState now))
      = lastN 50 (mergeLog us (initialState now)))
  /\ map FacialEmotionData.timestamp
       (Detector.emotionHistory
          (runDetector (map frameTick (framesUpTo 11)) (startDetection Detector.init)))
     = map Z.of_nat (seq 2 10)
  /\ map HistoryEntry.timestamp
       (emotionHistory (runEngine (map OUpdate (textUpTo 51)) (initialState 0)))
     = map Z.of_nat (seq 2 50).
Proof.
  repeat apply conj.
  - intros ops. apply (runDetector_bound ops Detector.init). simpl. lia.
  - intros ops now. apply (runEngine_bound ops (initialState now)). simpl. lia.
  - intros frames. rewrite runDetector_frames by reflexivity. apply fold_pushBounded.
  - intros us now. rewrite runEngine_updates. apply fold_pushBounded.
  - vm_compute. reflexivity.
  - vm_compute. reflexivity.
Qed.

(** ** C2: one channel *)

(** The merge of a single reading: the label wins with a total of at least 1. *)
Lemma single_channel_merge (label : string) (w duration : Q) :
  In w [EMOTION_WEIGHTS.facial; EMOTION_WEIGHTS.voice; EMOTION_WEIGHTS.text] ->
  exists total,
    fold_left dominantStep
      (JsRecord.entries (scoreEmotions [(label, w)] duration)) ("neutral", 0)
    = (label, total)
    /\ Qmin total 1 == 1.
Proof.
  intros Hw.
  unfold scoreEmotions, applySessionDuration, JsRecord.entries.
  destruct (Qgtb duration (45 * 60)), (Qgtb duration (90 * 60));
    destruct Hw as [<-|[<-|[<-|[]]]];
    (destruct (String.eqb_spec "tired" label) as [<-|Hne];
     [ vm_compute; eexists; split; reflexivity
     | apply String.eqb_neq in Hne;
       unfold addTo, normalizeStep;
       repeat (cbn -[String.eqb]; rewrite ?String.eqb_refl, ?Hne);
       eexists; split; [reflexivity | vm_compute; reflexivity] ]).
Qed.

(** C2.  For every fusion state in which exactly one channel is present, and
    for every session duration, the recompute sets [mergedEmotion] to the
    label of that channel and [confidence] to 1. *)
Theorem single_channel_fusion now duration m c t h :
  (forall f,
      let s' := recomputeMergedEmotion now
                  {| facialEmotion := Some f; voiceEmotion := None;
                     textEmotion := None; sessionDuration := duration;
                     mergedEmotion := m; confidence := c; lastUpdate := t;
                     emotionHistory := h |} in
      mergedEmotion s' = SmoothedEmotionState.emotion f /\ confidence s' == 1)
  /\ (forall v,
      let s' := recomputeMergedEmotion now
                  {| facialEmotion := None; voiceEmotion := Some v;
                     textEmotion := None; sessionDuration := duration;
                     mergedEmotion := m; confidence := c; lastUpdate := t;
                     emotionHistory := h |} in
      mergedEmotion s' = VoiceEmotionData.emotion v /\ confidence s' == 1)
  /\ (forall x,
      let s' := recomputeMergedEmotion now
                  {| facialEmotion := None; voiceEmotion := None;
                     textEmotion := Some x; sessionDuration := duration;
                     mergedEmotion := m; confidence := c; lastUpdate := t;
                     emotionHistory := h |} in
      mergedEmotion s' = TextEmotionData.emotion x /\ confidence s' == 1).
Proof.
  repeat apply conj; intros r s'; subst s'; unfold recomputeMergedEmotion;
    cbn [collectEmotions facialEmotion voiceEmotion textEmotion sessionDuration
         app length Nat.eqb];
    match goal with
    | |- context [scoreEmotions [(?l, ?w)] ?d] =>
        destruct (single_channel_merge l w d) as (total & -> & Hmin);
        [simpl; tauto | simpl; split; [reflexivity | exact Hmin]]
    end.
Qed.

(** ** C3: the weighted vote *)

Lemma orZero_num x : orZero x == num x.
Proof. destruct x as [v|]; [apply orZero_Some | reflexivity]. Qed.

Lemma num_get_set k e v o :
  num (JsRecord.get k (JsRecord.set e v o)) =
  if String.eqb k e then v else num (JsRecord.get k o).
Proof.
  destruct (String.eqb_spec k e) as [->|Hne].
  - now rewrite JsRecordFacts.get_set_same.
  - rewrite JsRecordFacts.get_set_other; [reflexivity | congruence].
Qed.

Lemma existsb_eqb_In k ks : existsb (String.eqb k) ks = true <-> In k ks.
Proof.
  rewrite existsb_exists. split.
  - intros (x & Hx & E). apply String.eqb_eq in E. now subst.
  - intros H. exists k. split; [exact H | apply String.eqb_refl].
Qed.

Lemma keys_set_addKey k v o :
  JsRecord.keys (JsRecord.set k v o) = addKey k (JsRecord.keys o).
Proof.
  rewrite JsRecordFacts.keys_set. unfold addKey.
  destruct (JsRecord.get k o) eqn:E.
  - assert (In k (JsRecord.keys o)) as Hin.
    { destruct (in_dec string_dec k (JsRecord.keys o)) as [H|H]; [exact H|].
      apply JsRecordFacts.get_None_keys in H. congruence. }
    apply existsb_eqb_In in Hin. now rewrite Hin.
  - apply JsRecordFacts.get_None_keys in E.
    destruct (existsb (String.eqb k) (JsRecord.keys o)) eqn:E'; [|reflexivity].
    apply existsb_eqb_In in E'. tauto.
Qed.

Lemma addKey_present k ks : In k ks -> addKey k ks = ks.
Proof. intros H. unfold addKey. apply existsb_eqb_In in H. now rewrite H. Qed.

(** *** The accumulation loop *)

Lemma scoreFold_value emotions : forall acc tw k,
  num (JsRecord.get k (fst (fold_left scoreStep emotions (acc, tw))))
  == num (JsRecord.get k acc) + labelWeight k emotions.
Proof.
  induction emotions as [|[l w] rest IH]; intros acc tw k; simpl.
  - lra.
  - rewrite IH, num_get_set.
    destruct (String.eqb_spec k l) as [->|_]; [rewrite orZero_num|]; lra.
Qed.

Lemma scoreFold_weight emotions : forall acc tw,
  snd (fold_left scoreStep emotions (acc, tw)) == tw + presentWeight emotions.
Proof.
  induction emotions as [|[l w] rest IH]; intros acc tw; simpl.
  - lra.
  - rewrite IH. lra.
Qed.

Lemma scoreFold_keys emotions : forall acc tw,
  JsRecord.keys (fst (fold_left scoreStep emotions (acc, tw)))
  = JsRecord.keys acc ++ firstOccurrencesFrom (JsRecord.keys acc) (map fst emotions).
Proof.
  induction emotions as [|[l w] rest IH]; intros acc tw; simpl.
  - now rewrite app_nil_r.
  - rewrite IH, keys_set_addKey. unfold addKey.
    destruct (existsb (String.eqb l) (JsRecord.keys acc)); [reflexivity|].
    now rewrite <- app_assoc.
Qed.

Lemma scoreFold_NoDup emotions : forall acc tw,
  List.NoDup (JsRecord.keys acc) ->
  List.NoDup (JsRecord.keys (fst (fold_left scoreStep emotions (acc, tw)))).
Proof.
  induction emotions as [|[l w] rest IH]; intros acc tw H; simpl; [exact H|].
  apply IH. now apply JsRecordFacts.NoDup_keys_set.
Qed.

(** *** The normalization loop *)

Lemma normalize_fold tw post : forall pre,
  List.NoDup (JsRecord.keys (pre ++ post)) ->
  fold_left (normalizeStep tw) (JsRecord.keys post) (pre ++ post)
  = pre ++ map (fun e => (fst e, snd e / tw)) post.
Proof.
  induction post as [|[k v] post IH]; intros pre Hnd; simpl; [reflexivity|].
  assert (~ In k (JsRecord.keys pre)) as Hk.
  { unfold JsRecord.keys in Hnd. rewrite map_app in Hnd. simpl in Hnd.
    apply NoDup_remove_2 in Hnd. rewrite in_app_iff in Hnd. tauto. }
  unfold normalizeStep at 2.
  rewrite JsRecordFacts.get_middle, JsRecordFacts.set_middle by assumption.
  simpl.
  replace (pre ++ (k, v / tw) :: post) with ((pre ++ [(k, v / tw)]) ++ post)
    by now rewrite <- app_assoc.
  rewrite IH.
  - now rewrite <- app_assoc.
  - rewrite <- app_assoc. simpl.
    unfold JsRecord.keys in *. rewrite map_app in *. exact Hnd.
Qed.

Lemma normalize_all tw o :
  List.NoDup (JsRecord.keys o) ->
  fold_left (normalizeStep tw) (JsRecord.keys o) o
  = map (fun e => (fst e, snd e / tw)) o.
Proof. intros H. apply (normalize_fold tw o []). exact H. Qed.

Lemma get_map_div tw k o :
  JsRecord.get k (map (fun e => (fst e, snd e / tw)) o)
  = option_map (fun v => v / tw) (JsRecord.get k o).
Proof.
  induction o as [|[k' v'] o IH]; simpl; [reflexivity|].
  now destruct (String.eqb k k').
Qed.

Lemma keys_map_div tw o :
  JsRecord.keys (map (fun e => (fst e, snd e / tw)) o) = JsRecord.keys o.
Proof. unfold JsRecord.keys. rewrite map_map. reflexivity. Qed.

(** *** The session-duration heuristics *)

Lemma applySessionDuration_value duration o k :
  num (JsRecord.get k (applySessionDuration duration o))
  == num (JsRecord.get k o)
     + (if String.eqb k "tired" then fatigueBias duration else 0).
Proof.
  unfold applySessionDuration, fatigueBias, addTo.
  change (Qgtb duration (45 * 60)) with (Qgtb duration 2700).
  change (Qgtb duration (90 * 60)) with (Qgtb duration 5400).
  destruct (Qgtb duration 2700), (Qgtb duration 5400);
    rewrite ?num_get_set;
    (destruct (String.eqb_spec k "tired") as [->|_];
     [rewrite ?num_get_set; simpl String.eqb; cbv iota; rewrite ?num_get_set;
      simpl String.eqb; cbv iota; rewrite orZero_num; lra
     | lra]).
Qed.

Lemma addKey_In k ks : In k (addKey k ks).
Proof.
  unfold addKey. destruct (existsb (String.eqb k) ks) eqn:E.
  - now apply existsb_eqb_In.
  - apply in_app_iff. right. now left.
Qed.

Lemma keys_addTo k x o :
  In k (JsRecord.keys o) -> JsRecord.keys (addTo k x o) = JsRecord.keys o.
Proof. intros H. unfold addTo. rewrite keys_set_addKey. now apply addKey_present. Qed.

Lemma applySessionDuration_keys duration o :
  JsRecord.keys (applySessionDuration duration o) = addKey "tired" (JsRecord.keys o).
Proof.
  unfold applySessionDuration.
  assert (In "tired" (JsRecord.keys
            (JsRecord.set "tired" (orZero (JsRecord.get "tired" o)) o))) as H0
    by (rewrite keys_set_addKey; apply addKey_In).
  destruct (Qgtb duration (45 * 60)), (Qgtb duration (90 * 60));
    rewrite ?keys_addTo; rewrite ?keys_addTo; try apply keys_set_addKey;
    try exact H0.
Qed.

Lemma addKey_NoDup k ks : List.NoDup ks -> List.NoDup (addKey k ks).
Proof.
  intros H. unfold addKey. destruct (existsb (String.eqb k) ks) eqn:E; [exact H|].
  apply List.NoDup_app; auto.
  - constructor; [simpl; tauto | constructor].
  - intros x Hx [<-|[]]. apply existsb_eqb_In in Hx. congruence.
Qed.

Lemma firstOccurrencesFrom_snoc x ls : forall seen,
  seen ++ firstOccurrencesFrom seen (ls ++ [x])
  = addKey x (seen ++ firstOccurrencesFrom seen ls).
Proof.
  induction ls as [|l rest IH]; intros seen; simpl.
  - unfold addKey. rewrite app_nil_r.
    destruct (existsb (String.eqb x) seen); [apply app_nil_r | reflexivity].
  - destruct (existsb (String.eqb l) seen); [apply IH|].
    replace (seen ++ l :: firstOccurrencesFrom (seen ++ [l]) (rest ++ [x]))
      with ((seen ++ [l]) ++ firstOccurrencesFrom (seen ++ [l]) (rest ++ [x]))
      by now rewrite <- app_assoc.
    rewrite IH. now rewrite <- app_assoc.
Qed.

(** *** The table of totals *)

Lemma scoreEmotions_keys emotions duration :
  JsRecord.keys (scoreEmotions emotions duration)
  = firstOccurrences (map fst emotions ++ ["tired"]).
Proof.
  unfold scoreEmotions.
  pose proof (scoreFold_keys emotions JsRecord.empty 0) as Hk.
  pose proof (scoreFold_NoDup emotions JsRecord.empty 0 (List.NoDup_nil _)) as Hnd.
  destruct (fold_left scoreStep emotions (JsRecord.empty, 0)) as [sc tw].
  simpl in Hk, Hnd.
  rewrite applySessionDuration_keys, normalize_all, keys_map_div, Hk by exact Hnd.
  symmetry. apply (firstOccurrencesFrom_snoc "tired" (map fst emotions) []).
Qed.

Lemma scoreEmotions_NoDup emotions duration :
  List.NoDup (JsRecord.keys (scoreEmotions emotions duration)).
Proof.
  unfold scoreEmotions.
  pose proof (scoreFold_NoDup emotions JsRecord.empty 0 (List.NoDup_nil _)) as Hnd.
  destruct (fold_left scoreStep emotions (JsRecord.empty, 0)) as [sc tw].
  simpl in Hnd.
  rewrite applySessionDuration_keys, normalize_all, keys_map_div by exact Hnd.
  now apply addKey_NoDup.
Qed.

Lemma num_option_map_div tw x : num (option_map (fun v => v / tw) x) == num x / tw.
Proof. destruct x; simpl; [reflexivity|]. unfold Qdiv. ring. Qed.

Lemma scoreEmotions_value emotions duration k :
  num (JsRecord.get k (scoreEmotions emotions duration))
  == expectedTotal emotions duration k.
Proof.
  unfold scoreEmotions, expectedTotal.
  pose proof (scoreFold_value emotions JsRecord.empty 0 k) as Hv.
  pose proof (scoreFold_weight emotions JsRecord.empty 0) as Hw.
  pose proof (scoreFold_NoDup emotions JsRecord.empty 0 (List.NoDup_nil _)) as Hnd.
  destruct (fold_left scoreStep emotions (JsRecord.empty, 0)) as [sc tw].
  simpl in Hv, Hw, Hnd.
  rewrite applySessionDuration_value, normalize_all, get_map_div,
    num_option_map_div, Hv, Hw by exact Hnd.
  rewrite !Qplus_0_l. reflexivity.
Qed.

Lemma scoreEmotions_entries emotions duration :
  Forall (fun e => snd e == expectedTotal emotions duration (fst e))
         (scoreEmotions emotions duration).
Proof.
  apply List.Forall_forall. intros [k v] Hin. simpl.
  apply JsRecordFacts.In_get in Hin; [|apply scoreEmotions_NoDup].
  rewrite <- scoreEmotions_value, Hin. reflexivity.
Qed.

(** *** Some label always has a positive total *)

Lemma collectEmotions_positive s : Forall (fun e => 0 < snd e) (collectEmotions s).
Proof.
  unfold collectEmotions.
  destruct (facialEmotion s), (voiceEmotion s), (textEmotion s); simpl;
    repeat constructor.
Qed.

Lemma labelWeight_nonneg k emotions :
  Forall (fun e => 0 < snd e) emotions -> 0 <= labelWeight k emotions.
Proof.
  induction 1 as [|[l w] rest Hw _ IH]; simpl in *; [lra|].
  destruct (String.eqb k l); lra.
Qed.

Lemma presentWeight_nonneg emotions :
  Forall (fun e => 0 < snd e) emotions -> 0 <= presentWeight emotions.
Proof. induction 1 as [|[l w] rest Hw _ IH]; simpl in *; lra. Qed.

Lemma fatigueBias_nonneg duration : 0 <= fatigueBias duration.
Proof.
  unfold fatigueBias.
  destruct (Qgtb duration 2700), (Qgtb duration 5400); vm_compute; discriminate.
Qed.

Lemma expectedTotal_head_positive l w rest duration :
  Forall (fun e => 0 < snd e) ((l, w) :: rest) ->
  0 < expectedTotal ((l, w) :: rest) duration l.
Proof.
  intros H. inversion H as [|? ? Hw Hrest]; subst. simpl in Hw.
  pose proof (labelWeight_nonneg l rest Hrest) as H1.
  pose proof (presentWeight_nonneg rest Hrest) as H2.
  pose proof (fatigueBias_nonneg duration) as H3.
  unfold expectedTotal. simpl. rewrite String.eqb_refl.
  assert (0 < (w + labelWeight l rest) / (w + presentWeight rest)) as Hq.
  { apply Qlt_shift_div_l; lra. }
  destruct (String.eqb l "tired"); lra.
Qed.

(** The scan of a table of totals finds an entry when a channel is present. *)
Lemma dominant_of_scores emotions duration :
  emotions <> [] ->
  Forall (fun e => 0 < snd e) emotions ->
  exists before winner total after,
    fold_left dominantStep (JsRecord.entries (scoreEmotions emotions duration))
              ("neutral", 0) = (winner, total)
    /\ JsRecord.entries (scoreEmotions emotions duration)
       = before ++ (winner, total) :: after
    /\ Forall (fun e => snd e < total) before
    /\ Forall (fun e => snd e <= total) after.
Proof.
  intros Hne Hpos.
  pose proof (dominantStep_spec (JsRecord.entries (scoreEmotions emotions duration))
                ("neutral", 0)) as Hd.
  destruct (fold_left dominantStep _ _) as [winner total].
  inversion Hd as [Hall | l1 l2 d m Hl Hlt H1 H2]; subst.
  - exfalso. destruct emotions as [|[l w] rest]; [congruence|].
    pose proof (expectedTotal_head_positive l w rest duration Hpos) as Hp.
    rewrite <- scoreEmotions_value in Hp.
    destruct (JsRecord.get l (scoreEmotions ((l, w) :: rest) duration)) as [v|] eqn:E;
      simpl in Hp; [|lra].
    apply JsRecordFacts.get_Some_In in E.
    rewrite List.Forall_forall in Hall. apply Hall in E. simpl in E. lra.
  - exists l1, winner, total, l2. auto.
Qed.

(** *** From the array of votes to the three channels *)

Lemma collectEmotions_labels s :
  map fst (collectEmotions s)
  = option_list (facialLabel s) ++ option_list (voiceLabel s)
    ++ option_list (textLabel s).
Proof.
  unfold collectEmotions, facialLabel, voiceLabel, textLabel.
  destruct (facialEmotion s), (voiceEmotion s), (textEmotion s); reflexivity.
Qed.

Lemma collectEmotions_order s :
  firstOccurrences (map fst (collectEmotions s) ++ ["tired"])
  = voteOrder (facialLabel s) (voiceLabel s) (textLabel s).
Proof.
  unfold voteOrder. now rewrite collectEmotions_labels, <- !app_assoc.
Qed.

Lemma collectEmotions_total s duration label :
  expectedTotal (collectEmotions s) duration label
  == voteTotal (facialLabel s) (voiceLabel s) (textLabel s) duration label.
Proof.
  unfold expectedTotal, voteTotal, fatigueBias, collectEmotions,
    facialLabel, voiceLabel, textLabel.
  apply Qplus_comp; [|reflexivity].
  destruct (facialEmotion s), (voiceEmotion s), (textEmotion s);
    cbn [app labelWeight presentWeight option_map channelVote channelPresent];
    unfold EMOTION_WEIGHTS.facial, EMOTION_WEIGHTS.voice, EMOTION_WEIGHTS.text;
    apply Qdiv_comp; ring.
Qed.

Lemma collectEmotions_present s :
  facialEmotion s <> None \/ voiceEmotion s <> None \/ textEmotion s <> None ->
  collectEmotions s <> [].
Proof.
  unfold collectEmotions.
  destruct (facialEmotion s), (voiceEmotion s), (textEmotion s);
    try discriminate.
  intros [H|[H|H]]; congruence.
Qed.

(** C3.  In the recompute with at least one channel present, the table of
    totals holds, for each label reported by a present channel and for
    "tired" (created at 0 when no channel reports it), the sum of the weights
    (facial 0.5, voice 0.3, text 0.2) of the channels that report the label
    divided by the sum of the weights of the present channels, plus, for
    "tired" only, 0.10 when the session duration exceeds 2700 and a further
    0.15 when it exceeds 5400, with no renormalization; the labels are
    iterated in the order in which they were first encountered (facial,
    voice, text), "tired" last when it was created; the merged label is the
    first label in that order whose total is maximal, and the exposed
    confidence is the minimum of that total and 1. *)
Theorem recompute_weighted_vote now s :
  facialEmotion s <> None \/ voiceEmotion s <> None \/ textEmotion s <> None ->
  let f := facialLabel s in
  let v := voiceLabel s in
  let x := textLabel s in
  let total := voteTotal f v x (sessionDuration s) in
  let totals := scoreEmotions (collectEmotions s) (sessionDuration s) in
  let s' := recomputeMergedEmotion now s in
  JsRecord.keys totals = voteOrder f v x
  /\ Forall (fun e => snd e == total (fst e)) (JsRecord.entries totals)
  /\ exists before after,
      voteOrder f v x = before ++ mergedEmotion s' :: after
      /\ Forall (fun label => total label < total (mergedEmotion s')) before
      /\ Forall (fun label => total label <= total (mergedEmotion s')) after
      /\ confidence s' == Qmin (total (mergedEmotion s')) 1.
Proof.
  intros Hpresent f v x total totals s'.
  pose proof (collectEmotions_present s Hpresent) as Hne.
  assert (Hkeys : JsRecord.keys totals = voteOrder f v x).
  { subst totals f v x. rewrite scoreEmotions_keys. apply collectEmotions_order. }
  assert (Hentries : Forall (fun e => snd e == total (fst e))
                            (JsRecord.entries totals)).
  { eapply List.Forall_impl; [|apply scoreEmotions_entries].
    intros e He. cbv beta in He. rewrite He. apply collectEmotions_total. }
  split; [exact Hkeys|]. split; [exact Hentries|].
  destruct (dominant_of_scores (collectEmotions s) (sessionDuration s) Hne
              (collectEmotions_positive s))
    as (before & winner & top & after & Hfold & Hsplit & Hb & Ha).
  assert (Hres : mergedEmotion s' = winner /\ confidence s' = Qmin top 1).
  { subst s'. unfold recomputeMergedEmotion.
    destruct (collectEmotions s) as [|e es]; [congruence|].
    cbn [length Nat.eqb]. now rewrite Hfold. }
  destruct Hres as [Hm Hc]. rewrite Hm, Hc.
  unfold JsRecord.keys in Hkeys. unfold JsRecord.entries in Hentries, Hsplit.
  subst totals. rewrite Hsplit in Hentries, Hkeys.
  apply Forall_app in Hentries as [Hbe Hae].
  inversion Hae as [|? ? Htop Hafter]; subst. cbn [fst snd] in Htop.
  exists (map fst before), (map fst after). repeat split.
  - rewrite <- Hkeys, map_app. reflexivity.
  - apply List.Forall_forall. intros label Hin.
    apply in_map_iff in Hin as ([k t] & <- & Hin). cbn [fst].
    rewrite List.Forall_forall in Hbe, Hb.
    specialize (Hbe _ Hin). specialize (Hb _ Hin). cbn [fst snd] in Hbe, Hb.
    rewrite <- Hbe, <- Htop. exact Hb.
  - apply List.Forall_forall. intros label Hin.
    apply in_map_iff in Hin as ([k t] & <- & Hin). cbn [fst].
    rewrite List.Forall_forall in Hafter, Ha.
    specialize (Hafter _ Hin). specialize (Ha _ Hin). cbn [fst snd] in Hafter, Ha.
    rewrite <- Hafter, <- Htop. exact Ha.
  - now rewrite Htop.
Qed.

Lemma recompute_weighted_vote_witness :
  let s := sampleFusion "calm" "tired" "happy" 6000 in
  let total := voteTotal (Some "calm") (Some "tired") (Some "happy") 6000 in
  let s' := recomputeMergedEmotion 8 s in
  JsRecord.keys (scoreEmotions (collectEmotions s) 6000) = ["calm"; "tired"; "happy"]
  /\ Forall (fun e => snd e == total (fst e))
            (JsRecord.entries (scoreEmotions (collectEmotions s) 6000))
  /\ exists before after,
      ["calm"; "tired"; "happy"] = before ++ mergedEmotion s' :: after
      /\ Forall (fun label => total label < total (mergedEmotion s')) before
      /\ Forall (fun label => total label <= total (mergedEmotion s')) after
      /\ confidence s' == Qmin (total (mergedEmotion s')) 1.
Proof.
  apply (recompute_weighted_vote 8 (sampleFusion "calm" "tired" "happy" 6000)).
  left. discriminate.
Defined.

(** The worked examples of the specification. *)

Example three_channel_disagreement :
  let s := {| facialEmotion := Some {| SmoothedEmotionState.emotion := "stressed";
                                       SmoothedEmotionState.confidence := 0.8;
                                       SmoothedEmotionState.history := [];
                                       SmoothedEmotionState.lastUpdate := 1 |};
              voiceEmotion := Some {| VoiceEmotionData.emotion := "calm";
                                      VoiceEmotionData.confidence := 0.7;
                                      VoiceEmotionData.tone := "soft";
                                      VoiceEmotionData.timestamp := 2 |};
              textEmotion := Some {| TextEmotionData.emotion := "happy";
                                     TextEmotionData.confidence := 0.9;
                                     TextEmotionData.timestamp := 3 |};
              sessionDuration := 0; mergedEmotion := "neutral"; confidence := 0.5;
              lastUpdate := 3; emotionHistory := [] |} in
  mergedEmotion (recomputeMergedEmotion 4 s) = "stressed"
  /\ confidence (recomputeMergedEmotion 4 s) == 0.5.
Proof. split; vm_compute; reflexivity. Qed.

Example fatigue_bias_flips_the_winner :
  let s d := {| facialEmotion := None;
                voiceEmotion := Some {| VoiceEmotionData.emotion := "happy";
                                        VoiceEmotionData.confidence := 0.7;
                                        VoiceEmotionData.tone := "bright";
                                        VoiceEmotionData.timestamp := 2 |};
                textEmotion := Some {| TextEmotionData.emotion := "tired";
                                       TextEmotionData.confidence := 0.9;
                                       TextEmotionData.timestamp := 3 |};
                sessionDuration := d; mergedEmotion := "neutral"; confidence := 0.5;
                lastUpdate := 3; emotionHistory := [] |} in
  mergedEmotion (recomputeMergedEmotion 4 (s 2700)) = "happy"
  /\ mergedEmotion (recomputeMergedEmotion 4 (s 5401)) = "tired"
  /\ confidence (recomputeMergedEmotion 4 (s 5401)) == 0.65.
Proof. repeat split; vm_compute; reflexivity. Qed.

(** ** C4: the majority vote of the smoother *)

Lemma occurrences_cons label d rest :
  occurrences label (d :: rest) =
  ((if String.eqb (FacialEmotionData.emotion d) label then 1 else 0)
   + occurrences label rest)%nat.
Proof.
  unfold occurrences. simpl.
  now destruct (String.eqb (FacialEmotionData.emotion d) label).
Qed.

Lemma occurrences_nil label : countQ (occurrences label []) == 0.
Proof. reflexivity. Qed.

Lemma countQ_succ n : countQ (S n) == 1 + countQ n.
Proof.
  unfold countQ. rewrite Nat2Z.inj_succ. unfold Z.succ. rewrite inject_Z_plus.
  change (inject_Z 1) with 1. lra.
Qed.

Lemma tally_counts window : forall counts sums k,
  num (JsRecord.get k (fst (fold_left tallyStep window (counts, sums))))
  == num (JsRecord.get k counts) + countQ (occurrences k window).
Proof.
  induction window as [|d rest IH]; intros counts sums k.
  - rewrite occurrences_nil. simpl. lra.
  - cbn [fold_left tallyStep]. rewrite IH, num_get_set, occurrences_cons.
    destruct (String.eqb_spec k (FacialEmotionData.emotion d)) as [->|Hne].
    + rewrite String.eqb_refl, orZero_num.
      change (1 + occurrences (FacialEmotionData.emotion d) rest)%nat
        with (S (occurrences (FacialEmotionData.emotion d) rest)).
      rewrite countQ_succ. lra.
    + destruct (String.eqb_spec (FacialEmotionData.emotion d) k); [congruence|].
      simpl. lra.
Qed.

Lemma tally_sums window : forall counts sums k,
  num (JsRecord.get k (snd (fold_left tallyStep window (counts, sums))))
  == num (JsRecord.get k sums) + confidenceSum k window.
Proof.
  induction window as [|d rest IH]; intros counts sums k.
  - simpl. lra.
  - cbn [fold_left tallyStep confidenceSum]. rewrite IH, num_get_set.
    destruct (String.eqb_spec k (FacialEmotionData.emotion d)) as [->|Hne].
    + rewrite String.eqb_refl, orZero_num. lra.
    + destruct (String.eqb_spec (FacialEmotionData.emotion d) k); [congruence|].
      lra.
Qed.

Lemma tally_NoDup window : forall counts sums,
  List.NoDup (JsRecord.keys counts) ->
  List.NoDup (JsRecord.keys (fst (fold_left tallyStep window (counts, sums)))).
Proof.
  induction window as [|d rest IH]; intros counts sums H; [exact H|].
  cbn [fold_left tallyStep]. apply IH. now apply JsRecordFacts.NoDup_keys_set.
Qed.

Lemma confidenceSum_le label window :
  Forall (fun d => FacialEmotionData.confidence d <= 1) window ->
  confidenceSum label window <= countQ (occurrences label window).
Proof.
  induction 1 as [|d rest Hd _ IH].
  - rewrite occurrences_nil. simpl. lra.
  - cbn [confidenceSum]. rewrite occurrences_cons.
    destruct (String.eqb (FacialEmotionData.emotion d) label).
    + change (1 + occurrences label rest)%nat with (S (occurrences label rest)).
      rewrite countQ_succ. lra.
    + simpl. lra.
Qed.

Lemma countQ_lt n m : (n < m)%nat -> countQ n < countQ m.
Proof. intros H. unfold countQ. rewrite <- Zlt_Qlt. lia. Qed.

Lemma dominating_label_occurs label window :
  window <> [] -> strictlyDominates label window ->
  (0 < occurrences label window)%nat.
Proof.
  intros Hne Hdom. destruct window as [|d rest]; [congruence|].
  destruct (string_dec (FacialEmotionData.emotion d) label) as [E|E].
  - rewrite occurrences_cons, E, String.eqb_refl. lia.
  - specialize (Hdom _ E). lia.
Qed.

(** C4.  For every non-empty window in which one label occurs strictly more
    often than every other label, [getSmoothedEmotion] returns that label,
    with the arithmetic mean of the confidences recorded for it within the
    window as confidence, provided the recorded confidences do not exceed 1
    (of the interval [0,1] only the upper bound is used: it makes the cap
    [Math.min(avgConfidence, 1)] the identity). *)
Theorem getSmoothedEmotion_majority now window label :
  window <> [] ->
  strictlyDominates label window ->
  Forall (fun d => FacialEmotionData.confidence d <= 1) window ->
  SmoothedEmotionState.emotion (getSmoothedEmotion now window) = label
  /\ SmoothedEmotionState.confidence (getSmoothedEmotion now window)
     == meanConfidence label window.
Proof.
  intros Hne Hdom Hconf.
  pose proof (dominating_label_occurs label window Hne Hdom) as Hocc.
  unfold getSmoothedEmotion.
  destruct window as [|d0 rest] eqn:Ew; [congruence|]. rewrite <- Ew in *.
  replace (length window =? 0)%nat with false by (now rewrite Ew).
  unfold tally.
  pose proof (tally_counts window JsRecord.empty JsRecord.empty) as Hc.
  pose proof (tally_sums window JsRecord.empty JsRecord.empty) as Hs.
  pose proof (tally_NoDup window JsRecord.empty JsRecord.empty (List.NoDup_nil _)) as Hnd.
  destruct (fold_left tallyStep window (JsRecord.empty, JsRecord.empty))
    as [counts sums].
  cbn [fst snd JsRecord.get JsRecord.empty num] in Hc, Hs, Hnd.
  (* the entry of the dominating label *)
  assert (exists v, JsRecord.get label counts = Some v
                    /\ v == countQ (occurrences label window)) as (vl & Hgl & Hvl).
  { specialize (Hc label). apply countQ_lt in Hocc.
    change (countQ 0) with 0 in Hocc.
    destruct (JsRecord.get label counts) as [v|]; cbn [num] in Hc.
    - exists v. split; [reflexivity | lra].
    - lra. }
  pose proof (dominantStep_spec (JsRecord.entries counts) ("neutral", 0)) as Hd.
  destruct (fold_left dominantStep (JsRecord.entries counts) ("neutral", 0))
    as [winner mx].
  assert (winner = label) as ->.
  { pose proof (dominantOf_max _ _ _ Hd) as [_ Hmax]. cbn [snd] in Hmax.
    rewrite List.Forall_forall in Hmax.
    pose proof (Hmax _ (JsRecordFacts.get_Some_In _ _ _ Hgl)) as Hle.
    cbn [snd] in Hle.
    apply countQ_lt in Hocc. change (countQ 0) with 0 in Hocc.
    inversion Hd as [Hall | l1 l2 d m Hl Hlt H1 H2]; subst.
    - clear - Hle Hvl Hocc. lra.
    - destruct (string_dec winner label) as [E|E]; [exact E|exfalso].
      assert (In (winner, mx) counts) as Hin
        by (unfold JsRecord.entries in Hl; rewrite Hl; apply in_app_iff; right; now left).
      apply JsRecordFacts.In_get in Hin; [|exact Hnd].
      specialize (Hc winner). rewrite Hin in Hc. cbn [num] in Hc.
      apply Hdom, countQ_lt in E. clear - Hc E Hvl Hle. lra. }
  cbn [SmoothedEmotionState.emotion SmoothedEmotionState.confidence].
  split; [reflexivity|].
  specialize (Hc label). specialize (Hs label).
  pose proof (confidenceSum_le label window Hconf) as Hsum.
  apply countQ_lt in Hocc. change (countQ 0) with 0 in Hocc.
  unfold meanConfidence.
  rewrite Q.min_l.
  - rewrite Hs, Hc. rewrite !Qplus_0_l. reflexivity.
  - rewrite Hs, Hc. rewrite !Qplus_0_l. apply Qle_shift_div_r; lra.
Qed.

Lemma getSmoothedEmotion_majority_witness :
  SmoothedEmotionState.emotion (getSmoothedEmotion 4 sampleWindow) = "happy"
  /\ SmoothedEmotionState.confidence (getSmoothedEmotion 4 sampleWindow)
     == meanConfidence "happy" sampleWindow.
Proof.
  apply (getSmoothedEmotion_majority 4 sampleWindow "happy").
  - discriminate.
  - intros other Hother. unfold occurrences, sampleWindow, sampleEntry.
    cbn -[String.eqb]. rewrite String.eqb_refl.
    destruct (String.eqb_spec "happy" other) as [E|_]; [congruence|].
    destruct (String.eqb "tired" other); simpl; lia.
  - repeat constructor; simpl; vm_compute; discriminate.
Defined.

Example sampleWindow_smoothed :
  SmoothedEmotionState.emotion (getSmoothedEmotion 4 sampleWindow) = "happy"
  /\ SmoothedEmotionState.confidence (getSmoothedEmotion 4 sampleWindow) == 0.7.
Proof. split; vm_compute; reflexivity. Qed.

(** ** C1: what [getCurrentState] copies *)


Lemma read_lt {A} (as_ : Heap.cell -> option A) h r a :
  Heap.read as_ h r = Some a -> (r < length h)%nat.
Proof.
  unfold Heap.read. destruct (h !! r) eqn:E; [|discriminate].
  intros _. eapply lookup_lt_Some; eauto.
Qed.

Lemma read_insert_same {A} (as_ : Heap.cell -> option A) (h : Heap.heap) r c :
  (r < length h)%nat -> Heap.read as_ (<[r:=c]> h) r = as_ c.
Proof. intros H. unfold Heap.read. now rewrite list_lookup_insert_eq. Qed.

Lemma read_insert_ne {A} (as_ : Heap.cell -> option A) (h : Heap.heap) r r' c :
  r <> r' -> Heap.read as_ (<[r:=c]> h) r' = Heap.read as_ h r'.
Proof. intros H. unfold Heap.read. now rewrite list_lookup_insert_ne. Qed.

(** Replacing an object by one of another kind is invisible to a reader that
    saw neither. *)
Lemma read_insert_other_kind {A} (as_ : Heap.cell -> option A) (h : Heap.heap) r r' c :
  as_ c = None -> Heap.read as_ h r = None ->
  Heap.read as_ (<[r:=c]> h) r' = Heap.read as_ h r'.
Proof.
  intros Hc Hr. destruct (Nat.eq_dec r r') as [<-|Hne].
  - rewrite Hr. unfold Heap.read.
    destruct (Nat.lt_ge_cases r (length h)) as [Hlt|Hge].
    + now rewrite list_lookup_insert_eq.
    + rewrite list_insert_ge by exact Hge. exact Hr.
  - now apply read_insert_ne.
Qed.

Lemma read_app {A} (as_ : Heap.cell -> option A) (h l : Heap.heap) r a :
  Heap.read as_ h r = Some a -> Heap.read as_ (h ++ l) r = Some a.
Proof.
  unfold Heap.read. destruct (h !! r) eqn:E; [|discriminate].
  intros H. now rewrite (lookup_app_l_Some _ _ _ _ E).
Qed.

Lemma read_alloc {A} (as_ : Heap.cell -> option A) (h : Heap.heap) c :
  Heap.read as_ (h ++ [c]) (length h) = as_ c.
Proof. unfold Heap.read. now rewrite list_lookup_middle. Qed.

Lemma readNullable_mono {A} (rd : Heap.heap -> Heap.ref -> option A) h h' r x :
  (forall r' a, rd h r' = Some a -> rd h' r' = Some a) ->
  Heap.readNullable rd h r = Some x -> Heap.readNullable rd h' r = Some x.
Proof.
  intros Hmono. destruct r as [r'|]; simpl; [|auto].
  destruct (rd h r') eqn:E; [|discriminate].
  now rewrite (Hmono _ _ E).
Qed.

Lemma readNullable_ext {A} (rd : Heap.heap -> Heap.ref -> option A) h h' r :
  (forall r', rd h' r' = rd h r') ->
  Heap.readNullable rd h' r = Heap.readNullable rd h r.
Proof. intros H. destruct r as [r'|]; simpl; [now rewrite H | reflexivity]. Qed.

Lemma snapshot_spec h r s :
  Heap.snapshot h r = Some s <->
  exists o,
    Heap.readState h r = Some o
    /\ Heap.readNullable Heap.readFacial h (Heap.StateObj.facialEmotion o) = Some (facialEmotion s)
    /\ Heap.readNullable Heap.readVoice h (Heap.StateObj.voiceEmotion o) = Some (voiceEmotion s)
    /\ Heap.readNullable Heap.readText h (Heap.StateObj.textEmotion o) = Some (textEmotion s)
    /\ Heap.readHistory h (Heap.StateObj.emotionHistory o) = Some (emotionHistory s)
    /\ Heap.StateObj.sessionDuration o = sessionDuration s
    /\ Heap.StateObj.mergedEmotion o = mergedEmotion s
    /\ Heap.StateObj.confidence o = confidence s
    /\ Heap.StateObj.lastUpdate o = lastUpdate s.
Proof.
  unfold Heap.snapshot. split.
  - destruct (Heap.readState h r) as [o|]; [|discriminate]. simpl.
    destruct (Heap.readNullable Heap.readFacial h _) as [f|] eqn:Ef; [|discriminate]. simpl.
    destruct (Heap.readNullable Heap.readVoice h _) as [v|] eqn:Ev; [|discriminate]. simpl.
    destruct (Heap.readNullable Heap.readText h _) as [x|] eqn:Ex; [|discriminate]. simpl.
    destruct (Heap.readHistory h _) as [a|] eqn:Ea; [|discriminate]. simpl.
    intros [= <-]. exists o. simpl. repeat split; assumption.
  - intros (o & Ho & Hf & Hv & Hx & Ha & Hd & Hm & Hc & Hl).
    rewrite Ho. simpl. rewrite Hf. simpl. rewrite Hv. simpl.
    rewrite Hx. simpl. rewrite Ha. simpl.
    rewrite Hd, Hm, Hc, Hl. now destruct s.
Qed.

Lemma read_lookup {A} (as_ : Heap.cell -> option A) (h : Heap.heap) r a :
  Heap.read as_ h r = Some a -> exists c, h !! r = Some c /\ as_ c = Some a.
Proof. unfold Heap.read. destruct (h !! r) as [c|]; [eauto | discriminate]. Qed.

Lemma readState_lookup (h : Heap.heap) r o : Heap.readState h r = Some o -> h !! r = Some (Heap.CState o).
Proof.
  intros H. apply read_lookup in H as (c & Hc & E).
  destruct c; simpl in E; try discriminate. now injection E as ->.
Qed.

Lemma readHistory_lookup (h : Heap.heap) r a :
  Heap.readHistory h r = Some a -> h !! r = Some (Heap.CHistory a).
Proof.
  intros H. apply read_lookup in H as (c & Hc & E).
  destruct c; simpl in E; try discriminate. now injection E as ->.
Qed.

(** Writing a state object where a state object was, or an array where an
    array was, is invisible to the readers of the other kinds. *)
Lemma read_insert_kind {A} (as_ : Heap.cell -> option A) (h : Heap.heap) r r' c0 c :
  h !! r = Some c0 -> as_ c0 = None -> as_ c = None ->
  Heap.read as_ (<[r:=c]> h) r' = Heap.read as_ h r'.
Proof.
  intros H0 H1 H2. apply read_insert_other_kind; [exact H2|].
  unfold Heap.read. now rewrite H0.
Qed.

Lemma snapshot_put_state (h : Heap.heap) r o0 o' f v x a :
  h !! r = Some (Heap.CState o0) ->
  Heap.readNullable Heap.readFacial h (Heap.StateObj.facialEmotion o') = Some f ->
  Heap.readNullable Heap.readVoice h (Heap.StateObj.voiceEmotion o') = Some v ->
  Heap.readNullable Heap.readText h (Heap.StateObj.textEmotion o') = Some x ->
  Heap.readHistory h (Heap.StateObj.emotionHistory o') = Some a ->
  Heap.snapshot (<[r:=Heap.CState o']> h) r =
  Some {| facialEmotion := f; voiceEmotion := v; textEmotion := x;
          sessionDuration := Heap.StateObj.sessionDuration o';
          mergedEmotion := Heap.StateObj.mergedEmotion o';
          confidence := Heap.StateObj.confidence o';
          lastUpdate := Heap.StateObj.lastUpdate o';
          emotionHistory := a |}.
Proof.
  intros H0 Hf Hv Hx Ha. apply snapshot_spec. exists o'. simpl.
  assert (r < length h)%nat as Hlt by (eapply lookup_lt_Some; eauto).
  repeat split.
  - unfold Heap.readState. now rewrite read_insert_same.
  - rewrite <- Hf. apply readNullable_ext. intros r'.
    now apply (read_insert_kind Heap.asFacial h r r' (Heap.CState o0)).
  - rewrite <- Hv. apply readNullable_ext. intros r'.
    now apply (read_insert_kind Heap.asVoice h r r' (Heap.CState o0)).
  - rewrite <- Hx. apply readNullable_ext. intros r'.
    now apply (read_insert_kind Heap.asText h r r' (Heap.CState o0)).
  - rewrite <- Ha. now apply (read_insert_kind Heap.asHistory h r _ (Heap.CState o0)).
Qed.

Lemma snapshot_put_history (h : Heap.heap) r o s a' :
  Heap.readState h r = Some o ->
  Heap.snapshot h r = Some s ->
  Heap.snapshot (<[Heap.StateObj.emotionHistory o := Heap.CHistory a']> h) r =
  Some {| facialEmotion := facialEmotion s; voiceEmotion := voiceEmotion s;
          textEmotion := textEmotion s; sessionDuration := sessionDuration s;
          mergedEmotion := mergedEmotion s; confidence := confidence s;
          lastUpdate := lastUpdate s; emotionHistory := a' |}.
Proof.
  intros Ho Hs. apply snapshot_spec in Hs as (o1 & Ho1 & Hf & Hv & Hx & Ha & Hrest).
  rewrite Ho in Ho1. injection Ho1 as <-.
  apply readHistory_lookup in Ha as Hl.
  assert (Heap.StateObj.emotionHistory o < length h)%nat as Hlt
    by (eapply lookup_lt_Some; eauto).
  apply snapshot_spec. exists o. simpl. repeat split; try tauto.
  - rewrite <- Ho. now apply (read_insert_kind Heap.asState h _ r (Heap.CHistory (emotionHistory s))).
  - rewrite <- Hf. apply readNullable_ext. intros r'.
    now apply (read_insert_kind Heap.asFacial h _ r' (Heap.CHistory (emotionHistory s))).
  - rewrite <- Hv. apply readNullable_ext. intros r'.
    now apply (read_insert_kind Heap.asVoice h _ r' (Heap.CHistory (emotionHistory s))).
  - rewrite <- Hx. apply readNullable_ext. intros r'.
    now apply (read_insert_kind Heap.asText h _ r' (Heap.CHistory (emotionHistory s))).
  - unfold Heap.readHistory. now rewrite read_insert_same.
Qed.

Lemma snapshot_app (h l : Heap.heap) r s :
  Heap.snapshot h r = Some s -> Heap.snapshot (h ++ l) r = Some s.
Proof.
  intros Hs. apply snapshot_spec in Hs as (o & Ho & Hf & Hv & Hx & Ha & Hrest).
  apply snapshot_spec. exists o. repeat split; try tauto.
  - now apply read_app.
  - eapply readNullable_mono; [|exact Hf]. intros r' a. apply read_app.
  - eapply readNullable_mono; [|exact Hv]. intros r' a. apply read_app.
  - eapply readNullable_mono; [|exact Hx]. intros r' a. apply read_app.
  - now apply read_app.
Qed.

(** Assigning to the fields of another state object. *)
Lemma snapshot_insert_other_state (h : Heap.heap) r c oc o' :
  h !! c = Some (Heap.CState oc) -> c <> r ->
  Heap.snapshot (<[c:=Heap.CState o']> h) r = Heap.snapshot h r.
Proof.
  intros Hc Hne. apply option_eq. intros s. rewrite !snapshot_spec.
  assert (Heap.readState (<[c:=Heap.CState o']> h) r = Heap.readState h r) as Es
    by now apply read_insert_ne.
  assert (forall r', Heap.readFacial (<[c:=Heap.CState o']> h) r' = Heap.readFacial h r') as Ef
    by (intros r'; now apply (read_insert_kind Heap.asFacial h c r' (Heap.CState oc))).
  assert (forall r', Heap.readVoice (<[c:=Heap.CState o']> h) r' = Heap.readVoice h r') as Ev
    by (intros r'; now apply (read_insert_kind Heap.asVoice h c r' (Heap.CState oc))).
  assert (forall r', Heap.readText (<[c:=Heap.CState o']> h) r' = Heap.readText h r') as Ex
    by (intros r'; now apply (read_insert_kind Heap.asText h c r' (Heap.CState oc))).
  assert (forall r', Heap.readHistory (<[c:=Heap.CState o']> h) r' = Heap.readHistory h r') as Ea
    by (intros r'; now apply (read_insert_kind Heap.asHistory h c r' (Heap.CState oc))).
  split; intros (o & Ho & Hf & Hv & Hx & Ha & Hrest); exists o.
  - rewrite Es in Ho.
    rewrite (readNullable_ext _ _ _ _ Ef) in Hf.
    rewrite (readNullable_ext _ _ _ _ Ev) in Hv.
    rewrite (readNullable_ext _ _ _ _ Ex) in Hx.
    rewrite Ea in Ha. tauto.
  - rewrite Es, (readNullable_ext _ _ _ _ Ef), (readNullable_ext _ _ _ _ Ev),
      (readNullable_ext _ _ _ _ Ex), Ea. tauto.
Qed.

(** *** The store model agrees with the functions on values *)

Lemma recompute_simulates now (h : Heap.heap) this s :
  Heap.snapshot h (Heap.currentState this) = Some s ->
  exists h1,
    Heap.recomputeMergedEmotion now h this = Some h1
    /\ Heap.snapshot h1 (Heap.currentState this) = Some (recomputeMergedEmotion now s).
Proof.
  intros Hs.
  pose proof Hs as Hspec.
  apply snapshot_spec in Hspec as (o & Ho & Hf & Hv & Hx & Ha & Hd & Hm & Hc & Hl).
  pose proof (readState_lookup _ _ _ Ho) as Hlook.
  unfold Heap.recomputeMergedEmotion, recomputeMergedEmotion.
  rewrite Hs. simpl. rewrite Ho. simpl. rewrite Hd.
  destruct (length (collectEmotions s) =? 0)%nat.
  - eexists. split; [reflexivity|].
    rewrite (snapshot_put_state h _ o (Heap.setMerged "neutral" 0.5 o)
               _ _ _ _ Hlook Hf Hv Hx Ha).
    simpl. now rewrite Hd, Hl.
  - destruct (fold_left dominantStep _ _) as [dominantEmotion maxScore].
    set (o1 := Heap.setMerged dominantEmotion (Qmin maxScore 1) o).
    pose proof (snapshot_put_state h _ o o1 _ _ _ _ Hlook Hf Hv Hx Ha) as Hs1.
    assert (Heap.readState (<[Heap.currentState this := Heap.CState o1]> h)
                           (Heap.currentState this) = Some o1) as Ho1.
    { unfold Heap.readState. rewrite read_insert_same; [reflexivity|].
      eapply lookup_lt_Some; eauto. }
    assert (Heap.readHistory (<[Heap.currentState this := Heap.CState o1]> h)
                             (Heap.StateObj.emotionHistory o)
            = Some (emotionHistory s)) as Ha1.
    { rewrite <- Ha. now apply (read_insert_kind Heap.asHistory h _ _ (Heap.CState o)). }
    rewrite Ha1. simpl. eexists. split; [reflexivity|].
    rewrite (snapshot_put_history _ _ o1 _ _ Ho1 Hs1). simpl.
    now rewrite Hd, Hl.
Qed.

Lemma put_then_recompute now (h : Heap.heap) this o o' f v x a :
  h !! Heap.currentState this = Some (Heap.CState o) ->
  Heap.readNullable Heap.readFacial h (Heap.StateObj.facialEmotion o') = Some f ->
  Heap.readNullable Heap.readVoice h (Heap.StateObj.voiceEmotion o') = Some v ->
  Heap.readNullable Heap.readText h (Heap.StateObj.textEmotion o') = Some x ->
  Heap.readHistory h (Heap.StateObj.emotionHistory o') = Some a ->
  exists h1,
    Heap.recomputeMergedEmotion now
      (<[Heap.currentState this := Heap.CState o']> h) this = Some h1
    /\ Heap.snapshot h1 (Heap.currentState this)
       = Some (recomputeMergedEmotion now
                 {| facialEmotion := f; voiceEmotion := v; textEmotion := x;
                    sessionDuration := Heap.StateObj.sessionDuration o';
                    mergedEmotion := Heap.StateObj.mergedEmotion o';
                    confidence := Heap.StateObj.confidence o';
                    lastUpdate := Heap.StateObj.lastUpdate o';
                    emotionHistory := a |}).
Proof.
  intros Hlook Hf Hv Hx Ha. apply recompute_simulates.
  now apply (snapshot_put_state h _ o o').
Qed.

Lemma updateSessionDuration_simulates now seconds (h : Heap.heap) this s :
  Heap.snapshot h (Heap.currentState this) = Some s ->
  exists h1,
    Heap.updateSessionDuration now seconds h this = Some h1
    /\ Heap.snapshot h1 (Heap.currentState this)
       = Some (updateSessionDuration now seconds s).
Proof.
  intros Hs.
  apply snapshot_spec in Hs as (o & Ho & Hf & Hv & Hx & Ha & Hd & Hm & Hc & Hl).
  unfold Heap.updateSessionDuration, updateSessionDuration.
  rewrite Ho. simpl. rewrite <- Hm, <- Hc, <- Hl.
  match goal with
  | |- context [<[_ := Heap.CState ?o']> h] =>
      apply (put_then_recompute now h this o o'); try assumption
  end.
  now apply readState_lookup.
Qed.

(** A channel update stores a reference and recomputes: the new state
    object differs from the old one in one reference and in [lastUpdate]. *)
Ltac simulate_channel_update Hs Hr :=
  let o := fresh "o" in
  let Ho := fresh "Ho" in
  let Hd := fresh "Hd" in
  let Hm := fresh "Hm" in
  let Hc := fresh "Hc" in
  apply snapshot_spec in Hs as (o & Ho & ? & ? & ? & ? & Hd & Hm & Hc & ?);
  unfold Heap.updateFacialEmotion, Heap.updateVoiceEmotion, Heap.updateTextEmotion,
    updateFacialEmotion, updateVoiceEmotion, updateTextEmotion;
  rewrite Ho; simpl; rewrite <- Hd, <- Hm, <- Hc;
  match goal with
  | |- context [Heap.recomputeMergedEmotion ?t (<[_ := Heap.CState ?o']> ?h) ?this] =>
      apply (put_then_recompute t h this o o'); try assumption;
      [ now apply readState_lookup | simpl; now rewrite Hr ]
  end.

Lemma updateFacialEmotion_simulates now now' r f (h : Heap.heap) this s :
  Heap.snapshot h (Heap.currentState this) = Some s ->
  Heap.readFacial h r = Some f ->
  exists h1,
    Heap.updateFacialEmotion now now' r h this = Some h1
    /\ Heap.snapshot h1 (Heap.currentState this)
       = Some (updateFacialEmotion now now' f s).
Proof. intros Hs Hr. simulate_channel_update Hs Hr. Qed.

Lemma updateVoiceEmotion_simulates now now' r v (h : Heap.heap) this s :
  Heap.snapshot h (Heap.currentState this) = Some s ->
  Heap.readVoice h r = Some v ->
  exists h1,
    Heap.updateVoiceEmotion now now' r h this = Some h1
    /\ Heap.snapshot h1 (Heap.currentState this)
       = Some (updateVoiceEmotion now now' v s).
Proof. intros Hs Hr. simulate_channel_update Hs Hr. Qed.

Lemma updateTextEmotion_simulates now now' r x (h : Heap.heap) this s :
  Heap.snapshot h (Heap.currentState this) = Some s ->
  Heap.readText h r = Some x ->
  exists h1,
    Heap.updateTextEmotion now now' r h this = Some h1
    /\ Heap.snapshot h1 (Heap.currentState this)
       = Some (updateTextEmotion now now' x s).
Proof. intros Hs Hr. simulate_channel_update Hs Hr. Qed.

(** [reset] leaves the engine with a state object of its own, whatever the
    store held before. *)
Lemma reset_simulates now (h : Heap.heap) this :
  Heap.snapshot (fst (Heap.reset now h this))
                (Heap.currentState (snd (Heap.reset now h this)))
  = Some (initialState now).
Proof.
  unfold Heap.reset, Heap.fresh, Heap.alloc. cbn [fst snd Heap.currentState].
  apply snapshot_spec. eexists.
  split; [unfold Heap.readState; rewrite read_alloc; reflexivity|].
  cbn [Heap.asState Heap.StateObj.facialEmotion Heap.StateObj.voiceEmotion
       Heap.StateObj.textEmotion Heap.StateObj.emotionHistory
       Heap.StateObj.sessionDuration Heap.StateObj.mergedEmotion
       Heap.StateObj.confidence Heap.StateObj.lastUpdate Heap.readNullable].
  repeat split. apply read_app. unfold Heap.readHistory. now rewrite read_alloc.
Qed.

Lemma getCurrentState_simulates (h : Heap.heap) this s :
  Heap.snapshot h (Heap.currentState this) = Some s ->
  exists o,
    Heap.readState h (Heap.currentState this) = Some o
    /\ Heap.getCurrentState h this = Some (h ++ [Heap.CState o], length h)
    /\ Heap.snapshot (h ++ [Heap.CState o]) (length h) = Some s
    /\ Heap.snapshot (h ++ [Heap.CState o]) (Heap.currentState this) = Some s.
Proof.
  intros Hs. pose proof Hs as Hspec.
  apply snapshot_spec in Hspec as (o & Ho & Hf & Hv & Hx & Ha & Hrest).
  exists o. split; [exact Ho|]. split; [|split].
  - unfold Heap.getCurrentState. rewrite Ho. reflexivity.
  - apply snapshot_spec. exists o. repeat split; try tauto.
    + unfold Heap.readState. now rewrite read_alloc.
    + eapply readNullable_mono; [|exact Hf]. intros r' a. apply read_app.
    + eapply readNullable_mono; [|exact Hv]. intros r' a. apply read_app.
    + eapply readNullable_mono; [|exact Hx]. intros r' a. apply read_app.
    + now apply read_app.
  - now apply snapshot_app.
Qed.

(** C1 (as the code has it).  [getCurrentState] returns a shallow copy: a
    new object, distinct from the state object of the engine, whose fields
    hold what the fields of the current state hold, so that it shows the
    current state.  Assigning to the fields of the returned object changes
    neither the state of the engine nor what a later [getCurrentState] or a
    later recompute produces.  (The array [emotionHistory] and the channel
    objects are the ones the engine uses, not copies.) *)
Theorem getCurrentState_shallow_copy (h : Heap.heap) this s :
  Heap.snapshot h (Heap.currentState this) = Some s ->
  exists h' c,
    Heap.getCurrentState h this = Some (h', c)
    /\ c <> Heap.currentState this
    /\ Heap.readState h' c = Heap.readState h (Heap.currentState this)
    /\ Heap.snapshot h' c = Some s
    /\ Heap.snapshot h' (Heap.currentState this) = Some s
    /\ forall o',
        exists h'',
          Heap.assignFields c o' h' = Some h''
          /\ Heap.snapshot h'' (Heap.currentState this) = Some s
          /\ (exists h3 c',
                 Heap.getCurrentState h'' this = Some (h3, c')
                 /\ Heap.snapshot h3 c' = Some s)
          /\ (forall now seconds,
                 exists h3,
                   Heap.updateSessionDuration now seconds h'' this = Some h3
                   /\ Heap.snapshot h3 (Heap.currentState this)
                      = Some (updateSessionDuration now seconds s)).
Proof.
  intros Hs.
  destruct (getCurrentState_simulates h this s Hs) as (o & Ho & Hget & Hcopy & Hkeep).
  pose proof (read_lt _ _ _ _ Ho) as Hlt.
  exists (h ++ [Heap.CState o]), (length h).
  split; [exact Hget|]. split; [lia|].
  split; [rewrite Ho; unfold Heap.readState; now rewrite read_alloc|].
  split; [exact Hcopy|]. split; [exact Hkeep|].
  intros o'.
  assert (Heap.snapshot (<[length h := Heap.CState o']> (h ++ [Heap.CState o]))
                        (Heap.currentState this) = Some s) as Hs'.
  { rewrite (snapshot_insert_other_state _ _ _ o); [exact Hkeep| |lia].
    now apply list_lookup_middle. }
  exists (<[length h := Heap.CState o']> (h ++ [Heap.CState o])).
  split; [|split; [exact Hs'|split]].
  - unfold Heap.assignFields, Heap.readState. now rewrite read_alloc.
  - destruct (getCurrentState_simulates _ this s Hs') as (o2 & _ & Hget2 & Hcopy2 & _).
    eauto.
  - intros now seconds. now apply updateSessionDuration_simulates.
Qed.

Lemma getCurrentState_shallow_copy_witness :
  exists h' c,
    Heap.getCurrentState sampleHeap sampleEngine = Some (h', c)
    /\ c <> Heap.currentState sampleEngine
    /\ Heap.readState h' c = Heap.readState sampleHeap (Heap.currentState sampleEngine)
    /\ Heap.snapshot h' c = Some sampleState
    /\ Heap.snapshot h' (Heap.currentState sampleEngine) = Some sampleState
    /\ forall o',
        exists h'',
          Heap.assignFields c o' h' = Some h''
          /\ Heap.snapshot h'' (Heap.currentState sampleEngine) = Some sampleState
          /\ (exists h3 c',
                 Heap.getCurrentState h'' sampleEngine = Some (h3, c')
                 /\ Heap.snapshot h3 c' = Some sampleState)
          /\ (forall now seconds,
                 exists h3,
                   Heap.updateSessionDuration now seconds h'' sampleEngine = Some h3
                   /\ Heap.snapshot h3 (Heap.currentState sampleEngine)
                      = Some (updateSessionDuration now seconds sampleState)).
Proof.
  apply (getCurrentState_shallow_copy sampleHeap sampleEngine sampleState).
  vm_compute. reflexivity.
Defined.

(** C1 (as stated) fails.  On an engine that has received one text reading,
    [getCurrentState()] returns the object at address 3.  Pushing an entry
    onto the [emotionHistory] of that object makes the history that the
    engine holds two entries long; and after the [emotion] of its
    [textEmotion] is set to "sad", the next recompute of the engine merges
    "sad" where it would have merged "happy". *)
Lemma getCurrentState_not_defensive :
  Heap.getCurrentState sampleHeap sampleEngine = Some (copiedHeap, 3%nat)
  /\ observedHistory (Some copiedHeap) = Some (emotionHistory sampleState)
  /\ observedHistory (Heap.pushHistory 3%nat strayEntry copiedHeap)
     = Some (emotionHistory sampleState ++ [strayEntry])
  /\ observedMerged (Heap.updateSessionDuration 5 0 copiedHeap sampleEngine)
     = Some "happy"
  /\ observedMerged (h ← Heap.setTextLabel 3%nat "sad" copiedHeap;
                     Heap.updateSessionDuration 5 0 h sampleEngine)
     = Some "sad"
  /\ ~ Heap.defensiveCopy.
Proof.
  repeat apply conj; try (vm_compute; reflexivity).
  intros Hdef.
  destruct (Heap.pushHistory 3%nat strayEntry copiedHeap) as [h''|] eqn:E;
    [|vm_compute in E; discriminate].
  pose proof (Hdef sampleHeap sampleEngine copiedHeap 3%nat
                (Heap.MPushHistory strayEntry) h'' eq_refl E) as H.
  vm_compute in E. injection E as <-. vm_compute in H. discriminate.
Qed.

(** ** Every property read finds its key *)

Lemma tally_keys window : forall counts sums,
  JsRecord.keys counts = JsRecord.keys sums ->
  JsRecord.keys (fst (fold_left tallyStep window (counts, sums)))
  = JsRecord.keys (snd (fold_left tallyStep window (counts, sums))).
Proof.
  induction window as [|d rest IH]; intros counts sums H; [exact H|].
  cbn [fold_left tallyStep]. apply IH. now rewrite !keys_set_addKey, H.
Qed.

(** The division of [getSmoothedEmotion] reads two properties that exist, and
    its divisor is positive. *)
Lemma getSmoothedEmotion_reads_present window :
  window <> [] ->
  let counts := fst (tally window) in
  let sums := snd (tally window) in
  let dominant := fst (fold_left dominantStep (JsRecord.entries counts) ("neutral", 0)) in
  exists n c,
    JsRecord.get dominant counts = Some n
    /\ JsRecord.get dominant sums = Some c
    /\ 0 < n.
Proof.
  intros Hne counts sums dominant. subst counts sums dominant. unfold tally.
  pose proof (tally_counts window JsRecord.empty JsRecord.empty) as Hc.
  pose proof (tally_keys window JsRecord.empty JsRecord.empty eq_refl) as Hk.
  pose proof (tally_NoDup window JsRecord.empty JsRecord.empty (List.NoDup_nil _)) as Hnd.
  destruct (fold_left tallyStep window (JsRecord.empty, JsRecord.empty))
    as [counts sums].
  cbn [fst snd JsRecord.get JsRecord.empty num] in *.
  pose proof (dominantStep_spec (JsRecord.entries counts) ("neutral", 0)) as Hd.
  destruct (fold_left dominantStep (JsRecord.entries counts) ("neutral", 0))
    as [winner mx].
  cbn [fst].
  inversion Hd as [Hall | l1 l2 d m Hl Hlt H1 H2]; subst.
  - exfalso. destruct window as [|d0 rest]; [congruence|].
    specialize (Hc (FacialEmotionData.emotion d0)).
    rewrite occurrences_cons, String.eqb_refl in Hc.
    change (1 + occurrences (FacialEmotionData.emotion d0) rest)%nat
      with (S (occurrences (FacialEmotionData.emotion d0) rest)) in Hc.
    rewrite countQ_succ in Hc.
    assert (0 <= countQ (occurrences (FacialEmotionData.emotion d0) rest)) as Hpos.
    { unfold countQ. change 0 with (inject_Z 0). rewrite <- Zle_Qle. lia. }
    destruct (JsRecord.get (FacialEmotionData.emotion d0) counts) as [v|] eqn:E;
      cbn [num] in Hc.
    + apply JsRecordFacts.get_Some_In in E.
      rewrite List.Forall_forall in Hall. apply Hall in E. cbn [snd] in E.
      clear - E Hc Hpos. lra.
    + clear - Hc Hpos. lra.
  - assert (In (winner, mx) counts) as Hin
      by (unfold JsRecord.entries in Hl; rewrite Hl; apply in_app_iff; right; now left).
    assert (In winner (JsRecord.keys sums)) as Hks.
    { rewrite <- Hk. change winner with (fst (winner, mx)). now apply in_map. }
    apply JsRecordFacts.In_get in Hin; [|exact Hnd].
    destruct (JsRecord.get winner sums) as [c|] eqn:E.
    + exists mx, c. cbn [snd] in Hlt. auto.
    + apply JsRecordFacts.get_None_keys in E. tauto.
Qed.

(** The divisor of the normalization is positive when a channel is present. *)
Lemma totalWeight_positive s :
  collectEmotions s <> [] ->
  0 < snd (fold_left scoreStep (collectEmotions s) (JsRecord.empty, 0)).
Proof.
  intros Hne. rewrite scoreFold_weight.
  pose proof (collectEmotions_positive s) as Hpos.
  destruct (collectEmotions s) as [|[l w] rest]; [congruence|].
  inversion Hpos as [|? ? Hw Hrest]; subst. cbn [snd] in Hw.
  pose proof (presentWeight_nonneg rest Hrest). simpl. lra.
Qed.

(** * Further properties of the code *)

(** ** The weighted vote: who can win *)


(** The winner of the scan of the totals, with what is known of its total. *)
Lemma winner_of_scores emotions duration :
  emotions <> [] ->
  Forall (fun e => 0 < snd e) emotions ->
  exists before winner total after,
    fold_left dominantStep (JsRecord.entries (scoreEmotions emotions duration))
              ("neutral", 0) = (winner, total)
    /\ scoreEmotions emotions duration = before ++ (winner, total) :: after
    /\ Forall (fun e => snd e < total) before
    /\ Forall (fun e => snd e <= total) after
    /\ total == expectedTotal emotions duration winner
    /\ 0 < total.
Proof.
  intros Hne Hpos.
  destruct (dominant_of_scores emotions duration Hne Hpos)
    as (before & winner & total & after & Hfold & Hsplit & Hb & Ha).
  unfold JsRecord.entries in Hsplit.
  exists before, winner, total, after. repeat split; try assumption.
  - pose proof (scoreEmotions_entries emotions duration) as He.
    rewrite Hsplit in He. apply Forall_app in He as [_ He].
    inversion He; subst. assumption.
  - pose proof (dominantStep_spec
                  (JsRecord.entries (scoreEmotions emotions duration))
                  ("neutral", 0)) as Hd.
    rewrite Hfold in Hd. inversion Hd as [Hall | l1 l2 d m Hl Hlt H1 H2]; subst.
    + exfalso. destruct emotions as [|[l w] rest]; [congruence|].
      pose proof (expectedTotal_head_positive l w rest duration Hpos) as Hp.
      rewrite <- scoreEmotions_value in Hp.
      destruct (JsRecord.get l (scoreEmotions ((l, w) :: rest) duration))
        as [v|] eqn:E; cbn [num] in Hp; [|lra].
      apply JsRecordFacts.get_Some_In in E.
      rewrite List.Forall_forall in Hall. apply Hall in E. cbn [snd] in E. lra.
    + exact Hlt.
Qed.


Lemma fatigueBias_zero duration : duration <= 2700 -> fatigueBias duration == 0.
Proof.
  intros H. unfold fatigueBias.
  assert (Qgtb duration 2700 = false) as -> by (apply Qgtb_false; exact H).
  assert (Qgtb duration 5400 = false) as -> by (apply Qgtb_false; lra).
  reflexivity.
Qed.

Lemma fatigueBias_le duration : fatigueBias duration <= 0.25.
Proof.
  unfold fatigueBias.
  destruct (Qgtb duration 2700), (Qgtb duration 5400); vm_compute; discriminate.
Qed.

Lemma fatigueBias_mono d d' : d <= d' -> fatigueBias d <= fatigueBias d'.
Proof.
  intros H. unfold fatigueBias.
  destruct (Qgtb d 2700) eqn:E1, (Qgtb d 5400) eqn:E2;
    try (apply Qgtb_true in E1); try (apply Qgtb_true in E2);
    try (assert (Qgtb d' 2700 = true) as -> by (apply Qgtb_true; lra));
    try (assert (Qgtb d' 5400 = true) as -> by (apply Qgtb_true; lra));
    destruct (Qgtb d' 2700), (Qgtb d' 5400); vm_compute; discriminate.
Qed.

Lemma labelWeight_absent k emotions :
  ~ In k (map fst emotions) -> labelWeight k emotions == 0.
Proof.
  induction emotions as [|[l w] rest IH]; simpl; intros H; [reflexivity|].
  destruct (String.eqb_spec k l) as [->|_]; [tauto|].
  rewrite IH by tauto. lra.
Qed.

Lemma Qdiv_le_compat a b c : 0 < c -> a <= b -> a / c <= b / c.
Proof.
  intros Hc Hab. unfold Qdiv. apply Qmult_le_compat_r; [exact Hab|].
  apply Qlt_le_weak, Qinv_lt_0_compat, Hc.
Qed.

Lemma presentWeight_positive emotions :
  emotions <> [] -> Forall (fun e => 0 < snd e) emotions -> 0 < presentWeight emotions.
Proof.
  intros Hne Hpos. destruct emotions as [|[l w] rest]; [congruence|].
  inversion Hpos as [|? ? Hw Hrest]; subst. cbn [snd] in Hw.
  pose proof (presentWeight_nonneg rest Hrest). simpl. lra.
Qed.

Lemma recompute_merged now s winner total :
  collectEmotions s <> [] ->
  fold_left dominantStep
    (JsRecord.entries (scoreEmotions (collectEmotions s) (sessionDuration s)))
    ("neutral", 0) = (winner, total) ->
  mergedEmotion (recomputeMergedEmotion now s) = winner
  /\ confidence (recomputeMergedEmotion now s) = Qmin total 1.
Proof.
  intros Hne Hfold. unfold recomputeMergedEmotion.
  destruct (collectEmotions s) as [|e es]; [congruence|].
  cbn [length Nat.eqb]. now rewrite Hfold.
Qed.



(** ** The weighted vote: when the first label wins *)

(** The label of the first present channel wins whenever no other label has
    a greater total: it is the first key of the table, and ties keep it. *)
Lemma head_label_wins l w rest duration :
  Forall (fun e => 0 < snd e) ((l, w) :: rest) ->
  (forall k, k <> l ->
     expectedTotal ((l, w) :: rest) duration k
     <= expectedTotal ((l, w) :: rest) duration l) ->
  exists total,
    fold_left dominantStep
      (JsRecord.entries (scoreEmotions ((l, w) :: rest) duration)) ("neutral", 0)
    = (l, total)
    /\ total == expectedTotal ((l, w) :: rest) duration l.
Proof.
  intros Hpos Hle.
  destruct (winner_of_scores ((l, w) :: rest) duration ltac:(discriminate) Hpos)
    as (before & winner & total & after & Hfold & Hsplit & Hb & _ & Htot & _).
  pose proof (scoreEmotions_keys ((l, w) :: rest) duration) as Hk.
  pose proof (scoreEmotions_entries ((l, w) :: rest) duration) as He.
  rewrite Hsplit in Hk, He.
  change (firstOccurrences (map fst ((l, w) :: rest) ++ ["tired"]))
    with (l :: firstOccurrencesFrom [l] (map fst rest ++ ["tired"])) in Hk.
  destruct before as [|[k0 v0] before'].
  - cbn in Hk. injection Hk as -> _. exists total. split; assumption.
  - exfalso. cbn in Hk. injection Hk as -> _.
    inversion Hb as [|? ? Hv0 _]; subst. cbn [snd] in Hv0.
    inversion He as [|? ? He0 _]; subst. cbn [fst snd] in He0.
    destruct (string_dec winner l) as [->|Hne].
    + lra.
    + specialize (Hle winner Hne). lra.
Qed.

Lemma labelWeight_le_present k emotions :
  Forall (fun e => 0 < snd e) emotions ->
  labelWeight k emotions <= presentWeight emotions.
Proof.
  induction 1 as [|[l w] rest Hw _ IH]; simpl in *; [lra|].
  destruct (String.eqb k l); lra.
Qed.

(** What the voice and the text channel can weigh together. *)
Lemma collectEmotions_facial s f :
  facialEmotion s = Some f ->
  exists rest,
    collectEmotions s
    = (SmoothedEmotionState.emotion f, EMOTION_WEIGHTS.facial) :: rest
    /\ presentWeight rest <= 0.5.
Proof.
  intros Hf. unfold collectEmotions. rewrite Hf.
  destruct (voiceEmotion s), (textEmotion s); eexists; (split; [reflexivity|]);
    vm_compute; discriminate.
Qed.

(** The vote with the facial channel present and no fatigue bias. *)
Lemma facial_vote s f :
  facialEmotion s = Some f ->
  sessionDuration s <= 2700 ->
  exists total,
    fold_left dominantStep
      (JsRecord.entries (scoreEmotions (collectEmotions s) (sessionDuration s)))
      ("neutral", 0)
    = (SmoothedEmotionState.emotion f, total)
    /\ 0.5 <= total.
Proof.
  intros Hf Hd.
  destruct (collectEmotions_facial s f Hf) as (rest & Hc & Hrest).
  pose proof (collectEmotions_positive s) as Hpos. rewrite Hc in Hpos.
  set (l := SmoothedEmotionState.emotion f) in *.
  assert (Forall (fun e => 0 < snd e) rest) as Hposr by (now inversion Hpos).
  pose proof (presentWeight_nonneg rest Hposr) as Hpw.
  pose proof (labelWeight_nonneg l rest Hposr) as Hl0.
  pose proof (fatigueBias_zero _ Hd) as Hb.
  assert (forall k,
             expectedTotal ((l, EMOTION_WEIGHTS.facial) :: rest) (sessionDuration s) k
             == labelWeight k ((l, EMOTION_WEIGHTS.facial) :: rest)
                / (0.5 + presentWeight rest)) as Hexp.
  { intros k. unfold expectedTotal.
    change (presentWeight ((l, EMOTION_WEIGHTS.facial) :: rest))
      with (0.5 + presentWeight rest).
    destruct (String.eqb k "tired"); [rewrite Hb|]; lra. }
  destruct (head_label_wins l EMOTION_WEIGHTS.facial rest (sessionDuration s) Hpos)
    as (total & Hfold & Htot).
  { intros k Hk. rewrite !Hexp. apply Qdiv_le_compat; [lra|].
    simpl. rewrite String.eqb_refl.
    destruct (String.eqb_spec k l) as [->|_]; [congruence|].
    pose proof (labelWeight_le_present k rest Hposr).
    change EMOTION_WEIGHTS.facial with 0.5. lra. }
  rewrite Hc. exists total. split; [exact Hfold|].
  rewrite Htot, Hexp. apply Qle_shift_div_l; [lra|].
  simpl. rewrite String.eqb_refl. change EMOTION_WEIGHTS.facial with 0.5. lra.
Qed.

(** X2.  Without the fatigue bias the face cannot be outvoted: when the
    facial channel is present and the session has lasted at most 2700
    seconds, the recompute merges the facial label, whatever the voice and
    the text channel report, with a confidence between 0.5 and 1. *)
Theorem facial_label_wins_without_bias now s f :
  facialEmotion s = Some f ->
  sessionDuration s <= 2700 ->
  mergedEmotion (recomputeMergedEmotion now s) = SmoothedEmotionState.emotion f
  /\ 0.5 <= confidence (recomputeMergedEmotion now s)
  /\ confidence (recomputeMergedEmotion now s) <= 1.
Proof.
  intros Hf Hd.
  destruct (facial_vote s f Hf Hd) as (total & Hfold & Hhalf).
  assert (collectEmotions s <> []) as Hne.
  { destruct (collectEmotions_facial s f Hf) as (rest & -> & _). discriminate. }
  destruct (recompute_merged now s _ total Hne Hfold) as [-> ->].
  split; [reflexivity|]. split; [|apply Q.le_min_r].
  apply Q.min_glb; [exact Hhalf | lra].
Qed.

Lemma facial_label_wins_without_bias_witness :
  mergedEmotion (recomputeMergedEmotion 4 (sampleFusion "stressed" "calm" "calm" 2700))
  = "stressed"
  /\ 0.5 <= confidence (recomputeMergedEmotion 4 (sampleFusion "stressed" "calm" "calm" 2700))
  /\ confidence (recomputeMergedEmotion 4 (sampleFusion "stressed" "calm" "calm" 2700)) <= 1.
Proof.
  apply (facial_label_wins_without_bias 4 (sampleFusion "stressed" "calm" "calm" 2700)
           (sampleSmoothed "stressed")).
  - reflexivity.
  - vm_compute. discriminate.
Defined.

Lemma labelWeight_unanimous l emotions :
  Forall (fun e => fst e = l) emotions ->
  labelWeight l emotions == presentWeight emotions.
Proof.
  induction 1 as [|[k w] rest Hk _ IH]; simpl in *; [reflexivity|].
  subst k. rewrite String.eqb_refl, IH. reflexivity.
Qed.

(** X3.  Unanimous channels: when every present channel reports the same
    label, the recompute merges that label with confidence 1, whatever the
    session duration. *)
Theorem unanimous_channels_merge now s label :
  reportedLabels s <> [] ->
  Forall (fun l => l = label) (reportedLabels s) ->
  mergedEmotion (recomputeMergedEmotion now s) = label
  /\ confidence (recomputeMergedEmotion now s) == 1.
Proof.
  unfold reportedLabels. intros Hne Hall.
  pose proof (collectEmotions_positive s) as Hpos.
  destruct (collectEmotions s) as [|[l w] rest] eqn:Hc; [now simpl in Hne|].
  assert (Forall (fun e => fst e = label) ((l, w) :: rest)) as Hall'
    by (apply List.Forall_map in Hall; exact Hall).
  assert (l = label) as -> by (inversion Hall' as [|? ? E _]; exact E).
  pose proof (labelWeight_unanimous label _ Hall') as Hlw.
  pose proof (presentWeight_positive ((label, w) :: rest) ltac:(discriminate) Hpos)
    as Hpw.
  pose proof (fatigueBias_nonneg (sessionDuration s)) as Hb0.
  pose proof (fatigueBias_le (sessionDuration s)) as Hb1.
  assert (1 <= expectedTotal ((label, w) :: rest) (sessionDuration s) label) as Hone.
  { unfold expectedTotal. rewrite Hlw.
    assert (presentWeight ((label, w) :: rest) / presentWeight ((label, w) :: rest) == 1)
      as -> by (field; lra).
    destruct (String.eqb label "tired"); lra. }
  destruct (head_label_wins label w rest (sessionDuration s) Hpos)
    as (total & Hfold & Htot).
  { intros k Hk. eapply Qle_trans; [|exact Hone].
    unfold expectedTotal. rewrite labelWeight_absent.
    - unfold Qdiv. destruct (String.eqb k "tired"); lra.
    - intros Hin. apply in_map_iff in Hin as (e & <- & Hin).
      rewrite List.Forall_forall in Hall'. apply Hall' in Hin. congruence. }
  rewrite <- Hc in Hfold.
  destruct (recompute_merged now s label total ltac:(rewrite Hc; discriminate) Hfold)
    as [-> ->].
  split; [reflexivity|]. apply Q.min_r. lra.
Qed.

Lemma unanimous_channels_merge_witness :
  mergedEmotion (recomputeMergedEmotion 4 (sampleFusion "calm" "calm" "calm" 6000))
  = "calm"
  /\ confidence (recomputeMergedEmotion 4 (sampleFusion "calm" "calm" "calm" 6000)) == 1.
Proof.
  apply (unanimous_channels_merge 4 (sampleFusion "calm" "calm" "calm" 6000) "calm").
  - simpl. discriminate.
  - simpl. repeat constructor.
Defined.

(** ** The fatigue bias over time *)

Lemma split_two {A : Type} (a b : A) l1 : forall l2 l3 l4,
  l1 ++ a :: l2 = l3 ++ b :: l4 -> a <> b ->
  In b l1 \/ (In b l2 /\ In a l3).
Proof.
  induction l1 as [|x l1 IH]; intros l2 l3 l4 H Hne.
  - destruct l3 as [|y l3]; simpl in H; injection H as ? ?; [congruence|].
    subst. right. split; [|now left]. apply in_app_iff. right. now left.
  - destruct l3 as [|y l3]; simpl in H; injection H as ? ?; subst.
    + left. now left.
    + destruct (IH _ _ _ H0 Hne) as [Hin|[Hin1 Hin2]].
      * left. now right.
      * right. split; [exact Hin1 | now right].
Qed.

Lemma expectedTotal_other_duration emotions d d' k :
  k <> "tired" -> expectedTotal emotions d k == expectedTotal emotions d' k.
Proof.
  intros Hk. unfold expectedTotal.
  destruct (String.eqb_spec k "tired"); [congruence | reflexivity].
Qed.

Lemma expectedTotal_tired_mono emotions d d' :
  d <= d' -> expectedTotal emotions d "tired" <= expectedTotal emotions d' "tired".
Proof.
  intros H. unfold expectedTotal. cbn [String.eqb Ascii.eqb Bool.eqb].
  pose proof (fatigueBias_mono d d' H). lra.
Qed.

Lemma entry_total emotions duration k v :
  In (k, v) (scoreEmotions emotions duration) ->
  v == expectedTotal emotions duration k.
Proof.
  intros Hin. pose proof (scoreEmotions_entries emotions duration) as He.
  rewrite List.Forall_forall in He. exact (He _ Hin).
Qed.

(** Once "tired" wins the vote, it wins for every longer session. *)
Lemma tired_stays_winner emotions d d' total :
  emotions <> [] ->
  Forall (fun e => 0 < snd e) emotions ->
  d <= d' ->
  fold_left dominantStep (JsRecord.entries (scoreEmotions emotions d)) ("neutral", 0)
  = ("tired", total) ->
  exists total',
    fold_left dominantStep (JsRecord.entries (scoreEmotions emotions d')) ("neutral", 0)
    = ("tired", total')
    /\ total <= total'.
Proof.
  intros Hne Hpos Hd Hfold.
  destruct (winner_of_scores emotions d Hne Hpos)
    as (before & w & t & after & Hfold1 & Hsplit & Hb & Ha & Htot & _).
  rewrite Hfold in Hfold1. injection Hfold1 as <- <-.
  destruct (winner_of_scores emotions d' Hne Hpos)
    as (before' & w' & total' & after' & Hfold' & Hsplit' & Hb' & Ha' & Htot' & _).
  pose proof (expectedTotal_tired_mono emotions d d' Hd) as Hmono.
  destruct (string_dec w' "tired") as [->|Hw'].
  { exists total'. split; [exact Hfold' | lra]. }
  exfalso.
  pose proof (scoreEmotions_keys emotions d) as Hk.
  pose proof (scoreEmotions_keys emotions d') as Hk'.
  rewrite <- Hk' in Hk. rewrite Hsplit, Hsplit' in Hk.
  unfold JsRecord.keys in Hk. rewrite !map_app in Hk. cbn [map fst] in Hk.
  apply split_two in Hk; [|congruence].
  assert (exists vt, In ("tired", vt) (scoreEmotions emotions d')
                     /\ vt <= total') as (vt & Hint & Hvt).
  { assert (In "tired" (JsRecord.keys (scoreEmotions emotions d'))) as Hin.
    { rewrite Hk'. change (firstOccurrences (map fst emotions ++ ["tired"]))
        with (firstOccurrencesFrom [] (map fst emotions ++ ["tired"])).
      pose proof (firstOccurrencesFrom_snoc "tired" (map fst emotions) []) as Hs.
      cbn [app] in Hs. rewrite Hs. apply addKey_In. }
    apply in_map_iff in Hin as ([k vt] & Hkey & Hin). cbn [fst] in Hkey. subst k.
    exists vt. split; [exact Hin|].
    rewrite Hsplit' in Hin. apply in_app_iff in Hin as [Hin|[Hin|Hin]].
    - rewrite List.Forall_forall in Hb'. apply Hb' in Hin. cbn [snd] in Hin. lra.
    - injection Hin as _ <-. lra.
    - rewrite List.Forall_forall in Ha'. apply Ha' in Hin. exact Hin. }
  pose proof (entry_total _ _ _ _ Hint) as Evt.
  pose proof (expectedTotal_other_duration emotions d d' w' Hw') as Eother.
  destruct Hk as [Hin|[Hin Hin']].
  - apply in_map_iff in Hin as ([k v] & Hkey & Hin). cbn [fst] in Hkey. subst k.
    assert (In (w', v) (scoreEmotions emotions d)) as Hin2
      by (rewrite Hsplit; apply in_app_iff; now left).
    apply entry_total in Hin2.
    rewrite List.Forall_forall in Hb. apply Hb in Hin. cbn [snd] in Hin. lra.
  - apply in_map_iff in Hin as ([k v] & Hkey & Hin). cbn [fst] in Hkey. subst k.
    assert (In (w', v) (scoreEmotions emotions d)) as Hin2
      by (rewrite Hsplit; apply in_app_iff; right; now right).
    apply entry_total in Hin2.
    rewrite List.Forall_forall in Ha. apply Ha in Hin. cbn [snd] in Hin.
    apply in_map_iff in Hin' as ([k vt'] & Hkey & Hin'). cbn [fst] in Hkey. subst k.
    assert (In ("tired", vt') (scoreEmotions emotions d')) as Hin3
      by (rewrite Hsplit'; apply in_app_iff; now left).
    apply entry_total in Hin3.
    rewrite List.Forall_forall in Hb'. apply Hb' in Hin'. cbn [snd] in Hin'. lra.
Qed.

(** X4.  The fatigue bias is monotone in time: if updating the session
    duration to [d] makes "tired" the merged label, updating it to any
    longer duration (on the same channel readings) does so too, with a
    confidence that is at least as high. *)
Theorem longer_session_keeps_tired now now' d d' s :
  d <= d' ->
  mergedEmotion (updateSessionDuration now d s) = "tired" ->
  mergedEmotion (updateSessionDuration now' d' s) = "tired"
  /\ confidence (updateSessionDuration now d s)
     <= confidence (updateSessionDuration now' d' s).
Proof.
  intros Hd Ht. unfold updateSessionDuration in *.
  set (sd := {| facialEmotion := facialEmotion s; voiceEmotion := voiceEmotion s;
                textEmotion := textEmotion s; sessionDuration := d;
                mergedEmotion := mergedEmotion s; confidence := confidence s;
                lastUpdate := lastUpdate s; emotionHistory := emotionHistory s |}) in *.
  set (sd' := {| facialEmotion := facialEmotion s; voiceEmotion := voiceEmotion s;
                 textEmotion := textEmotion s; sessionDuration := d';
                 mergedEmotion := mergedEmotion s; confidence := confidence s;
                 lastUpdate := lastUpdate s; emotionHistory := emotionHistory s |}).
  assert (collectEmotions sd = collectEmotions s) as Ec by reflexivity.
  assert (collectEmotions sd' = collectEmotions s) as Ec' by reflexivity.
  destruct (collectEmotions s) as [|e es] eqn:E.
  { unfold recomputeMergedEmotion in Ht. rewrite Ec in Ht. simpl in Ht. discriminate. }
  pose proof (collectEmotions_positive s) as Hpos. rewrite E in Hpos.
  destruct (winner_of_scores (e :: es) d ltac:(discriminate) Hpos)
    as (b & w & t & a & Hfold & _).
  assert (collectEmotions sd <> []) as Hne by (rewrite Ec; discriminate).
  assert (collectEmotions sd' <> []) as Hne' by (rewrite Ec'; discriminate).
  destruct (recompute_merged now sd w t Hne) as [Hm Hc];
    [rewrite Ec; exact Hfold|].
  rewrite Hm in Ht. subst w.
  destruct (tired_stays_winner (e :: es) d d' t ltac:(discriminate) Hpos Hd Hfold)
    as (t' & Hfold' & Hle).
  destruct (recompute_merged now' sd' "tired" t' Hne') as [Hm' Hc'];
    [rewrite Ec'; exact Hfold'|].
  rewrite Hm', Hc, Hc'. split; [reflexivity|].
  apply Q.min_le_compat_r. exact Hle.
Qed.

Lemma longer_session_keeps_tired_witness :
  mergedEmotion (updateSessionDuration 9 6000 (sampleFusion "tired" "happy" "happy" 0))
  = "tired"
  /\ confidence (updateSessionDuration 8 3000 (sampleFusion "tired" "happy" "happy" 0))
     <= confidence (updateSessionDuration 9 6000 (sampleFusion "tired" "happy" "happy" 0)).
Proof.
  apply (longer_session_keeps_tired 8 9 3000 6000 (sampleFusion "tired" "happy" "happy" 0)).
  - vm_compute. discriminate.
  - vm_compute. reflexivity.
Defined.

(** ** Invariants of the fusion engine *)

Lemma recompute_confidence_range now s :
  0 < confidence (recomputeMergedEmotion now s)
  /\ confidence (recomputeMergedEmotion now s) <= 1.
Proof.
  destruct (collectEmotions s) as [|e es] eqn:E.
  - unfold recomputeMergedEmotion. rewrite E. simpl. split; vm_compute; congruence.
  - pose proof (collectEmotions_positive s) as Hpos. rewrite E in Hpos.
    destruct (winner_of_scores (e :: es) (sessionDuration s) ltac:(discriminate) Hpos)
      as (b & w & t & a & Hfold & _ & _ & _ & _ & Ht).
    rewrite <- E in Hfold.
    destruct (recompute_merged now s w t ltac:(rewrite E; discriminate) Hfold)
      as [_ ->].
    split; [apply Q.min_glb_lt; lra | apply Q.le_min_r].
Qed.

Lemma engineStep_confidence s op :
  0 < confidence (engineStep s op) /\ confidence (engineStep s op) <= 1.
Proof.
  destruct op as [[now now' f | now now' v | now now' x] | now seconds | now];
    simpl; try apply recompute_confidence_range.
  split; vm_compute; congruence.
Qed.

(** X5.  The confidence that the engine exposes is always in (0, 1]: after
    every sequence of channel updates, duration updates and resets on a new
    engine, whatever confidences and durations the callers pass in. *)
Theorem confidence_always_in_range ops now :
  0 < confidence (runEngine ops (initialState now))
  /\ confidence (runEngine ops (initialState now)) <= 1.
Proof.
  induction ops as [|op ops IH] using rev_ind.
  - simpl. split; vm_compute; congruence.
  - unfold runEngine. rewrite fold_left_app. simpl. apply engineStep_confidence.
Qed.

Lemma pushBounded_Forall {A} (P : A -> Prop) n x l :
  Forall P l -> P x -> Forall P (pushBounded n x l).
Proof.
  intros Hl Hx. assert (Forall P (l ++ [x])) as H
    by (apply Forall_app; split; [exact Hl | constructor; [exact Hx | constructor]]).
  unfold pushBounded. destruct (n <? length (l ++ [x]))%nat; [|exact H].
  destruct (l ++ [x]); [constructor | now inversion H].
Qed.

Lemma engineStep_sources s op :
  Forall (fun e => HistoryEntry.source e = merged) (emotionHistory s) ->
  Forall (fun e => HistoryEntry.source e = merged) (emotionHistory (engineStep s op)).
Proof.
  intros H. destruct op as [u | now seconds | now]; simpl.
  - rewrite channelStep_history. now apply pushBounded_Forall.
  - unfold updateSessionDuration. rewrite recompute_history.
    destruct (length _ =? 0)%nat; [exact H | now apply pushBounded_Forall].
  - constructor.
Qed.

(** X6.  The history only ever holds merge results: after every sequence of
    operations on a new engine, every entry of [emotionHistory] has source
    'merged' (the sources 'facial', 'voice' and 'text' of the type are never
    written). *)
Theorem history_holds_merged_entries_only ops now :
  Forall (fun e => HistoryEntry.source e = merged)
         (emotionHistory (runEngine ops (initialState now))).
Proof.
  induction ops as [|op ops IH] using rev_ind.
  - constructor.
  - unfold runEngine. rewrite fold_left_app. simpl. now apply engineStep_sources.
Qed.

Lemma last_pushBounded {A} n (x : A) l :
  (0 < n)%nat -> last (pushBounded n x l) = Some x.
Proof.
  intros Hn. unfold pushBounded.
  destruct (n <? length (l ++ [x]))%nat eqn:E; [|apply last_snoc].
  destruct l as [|a l]; simpl.
  - apply Nat.ltb_lt in E. simpl in E. lia.
  - apply last_snoc.
Qed.

Lemma collectEmotions_recompute now s :
  collectEmotions (recomputeMergedEmotion now s) = collectEmotions s.
Proof.
  destruct (recompute_frame now s) as (Hf & Hv & Hx & _).
  unfold collectEmotions. now rewrite Hf, Hv, Hx.
Qed.

Lemma engineStep_newest s op :
  collectEmotions (engineStep s op) <> [] ->
  newestLogged (engineStep s op) = Some (mergedEmotion (engineStep s op)).
Proof.
  unfold newestLogged. destruct op as [u | now seconds | now]; cbn [engineStep].
  - intros _. rewrite channelStep_history, last_pushBounded; [reflexivity|].
    unfold emotionHistoryLimit. lia.
  - unfold updateSessionDuration. rewrite collectEmotions_recompute, recompute_history.
    intros Hne. destruct (collectEmotions _) as [|e es]; [congruence|].
    cbn [length Nat.eqb]. rewrite last_pushBounded; [reflexivity|].
    unfold emotionHistoryLimit. lia.
  - intros H. now elim H.
Qed.

(** X7.  The log follows the merge: after every sequence of operations on a
    new engine, if a channel is present then the newest entry of
    [emotionHistory] carries the current [mergedEmotion]. *)
Theorem newest_history_entry_is_merged ops now :
  collectEmotions (runEngine ops (initialState now)) <> [] ->
  newestLogged (runEngine ops (initialState now))
  = Some (mergedEmotion (runEngine ops (initialState now))).
Proof.
  destruct ops as [|op ops] using rev_ind.
  - intros H. now elim H.
  - unfold runEngine. rewrite fold_left_app. simpl. apply engineStep_newest.
Qed.

Lemma newest_history_entry_is_merged_witness :
  newestLogged (runEngine [OUpdate (UText 1 1 (sampleText "sad"));
                           OSessionDuration 2 6000] (initialState 0))
  = Some (mergedEmotion
            (runEngine [OUpdate (UText 1 1 (sampleText "sad"));
                        OSessionDuration 2 6000] (initialState 0))).
Proof.
  apply (newest_history_entry_is_merged
           [OUpdate (UText 1 1 (sampleText "sad")); OSessionDuration 2 6000] 0).
  vm_compute. discriminate.
Defined.

(** ** The smoother on arbitrary windows *)

Lemma countQ_le_inv n m : countQ n <= countQ m -> (n <= m)%nat.
Proof. unfold countQ. rewrite <- Zle_Qle. lia. Qed.

Lemma countQ_lt_inv n m : countQ n < countQ m -> (n < m)%nat.
Proof. unfold countQ. rewrite <- Zlt_Qlt. lia. Qed.

Lemma tally_keys_first window : forall counts sums,
  JsRecord.keys (fst (fold_left tallyStep window (counts, sums)))
  = JsRecord.keys counts
    ++ firstOccurrencesFrom (JsRecord.keys counts)
                            (map FacialEmotionData.emotion window).
Proof.
  induction window as [|d rest IH]; intros counts sums.
  - simpl. now rewrite app_nil_r.
  - cbn [fold_left tallyStep map firstOccurrencesFrom].
    rewrite IH, keys_set_addKey. unfold addKey.
    destruct (existsb (String.eqb (FacialEmotionData.emotion d)) (JsRecord.keys counts));
      [reflexivity|].
    now rewrite <- app_assoc.
Qed.

(** What [getSmoothedEmotion] computes on a non-empty window, in terms of the
    table of counts. *)
Lemma smoothed_of_window now window :
  window <> [] ->
  exists counts sums before winner mx after,
    tally window = (counts, sums)
    /\ counts = before ++ (winner, mx) :: after
    /\ Forall (fun e => snd e < mx) before
    /\ Forall (fun e => snd e <= mx) after
    /\ 0 < mx
    /\ getSmoothedEmotion now window =
       {| SmoothedEmotionState.emotion := winner;
          SmoothedEmotionState.confidence :=
            Qmin (num (JsRecord.get winner sums) / num (JsRecord.get winner counts)) 1;
          SmoothedEmotionState.history := window;
          SmoothedEmotionState.lastUpdate := now |}.
Proof.
  intros Hne.
  pose proof (getSmoothedEmotion_reads_present window Hne) as Hread.
  cbv zeta in Hread.
  unfold getSmoothedEmotion.
  destruct window as [|d0 rest] eqn:Ew; [congruence|]. rewrite <- Ew in *.
  replace (length window =? 0)%nat with false by (now rewrite Ew).
  destruct (tally window) as [counts sums]. cbn [fst snd] in Hread.
  pose proof (dominantStep_spec (JsRecord.entries counts) ("neutral", 0)) as Hd.
  destruct (fold_left dominantStep (JsRecord.entries counts) ("neutral", 0))
    as [winner mx].
  cbn [fst] in Hread. destruct Hread as (n & c & Hn & Hc & Hpos).
  inversion Hd as [Hall | l1 l2 d m Hl Hlt H1 H2]; subst.
  - exfalso. apply JsRecordFacts.get_Some_In in Hn.
    rewrite List.Forall_forall in Hall. apply Hall in Hn. cbn [snd] in Hn. lra.
  - exists counts, sums, l1, winner, mx, l2. cbn [snd] in Hlt.
    repeat split; assumption.
Qed.

(** The label that wins the vote occurs in the window. *)
Lemma smoothed_winner_occurs now window :
  window <> [] ->
  (0 < occurrences (SmoothedEmotionState.emotion (getSmoothedEmotion now window))
                   window)%nat.
Proof.
  intros Hne.
  destruct (smoothed_of_window now window Hne)
    as (counts & sums & before & winner & mx & after & Ht & Hsplit & _ & _ & Hmx & ->).
  cbn [SmoothedEmotionState.emotion].
  pose proof (tally_counts window JsRecord.empty JsRecord.empty winner) as Hc.
  pose proof (tally_NoDup window JsRecord.empty JsRecord.empty (List.NoDup_nil _)) as Hnd.
  unfold tally in Ht. rewrite Ht in Hc, Hnd.
  cbn [fst JsRecord.get JsRecord.empty JsRecord.keys map num] in Hc, Hnd.
  assert (In (winner, mx) counts) as Hw
    by (rewrite Hsplit; apply in_app_iff; right; now left).
  apply JsRecordFacts.In_get in Hw; [|exact Hnd]. rewrite Hw in Hc. cbn [num] in Hc.
  apply countQ_lt_inv. change (countQ 0) with 0. lra.
Qed.

(** X8.  The smoothed label is the most frequent label of the window, and
    among labels of equal frequency the one that entered the window first: on
    every non-empty window, the label returned occurs in the window, no label
    occurs more often, and every label whose first occurrence is earlier
    occurs strictly less often. *)
Theorem smoothed_label_is_first_most_frequent now window :
  window <> [] ->
  let winner := SmoothedEmotionState.emotion (getSmoothedEmotion now window) in
  (0 < occurrences winner window)%nat
  /\ (forall l, (occurrences l window <= occurrences winner window)%nat)
  /\ exists before after,
      firstOccurrences (map FacialEmotionData.emotion window)
      = before ++ winner :: after
      /\ Forall (fun l => (occurrences l window < occurrences winner window)%nat)
                before.
Proof.
  intros Hne winner. subst winner.
  destruct (smoothed_of_window now window Hne)
    as (counts & sums & before & winner & mx & after & Ht & Hsplit & Hb & Ha & _ & ->).
  cbn [SmoothedEmotionState.emotion].
  pose proof (tally_counts window JsRecord.empty JsRecord.empty) as Hc.
  pose proof (tally_NoDup window JsRecord.empty JsRecord.empty (List.NoDup_nil _)) as Hnd.
  pose proof (tally_keys_first window JsRecord.empty JsRecord.empty) as Hk.
  unfold tally in Ht. rewrite Ht in Hc, Hnd, Hk.
  cbn [fst JsRecord.get JsRecord.empty JsRecord.keys map app num] in Hc, Hnd, Hk.
  assert (forall k v, In (k, v) counts -> v == countQ (occurrences k window)) as Hval.
  { intros k v Hin. apply JsRecordFacts.In_get in Hin; [|exact Hnd].
    specialize (Hc k). rewrite Hin in Hc. cbn [num] in Hc. lra. }
  assert (In (winner, mx) counts) as Hw
    by (rewrite Hsplit; apply in_app_iff; right; now left).
  pose proof (Hval _ _ Hw) as Hmx.
  assert (forall k v, In (k, v) counts -> v <= mx) as Hmax.
  { intros k v Hin. rewrite Hsplit in Hin. apply in_app_iff in Hin as [Hin|[Hin|Hin]].
    - rewrite List.Forall_forall in Hb. apply Hb in Hin. cbn [snd] in Hin. lra.
    - injection Hin as _ <-. lra.
    - rewrite List.Forall_forall in Ha. apply Ha in Hin. exact Hin. }
  assert (forall l, (occurrences l window <= occurrences winner window)%nat) as Hall.
  { intros l. apply countQ_le_inv. specialize (Hc l).
    destruct (JsRecord.get l counts) as [v|] eqn:E; cbn [num] in Hc.
    - apply JsRecordFacts.get_Some_In in E. pose proof (Hmax _ _ E). lra.
    - assert (0 <= countQ (occurrences winner window))
        by (unfold countQ; change 0 with (inject_Z 0); rewrite <- Zle_Qle; lia).
      lra. }
  split; [|split; [exact Hall|]].
  - destruct window as [|d0 rest]; [congruence|].
    specialize (Hall (FacialEmotionData.emotion d0)).
    rewrite occurrences_cons, String.eqb_refl in Hall. lia.
  - exists (map fst before), (map fst after). split.
    + change (firstOccurrences (map FacialEmotionData.emotion window))
        with (firstOccurrencesFrom [] (map FacialEmotionData.emotion window)).
      rewrite <- Hk, Hsplit. unfold JsRecord.keys. now rewrite map_app.
    + apply List.Forall_forall. intros l Hin.
      apply in_map_iff in Hin as ([k v] & <- & Hin). cbn [fst].
      apply countQ_lt_inv.
      assert (In (k, v) counts) as Hin' by (rewrite Hsplit; apply in_app_iff; now left).
      apply Hval in Hin'.
      rewrite List.Forall_forall in Hb. apply Hb in Hin. cbn [snd] in Hin. lra.
Qed.

Lemma smoothed_label_is_first_most_frequent_witness :
  (0 < occurrences (SmoothedEmotionState.emotion (getSmoothedEmotion 4 sampleWindow))
                   sampleWindow)%nat
  /\ (forall l, (occurrences l sampleWindow
                 <= occurrences (SmoothedEmotionState.emotion
                                   (getSmoothedEmotion 4 sampleWindow))
                                sampleWindow)%nat)
  /\ exists before after,
      firstOccurrences (map FacialEmotionData.emotion sampleWindow)
      = before ++ SmoothedEmotionState.emotion (getSmoothedEmotion 4 sampleWindow)
               :: after
      /\ Forall (fun l => (occurrences l sampleWindow
                           < occurrences (SmoothedEmotionState.emotion
                                            (getSmoothedEmotion 4 sampleWindow))
                                         sampleWindow)%nat)
                before.
Proof.
  apply (smoothed_label_is_first_most_frequent 4 sampleWindow). discriminate.
Defined.

Lemma confidenceSum_nonneg label window :
  Forall (fun d => 0 <= FacialEmotionData.confidence d) window ->
  0 <= confidenceSum label window.
Proof.
  induction 1 as [|d rest Hd _ IH]; cbn [confidenceSum]; [lra|].
  destruct (String.eqb (FacialEmotionData.emotion d) label); lra.
Qed.

(** X9.  The smoothed confidence is the mean confidence of the winning
    label, capped at 1: on every non-empty window it equals
    [min(mean, 1)]; it never exceeds 1, and it is not negative when no
    recorded confidence is. *)
Theorem smoothed_confidence_is_capped_mean now window :
  window <> [] ->
  let r := getSmoothedEmotion now window in
  SmoothedEmotionState.confidence r
  == Qmin (meanConfidence (SmoothedEmotionState.emotion r) window) 1
  /\ SmoothedEmotionState.confidence r <= 1
  /\ (Forall (fun d => 0 <= FacialEmotionData.confidence d) window ->
      0 <= SmoothedEmotionState.confidence r).
Proof.
  intros Hne r. subst r.
  pose proof (smoothed_winner_occurs now window Hne) as Hocc.
  destruct (smoothed_of_window now window Hne)
    as (counts & sums & before & winner & mx & after & Ht & Hsplit & Hb & Ha & _ & E).
  rewrite E in *. cbn [SmoothedEmotionState.emotion SmoothedEmotionState.confidence] in *.
  pose proof (tally_counts window JsRecord.empty JsRecord.empty winner) as Hc.
  pose proof (tally_sums window JsRecord.empty JsRecord.empty winner) as Hs.
  unfold tally in Ht. rewrite Ht in Hc, Hs.
  cbn [fst snd JsRecord.get JsRecord.empty num] in Hc, Hs.
  assert (num (JsRecord.get winner sums) / num (JsRecord.get winner counts)
          == meanConfidence winner window) as Hmean.
  { unfold meanConfidence. rewrite Hs, Hc, !Qplus_0_l. reflexivity. }
  split; [now rewrite Hmean|]. split; [apply Q.le_min_r|].
  intros Hpos. apply Q.min_glb; [|lra]. rewrite Hmean. unfold meanConfidence.
  apply countQ_lt in Hocc. change (countQ 0) with 0 in Hocc.
  pose proof (confidenceSum_nonneg winner window Hpos).
  apply Qle_shift_div_l; [exact Hocc | lra].
Qed.

Lemma smoothed_confidence_is_capped_mean_witness :
  SmoothedEmotionState.confidence (getSmoothedEmotion 4 sampleWindow)
  == Qmin (meanConfidence
             (SmoothedEmotionState.emotion (getSmoothedEmotion 4 sampleWindow))
             sampleWindow) 1
  /\ SmoothedEmotionState.confidence (getSmoothedEmotion 4 sampleWindow) <= 1
  /\ 0 <= SmoothedEmotionState.confidence (getSmoothedEmotion 4 sampleWindow).
Proof.
  destruct (smoothed_confidence_is_capped_mean 4 sampleWindow ltac:(discriminate))
    as (H1 & H2 & H3).
  split; [exact H1|]. split; [exact H2|].
  apply H3. repeat constructor; vm_compute; discriminate.
Defined.

(** ** The detector: labels, confidences, life cycle *)

Lemma dominantExpression_entry e :
  In (dominantExpression e) (Expressions.entries e)
  /\ Expressions.neutral e <= snd (dominantExpression e).
Proof.
  pose proof (dominantStep_spec (Expressions.entries e)
                ("neutral", Expressions.neutral e)) as Hd.
  fold (dominantExpression e) in Hd.
  pose proof (dominantOf_max _ _ _ Hd) as [Hle _]. cbn [snd] in Hle.
  split; [|exact Hle].
  inversion Hd as [Hall | l1 l2 d m Hl Hlt H1 H2].
  - simpl. now left.
  - rewrite Hl. apply in_app_iff. right. now left.
Qed.

Lemma mapEmotion_range raw : In (mapEmotion raw) detectorLabels.
Proof.
  unfold mapEmotion, detectorLabels.
  repeat (match goal with
          | |- context [String.eqb raw ?l] => destruct (String.eqb raw l)
          end; [simpl; tauto|]).
  simpl. tauto.
Qed.

Lemma processFaceExpressions_fields now e :
  FacialEmotionData.emotion (processFaceExpressions now e)
  = mapEmotion (fst (dominantExpression e))
  /\ FacialEmotionData.confidence (processFaceExpressions now e)
     = snd (dominantExpression e).
Proof. unfold processFaceExpressions. now destruct (dominantExpression e). Qed.

Lemma processFaceExpressions_valid now e :
  validExpressions e ->
  0 <= FacialEmotionData.confidence (processFaceExpressions now e)
  /\ FacialEmotionData.confidence (processFaceExpressions now e) <= 1.
Proof.
  intros Hvalid. destruct (processFaceExpressions_fields now e) as [_ ->].
  destruct (dominantExpression_entry e) as [Hin _].
  unfold validExpressions in Hvalid. rewrite List.Forall_forall in Hvalid.
  exact (Hvalid _ Hin).
Qed.

(** X10.  [processFaceExpressions] only assigns the labels happy, tired,
    stressed, focused and neutral; the confidence it records is at least the
    neutral score, and it is a probability when the seven scores are. *)
Theorem processFaceExpressions_range now e :
  let r := processFaceExpressions now e in
  In (FacialEmotionData.emotion r) detectorLabels
  /\ Expressions.neutral e <= FacialEmotionData.confidence r
  /\ (validExpressions e ->
      0 <= FacialEmotionData.confidence r /\ FacialEmotionData.confidence r <= 1).
Proof.
  intros r. subst r.
  destruct (processFaceExpressions_fields now e) as [El Ec].
  split; [|split].
  - rewrite El. apply mapEmotion_range.
  - rewrite Ec. apply dominantExpression_entry.
  - apply processFaceExpressions_valid.
Qed.

Lemma processFaceExpressions_range_witness :
  In (FacialEmotionData.emotion (processFaceExpressions 1 calmFace)) detectorLabels
  /\ Expressions.neutral calmFace
     <= FacialEmotionData.confidence (processFaceExpressions 1 calmFace)
  /\ 0 <= FacialEmotionData.confidence (processFaceExpressions 1 calmFace)
  /\ FacialEmotionData.confidence (processFaceExpressions 1 calmFace) <= 1.
Proof.
  destruct (processFaceExpressions_range 1 calmFace) as (H1 & H2 & H3).
  split; [exact H1|]. split; [exact H2|].
  apply H3. unfold validExpressions. simpl.
  repeat constructor; vm_compute; discriminate.
Defined.

Lemma occurrences_positive_In l window :
  (0 < occurrences l window)%nat ->
  exists d, In d window /\ FacialEmotionData.emotion d = l.
Proof.
  induction window as [|d rest IH]; [unfold occurrences; simpl; lia|].
  rewrite occurrences_cons.
  destruct (String.eqb_spec (FacialEmotionData.emotion d) l) as [E|_].
  - intros _. exists d. split; [now left | exact E].
  - intros H. destruct (IH H) as (d' & Hin & E). exists d'. split; [now right | exact E].
Qed.

(** The smoothed state of a window inherits what holds of its entries. *)
Lemma smoothed_label_from_window now window :
  Forall (fun d => In (FacialEmotionData.emotion d) detectorLabels) window ->
  In (SmoothedEmotionState.emotion (getSmoothedEmotion now window)) detectorLabels.
Proof.
  intros Hall. destruct window as [|d0 rest] eqn:E.
  - vm_compute. tauto.
  - rewrite <- E in *.
    pose proof (smoothed_winner_occurs now window ltac:(rewrite E; discriminate))
      as Hocc.
    apply occurrences_positive_In in Hocc as (d & Hin & Hd). rewrite <- Hd.
    rewrite List.Forall_forall in Hall. now apply Hall.
Qed.

Lemma smoothed_confidence_from_window now window :
  Forall (fun d => 0 <= FacialEmotionData.confidence d) window ->
  0 <= SmoothedEmotionState.confidence (getSmoothedEmotion now window)
  /\ SmoothedEmotionState.confidence (getSmoothedEmotion now window) <= 1.
Proof.
  intros Hall. destruct window as [|d0 rest] eqn:E.
  - split; vm_compute; discriminate.
  - rewrite <- E in *.
    assert (window <> []) as Hne by (rewrite E; discriminate).
    pose proof (smoothed_winner_occurs now window Hne) as Hocc.
    destruct (smoothed_of_window now window Hne)
      as (counts & sums & before & winner & mx & after & Ht & _ & _ & _ & _ & Er).
    rewrite Er in *.
    cbn [SmoothedEmotionState.emotion SmoothedEmotionState.confidence] in *.
    split; [|apply Q.le_min_r].
    pose proof (tally_counts window JsRecord.empty JsRecord.empty winner) as Hc.
    pose proof (tally_sums window JsRecord.empty JsRecord.empty winner) as Hs.
    unfold tally in Ht. rewrite Ht in Hc, Hs.
    cbn [fst snd JsRecord.get JsRecord.empty num] in Hc, Hs.
    apply Q.min_glb; [|lra]. rewrite Hs, Hc, !Qplus_0_l.
    apply countQ_lt in Hocc. change (countQ 0) with 0 in Hocc.
    pose proof (confidenceSum_nonneg winner window Hall).
    apply Qle_shift_div_l; [exact Hocc | lra].
Qed.

Lemma detectorStep_window (P : FacialEmotionData.t -> Prop) d op :
  (forall now now' e, op = DTick now now' (Some e) ->
                      P (processFaceExpressions now e)) ->
  Forall P (Detector.emotionHistory d) ->
  Forall P (Detector.emotionHistory (detectorStep d op)).
Proof.
  intros Hnew Hd. destruct op as [| now now' [e|] | |]; simpl; try assumption;
    try constructor.
  - unfold detectionTick. destruct (Detector.isRunning d); simpl; [|exact Hd].
    apply pushBounded_Forall; [exact Hd|]. now apply (Hnew now now').
  - unfold detectionTick. now destruct (Detector.isRunning d).
Qed.

Lemma runDetector_labels ops : forall d,
  Forall (fun x => In (FacialEmotionData.emotion x) detectorLabels)
         (Detector.emotionHistory d) ->
  Forall (fun x => In (FacialEmotionData.emotion x) detectorLabels)
         (Detector.emotionHistory (runDetector ops d)).
Proof.
  induction ops as [|op ops IH]; intros d H; simpl; [exact H|].
  apply IH. apply detectorStep_window; [|exact H].
  intros now now' e _. destruct (processFaceExpressions_fields now e) as [-> _].
  apply mapEmotion_range.
Qed.

(** X11.  Whatever the classifier returns and whenever the detector is
    started, stopped or cleared, the label that [getCurrentEmotion] reports is
    one of happy, tired, stressed, focused and neutral. *)
Theorem detector_reports_five_labels ops now :
  In (SmoothedEmotionState.emotion
        (getCurrentEmotion now (runDetector ops Detector.init)))
     detectorLabels.
Proof.
  unfold getCurrentEmotion. apply smoothed_label_from_window.
  apply runDetector_labels. constructor.
Qed.

Lemma runDetector_confidences ops : forall d,
  Forall validDetectorOp ops ->
  Forall (fun x => 0 <= FacialEmotionData.confidence x)
         (Detector.emotionHistory d) ->
  Forall (fun x => 0 <= FacialEmotionData.confidence x)
         (Detector.emotionHistory (runDetector ops d)).
Proof.
  induction ops as [|op ops IH]; intros d Hv H; simpl; [exact H|].
  inversion Hv as [|? ? Hop Hops]; subst.
  apply IH; [exact Hops|]. apply detectorStep_window; [|exact H].
  intros now now' e ->. simpl in Hop.
  now apply processFaceExpressions_valid.
Qed.

Lemma MathRound_percent c : 0 <= c -> c <= 1 ->
  (0 <= MathRound (c * 100) <= 100)%Z.
Proof.
  intros H0 H1. unfold MathRound.
  assert (1 / 2 <= c * 100 + 1 / 2) as Hlo by lra.
  assert (c * 100 + 1 / 2 <= 100 + 1 / 2) as Hhi by lra.
  apply Qfloor_resp_le in Hlo, Hhi.
  change (Qfloor (1 / 2)) with 0%Z in Hlo.
  change (Qfloor (100 + 1 / 2)) with 100%Z in Hhi.
  split; assumption.
Qed.

(** X12.  When every distribution that the classifier returns is made of
    probabilities, the confidence that [getCurrentEmotion] reports is a
    probability, and the percentage that the overlay shows,
    [Math.round(confidence * 100)], lies between 0 and 100. *)
Theorem detector_confidence_is_a_percentage ops now :
  Forall validDetectorOp ops ->
  let st := getCurrentEmotion now (runDetector ops Detector.init) in
  0 <= SmoothedEmotionState.confidence st
  /\ SmoothedEmotionState.confidence st <= 1
  /\ (0 <= confidencePercent st <= 100)%Z.
Proof.
  intros Hv st. subst st. unfold getCurrentEmotion, confidencePercent.
  destruct (smoothed_confidence_from_window now
              (Detector.emotionHistory (runDetector ops Detector.init)))
    as [H0 H1].
  { apply runDetector_confidences; [exact Hv | constructor]. }
  split; [exact H0|]. split; [exact H1|]. now apply MathRound_percent.
Qed.

Lemma detector_confidence_is_a_percentage_witness :
  0 <= SmoothedEmotionState.confidence
         (getCurrentEmotion 20
            (runDetector (DStart :: map frameTick (framesUpTo 3)) Detector.init))
  /\ SmoothedEmotionState.confidence
       (getCurrentEmotion 20
          (runDetector (DStart :: map frameTick (framesUpTo 3)) Detector.init)) <= 1
  /\ (0 <= confidencePercent
             (getCurrentEmotion 20
                (runDetector (DStart :: map frameTick (framesUpTo 3)) Detector.init))
       <= 100)%Z.
Proof.
  apply (detector_confidence_is_a_percentage
           (DStart :: map frameTick (framesUpTo 3)) 20).
  repeat constructor; simpl; vm_compute; discriminate.
Defined.

(** X13.  The overlay never needs its fallbacks for what the detector
    reports: for the label of [getCurrentEmotion], after any sequence of
    detector calls, [emotionColors] and [emotionEmojis] have an entry of
    their own, and so has the table of [getEmotionColorScheme]. *)
Theorem overlay_tables_cover_detector_labels ops now :
  let st := getCurrentEmotion now (runDetector ops Detector.init) in
  lookup (SmoothedEmotionState.emotion st) emotionColors = Some (emotionColor st)
  /\ lookup (SmoothedEmotionState.emotion st) emotionEmojis = Some (emotionEmoji st)
  /\ exists scheme, lookup (SmoothedEmotionState.emotion st) schemes = Some scheme.
Proof.
  intros st.
  assert (In (SmoothedEmotionState.emotion st) detectorLabels) as Hin.
  { subst st. unfold getCurrentEmotion. apply smoothed_label_from_window.
    apply runDetector_labels. constructor. } unfold emotionColor, emotionEmoji.
  destruct (SmoothedEmotionState.emotion st) eqn:E; simpl in Hin;
    repeat (destruct Hin as [Hin|Hin]; [rewrite <- Hin; vm_compute; eauto|]);
    destruct Hin.
Qed.

Lemma runDetector_idle ticks : forall d,
  Detector.isRunning d = false ->
  runDetector (tickOps ticks) d = d.
Proof.
  induction ticks as [|[[now now'] det] ticks IH]; intros d Hd; [reflexivity|].
  simpl. unfold detectionTick. rewrite Hd. simpl. now apply IH.
Qed.

(** A firing during which nothing else is called is the test of [isRunning]
    followed at once by the rest of the callback. *)
Lemma detectionTick_resume now now' detections d :
  detectionTick now now' detections d
  = if Detector.isRunning d then tickResume now now' detections d else (d, None).
Proof. unfold detectionTick, tickResume. now destruct (Detector.isRunning d). Qed.

Lemma smoothed_of_one now d :
  SmoothedEmotionState.emotion (getSmoothedEmotion now [d]) = FacialEmotionData.emotion d
  /\ SmoothedEmotionState.history (getSmoothedEmotion now [d]) = [d].
Proof.
  split; [|reflexivity].
  pose proof (smoothed_winner_occurs now [d] ltac:(discriminate)) as Hocc.
  apply occurrences_positive_In in Hocc as (d' & [<-|[]] & Hd). now symmetry.
Qed.

(** X14.  [stopDetection] silences the firings that come after it, and only
    those.  Whatever the detector was doing, once [stopDetection] has run the
    timer callbacks that start leave the window empty and call nobody back,
    so [getCurrentEmotion] answers the neutral default (the same holds of
    firings before [startDetection]); such a callback returns at the test of
    [isRunning], before any [await].  A callback that was awaiting the
    classifier when [stopDetection] ran is not cancelled: when it resumes
    with a detection it pushes the frame into the emptied window and calls
    back with the label of that frame, which is then what [getCurrentEmotion]
    answers, on a detector that is not running. *)
Theorem stopDetection_silences_later_ticks_only d ticks now now1 now2 e :
  let stopped := stopDetection d in
  let late := tickResume now1 now2 (Some e) stopped in
  let frame := processFaceExpressions now1 e in
  ( runDetector (tickOps ticks) stopped = stopped
    /\ Forall (fun t => snd (detectionTick (fst (fst t)) (snd (fst t)) (snd t) stopped)
                        = None) ticks
    /\ getCurrentEmotion now (runDetector (tickOps ticks) stopped)
       = neutralDefault now )
  /\ ( Detector.isRunning d = false ->
       runDetector (tickOps ticks) d = d
       /\ Forall (fun t => snd (detectionTick (fst (fst t)) (snd (fst t)) (snd t) d)
                           = None) ticks )
  /\ ( Detector.emotionHistory (fst late) = [frame]
       /\ Detector.isRunning (fst late) = false
       /\ (exists st, snd late = Some st
                      /\ SmoothedEmotionState.emotion st = FacialEmotionData.emotion frame
                      /\ SmoothedEmotionState.history st = [frame]
                      /\ SmoothedEmotionState.lastUpdate st = now2)
       /\ SmoothedEmotionState.emotion (getCurrentEmotion now (fst late))
          = FacialEmotionData.emotion frame ).
Proof.
  intros stopped late frame. split; [|split].
  - split; [now apply runDetector_idle|]. split.
    + apply List.Forall_forall. intros t _. reflexivity.
    + rewrite runDetector_idle by reflexivity. reflexivity.
  - intros Hd. split; [now apply runDetector_idle|].
    apply List.Forall_forall. intros t _. unfold detectionTick. now rewrite Hd.
  - subst late stopped. unfold tickResume, stopDetection, getCurrentEmotion.
    cbn [fst snd Detector.emotionHistory Detector.isRunning].
    change (pushBounded maxHistorySize (processFaceExpressions now1 e) [])
      with [frame].
    destruct (smoothed_of_one now2 frame) as [Hl Hh].
    destruct (smoothed_of_one now frame) as [Hl' _].
    repeat split; try assumption.
    exists (getSmoothedEmotion now2 [frame]). repeat split; assumption.
Qed.

Lemma stopDetection_silences_later_ticks_only_witness :
  let d := runDetector (DStart :: map frameTick (framesUpTo 3)) Detector.init in
  (Detector.isRunning d = true /\ length (Detector.emotionHistory d) = 3%nat)
  /\ runDetector (tickOps [(5, 5, Some calmFace); (6, 6, None)]%Z) (stopDetection d)
     = stopDetection d
  /\ getCurrentEmotion 9
       (runDetector (tickOps [(5, 5, Some calmFace); (6, 6, None)]%Z) (stopDetection d))
     = neutralDefault 9
  /\ SmoothedEmotionState.emotion
       (getCurrentEmotion 9 (fst (tickResume 7 8 (Some calmFace) (stopDetection d))))
     = FacialEmotionData.emotion (processFaceExpressions 7 calmFace)
  /\ runDetector (tickOps [(5, 5, Some calmFace); (6, 6, None)]%Z) Detector.init
     = Detector.init.
Proof.
  intros d.
  pose proof (stopDetection_silences_later_ticks_only d
                [(5, 5, Some calmFace); (6, 6, None)]%Z 9 7 8 calmFace)
    as ((Hrun & _ & Hcur) & _ & (_ & _ & _ & Hlate)).
  pose proof (stopDetection_silences_later_ticks_only Detector.init
                [(5, 5, Some calmFace); (6, 6, None)]%Z 9 7 8 calmFace)
    as (_ & Hidle & _).
  split; [split; reflexivity|].
  split; [exact Hrun|]. split; [exact Hcur|]. split; [exact Hlate|].
  exact (proj1 (Hidle eq_refl)).
Defined.

(** X15.  A tick with a detection on a running detector makes the processed
    frame the newest entry of the window and hands the callback the smoothed
    state of exactly that window: its [history] is the new window, and its
    label is the label of one of the entries. *)
Theorem tick_appends_and_reports now now' e d :
  Detector.isRunning d = true ->
  let d' := fst (detectionTick now now' (Some e) d) in
  last (Detector.emotionHistory d') = Some (processFaceExpressions now e)
  /\ Detector.isRunning d' = true
  /\ exists st,
      snd (detectionTick now now' (Some e) d) = Some st
      /\ SmoothedEmotionState.history st = Detector.emotionHistory d'
      /\ SmoothedEmotionState.lastUpdate st = now'
      /\ In (SmoothedEmotionState.emotion st)
            (map FacialEmotionData.emotion (Detector.emotionHistory d')).
Proof.
  intros Hrun d'. subst d'. unfold detectionTick. rewrite Hrun.
  cbn [negb fst snd Detector.emotionHistory Detector.isRunning].
  set (w := pushBounded maxHistorySize (processFaceExpressions now e)
                        (Detector.emotionHistory d)).
  assert (last w = Some (processFaceExpressions now e)) as Hlast
    by (apply last_pushBounded; unfold maxHistorySize; lia).
  assert (w <> []) as Hne by (intros E; rewrite E in Hlast; discriminate).
  split; [exact Hlast|]. split; [reflexivity|].
  exists (getSmoothedEmotion now' w). split; [reflexivity|].
  pose proof (smoothed_winner_occurs now' w Hne) as Hocc.
  destruct (smoothed_of_window now' w Hne)
    as (counts & sums & before & winner & mx & after & _ & _ & _ & _ & _ & Er).
  rewrite Er in *. cbn [SmoothedEmotionState.history SmoothedEmotionState.lastUpdate
                        SmoothedEmotionState.emotion] in *.
  repeat split.
  apply occurrences_positive_In in Hocc as (x & Hin & <-). now apply in_map.
Qed.

Lemma tick_appends_and_reports_witness :
  last (Detector.emotionHistory (fst (detectionTick 5 6 (Some calmFace) runningDetector)))
  = Some (processFaceExpressions 5 calmFace)
  /\ Detector.isRunning (fst (detectionTick 5 6 (Some calmFace) runningDetector)) = true
  /\ exists st,
      snd (detectionTick 5 6 (Some calmFace) runningDetector) = Some st
      /\ SmoothedEmotionState.history st
         = Detector.emotionHistory (fst (detectionTick 5 6 (Some calmFace) runningDetector))
      /\ SmoothedEmotionState.lastUpdate st = 6%Z
      /\ In (SmoothedEmotionState.emotion st)
            (map FacialEmotionData.emotion
               (Detector.emotionHistory
                  (fst (detectionTick 5 6 (Some calmFace) runningDetector)))).
Proof.
  apply (tick_appends_and_reports 5 6 calmFace runningDetector). reflexivity.
Defined.

(** ** The palette of the merged emotion *)

(** X16.  [getEmotionColorScheme] tells the nine labels of its table apart
    and sends every other label to the neutral palette: two states whose
    merged labels are in the table get the same palette only if the labels
    are the same, a state whose merged label is not in the table gets the
    palette of "neutral", and the text colour is #000000 in every case. *)
Theorem getEmotionColorScheme_distinguishes_labels s1 s2 :
  (In (mergedEmotion s1) schemeLabels ->
   In (mergedEmotion s2) schemeLabels ->
   getEmotionColorScheme s1 = getEmotionColorScheme s2 ->
   mergedEmotion s1 = mergedEmotion s2)
  /\ (~ In (mergedEmotion s1) schemeLabels ->
      getEmotionColorScheme s1 = getEmotionColorScheme (initialState 0))
  /\ EmotionColorScheme.text (getEmotionColorScheme s1) = "#000000".
Proof.
  unfold getEmotionColorScheme.
  generalize (mergedEmotion s1) as l1, (mergedEmotion s2) as l2. intros l1 l2.
  split; [|split].
  - unfold schemeLabels. simpl. intros H1 H2.
    repeat (destruct H1 as [<-|H1]);
      try (destruct H1);
      repeat (destruct H2 as [<-|H2]);
      try (destruct H2);
      cbn; intros E; solve [reflexivity | discriminate E].
  - intros Hout. destruct (lookup l1 schemes) as [scheme|] eqn:E; [|reflexivity].
    exfalso. apply Hout. clear Hout. unfold schemeLabels.
    revert E. generalize schemes. intros tbl.
    induction tbl as [|[k v] tbl IH]; simpl; [discriminate|].
    destruct (String.eqb_spec l1 k) as [->|_]; [now left | right; auto].
  - destruct (lookup l1 schemes) as [scheme|] eqn:E; [|reflexivity].
    unfold schemes in E. simpl in E.
    repeat (match type of E with
            | (if ?b then _ else _) = _ => destruct b; [now injection E as <-|]
            end).
    discriminate.
Qed.

Lemma getEmotionColorScheme_distinguishes_labels_witness :
  mergedEmotion happyState = mergedEmotion happyState
  /\ getEmotionColorScheme
       {| facialEmotion := None; voiceEmotion := None; textEmotion := None;
          sessionDuration := 0; mergedEmotion := "surprised"; confidence := 1;
          lastUpdate := 0; emotionHistory := [] |}
     = getEmotionColorScheme (initialState 0).
Proof.
  split.
  - apply (proj1 (getEmotionColorScheme_distinguishes_labels happyState happyState));
      [unfold schemeLabels; simpl; tauto | unfold schemeLabels; simpl; tauto
       | reflexivity].
  - apply (proj1 (proj2 (getEmotionColorScheme_distinguishes_labels
                           {| facialEmotion := None; voiceEmotion := None;
                              textEmotion := None; sessionDuration := 0;
                              mergedEmotion := "surprised"; confidence := 1;
                              lastUpdate := 0; emotionHistory := [] |}
                           happyState))).
    unfold schemeLabels. simpl. intros H.
    repeat (destruct H as [H|H]; [discriminate H|]). exact H.
Defined.

(** ** The guidelines as a whole *)


(** ** From the camera to the guidelines *)

(** X19.  The facial pipeline end to end: while the session has lasted at
    most 2700 seconds, feeding the fusion engine with what the detector
    currently reports makes the merged label the detector's label, whatever
    the other channels hold; the merged label is then one of happy, tired,
    stressed, focused and neutral, and the guidelines never take the patient
    tone nor the detailed verbosity of the confused case. *)
Theorem detector_drives_fusion ops now t t' s :
  sessionDuration s <= 2700 ->
  let st := getCurrentEmotion now (runDetector ops Detector.init) in
  let s' := updateFacialEmotion t t' st s in
  mergedEmotion s' = SmoothedEmotionState.emotion st
  /\ In (mergedEmotion s') detectorLabels
  /\ tone (getResponseGuidelines s') <> patient
  /\ verbosity (getResponseGuidelines s') <> detailed.
Proof.
  intros Hd st s'.
  assert (In (SmoothedEmotionState.emotion st) detectorLabels) as Hin.
  { subst st. unfold getCurrentEmotion. apply smoothed_label_from_window.
    apply runDetector_labels. constructor. }
  assert (mergedEmotion s' = SmoothedEmotionState.emotion st) as Hm.
  { subst s'. unfold updateFacialEmotion.
    match goal with
    | |- mergedEmotion (recomputeMergedEmotion ?n ?x) = _ =>
        destruct (facial_vote x st eq_refl Hd) as (total & Hfold & _);
        assert (collectEmotions x <> []) as Hne
          by (destruct (collectEmotions_facial x st eq_refl) as (rest & -> & _);
              discriminate);
        destruct (recompute_merged n x _ total Hne Hfold) as [-> _]
    end.
    reflexivity. }
  split; [exact Hm|]. rewrite <- Hm in Hin. split; [exact Hin|].
  unfold getResponseGuidelines. simpl in Hin.
  repeat (destruct Hin as [Hin|Hin]; [rewrite <- Hin; cbn; split; discriminate|]).
  destruct Hin.
Qed.

Lemma detector_drives_fusion_witness :
  mergedEmotion
    (updateFacialEmotion 8 9 (getCurrentEmotion 7 runningDetector)
                         (sampleFusion "sad" "confused" "confused" 100))
  = SmoothedEmotionState.emotion (getCurrentEmotion 7 runningDetector)
  /\ In (mergedEmotion
           (updateFacialEmotion 8 9 (getCurrentEmotion 7 runningDetector)
                                (sampleFusion "sad" "confused" "confused" 100)))
        detectorLabels
  /\ tone (getResponseGuidelines
             (updateFacialEmotion 8 9 (getCurrentEmotion 7 runningDetector)
                                  (sampleFusion "sad" "confused" "confused" 100)))
     <> patient
  /\ verbosity (getResponseGuidelines
                  (updateFacialEmotion 8 9 (getCurrentEmotion 7 runningDetector)
                                       (sampleFusion "sad" "confused" "confused" 100)))
     <> detailed.
Proof.
  apply (detector_drives_fusion (DStart :: map frameTick (framesUpTo 1)) 7 8 9
           (sampleFusion "sad" "confused" "confused" 100)).
  vm_compute. discriminate.
Defined.

(** ** Copies and [reset] *)

Lemma read_app_lt {A} (as_ : Heap.cell -> option A) (h l : Heap.heap) r :
  (r < length h)%nat -> Heap.read as_ (h ++ l) r = Heap.read as_ h r.
Proof. intros H. unfold Heap.read. now rewrite lookup_app_l. Qed.

(** After [reset], a write to an object that existed before leaves the new
    state of the engine as it is. *)
Lemma reset_insert_old now (h : Heap.heap) this r c :
  (r < length h)%nat ->
  Heap.snapshot (<[r:=c]> (fst (Heap.reset now h this)))
                (Heap.currentState (snd (Heap.reset now h this)))
  = Some (initialState now).
Proof.
  intros Hr. unfold Heap.reset, Heap.fresh, Heap.alloc.
  cbn [fst snd Heap.currentState].
  apply snapshot_spec. eexists.
  split.
  { unfold Heap.readState.
    rewrite read_insert_ne by (rewrite length_app; simpl; lia).
    rewrite read_alloc. reflexivity. }
  cbn [Heap.StateObj.facialEmotion Heap.StateObj.voiceEmotion
       Heap.StateObj.textEmotion Heap.StateObj.emotionHistory
       Heap.StateObj.sessionDuration Heap.StateObj.mergedEmotion
       Heap.StateObj.confidence Heap.StateObj.lastUpdate Heap.readNullable].
  repeat split.
  unfold Heap.readHistory. rewrite read_insert_ne by lia.
  apply read_app. now rewrite read_alloc.
Qed.

(** X17.  [reset] detaches the engine from the objects handed out before:
    if [c] is a state object that could be read before the reset (such as one
    returned by [getCurrentState]), then after the reset nothing that is done
    through [c] (assigning its fields, pushing onto its [emotionHistory],
    relabelling its [textEmotion]) changes the state of the engine, which
    stays the initial state. *)
Theorem reset_detaches_earlier_copies now (h : Heap.heap) this c sc m h2 :
  Heap.snapshot h c = Some sc ->
  Heap.mutate c m (fst (Heap.reset now h this)) = Some h2 ->
  Heap.snapshot h2 (Heap.currentState (snd (Heap.reset now h this)))
  = Some (initialState now).
Proof.
  intros Hc Hm.
  apply snapshot_spec in Hc as (oc & Hoc & _ & _ & Hx & Ha & _).
  assert (forall A (as_ : Heap.cell -> option A) r a,
             Heap.read as_ h r = Some a ->
             Heap.read as_ (fst (Heap.reset now h this)) r = Some a) as Hold.
  { intros A as_ r a H. unfold Heap.reset, Heap.fresh, Heap.alloc. cbn [fst].
    rewrite <- app_assoc. now apply read_app. }
  pose proof (Hold _ _ _ _ Hoc) as Hoc'. fold Heap.readState in Hoc'.
  pose proof (Hold _ _ _ _ Ha) as Ha'. fold Heap.readHistory in Ha'.
  destruct m as [o' | e | label]; cbn [Heap.mutate] in Hm.
  - unfold Heap.assignFields in Hm. rewrite Hoc' in Hm. cbn [mbind option_bind] in Hm.
    injection Hm as <-. apply reset_insert_old. eapply read_lt. exact Hoc.
  - unfold Heap.pushHistory in Hm. rewrite Hoc' in Hm. cbn [mbind option_bind] in Hm.
    rewrite Ha' in Hm. cbn [mbind option_bind] in Hm.
    injection Hm as <-. apply reset_insert_old. eapply read_lt. exact Ha.
  - unfold Heap.setTextLabel in Hm. rewrite Hoc' in Hm. cbn [mbind option_bind] in Hm.
    destruct (Heap.StateObj.textEmotion oc) as [r|] eqn:Er;
      cbn [mbind option_bind] in Hm; [|discriminate].
    cbn [Heap.readNullable] in Hx.
    destruct (Heap.readText h r) as [x|] eqn:Ex; [|discriminate].
    pose proof (Hold _ _ _ _ Ex) as Ex'. fold Heap.readText in Ex'.
    rewrite Ex' in Hm. cbn [mbind option_bind] in Hm.
    injection Hm as <-. apply reset_insert_old. eapply read_lt. exact Ex.
Qed.

Lemma reset_detaches_earlier_copies_witness :
  Heap.snapshot
    (<[0%nat := Heap.CHistory (emotionHistory sampleState ++ [strayEntry])]>
       (fst (Heap.reset 50 copiedHeap sampleEngine)))
    (Heap.currentState (snd (Heap.reset 50 copiedHeap sampleEngine)))
  = Some (initialState 50).
Proof.
  apply (reset_detaches_earlier_copies 50 copiedHeap sampleEngine 3%nat sampleState
           (Heap.MPushHistory strayEntry)).
  - vm_compute. reflexivity.
  - vm_compute. reflexivity.
Defined.

(** ** What the merge depends on *)

(** The merge reads the labels of the present channels and the session
    duration, and nothing else. *)
Lemma recompute_merged_ext now1 now2 s1 s2 :
  collectEmotions s1 = collectEmotions s2 ->
  sessionDuration s1 = sessionDuration s2 ->
  mergedEmotion (recomputeMergedEmotion now1 s1)
  = mergedEmotion (recomputeMergedEmotion now2 s2)
  /\ confidence (recomputeMergedEmotion now1 s1)
     = confidence (recomputeMergedEmotion now2 s2).
Proof.
  intros Hc Hd. unfold recomputeMergedEmotion. rewrite Hc, Hd.
  destruct (length (collectEmotions s2) =? 0)%nat; [now simpl|].
  destruct (fold_left dominantStep _ _) as [d m]. now simpl.
Qed.

Lemma collectEmotions_channelStep s u :
  collectEmotions (channelStep s u) =
  match u with
  | UFacial _ _ f =>
      collectEmotions {| facialEmotion := Some f; voiceEmotion := voiceEmotion s;
                         textEmotion := textEmotion s;
                         sessionDuration := sessionDuration s;
                         mergedEmotion := mergedEmotion s;
                         confidence := confidence s; lastUpdate := lastUpdate s;
                         emotionHistory := emotionHistory s |}
  | UVoice _ _ v =>
      collectEmotions {| facialEmotion := facialEmotion s; voiceEmotion := Some v;
                         textEmotion := textEmotion s;
                         sessionDuration := sessionDuration s;
                         mergedEmotion := mergedEmotion s;
                         confidence := confidence s; lastUpdate := lastUpdate s;
                         emotionHistory := emotionHistory s |}
  | UText _ _ x =>
      collectEmotions {| facialEmotion := facialEmotion s; voiceEmotion := voiceEmotion s;
                         textEmotion := Some x;
                         sessionDuration := sessionDuration s;
                         mergedEmotion := mergedEmotion s;
                         confidence := confidence s; lastUpdate := lastUpdate s;
                         emotionHistory := emotionHistory s |}
  end.
Proof.
  destruct u; simpl; unfold updateFacialEmotion, updateVoiceEmotion, updateTextEmotion;
    now rewrite collectEmotions_recompute.
Qed.

Lemma channelStep_fields s u :
  sessionDuration (channelStep s u) = sessionDuration s
  /\ match u with
     | UFacial _ _ f => facialEmotion (channelStep s u) = Some f
                        /\ voiceEmotion (channelStep s u) = voiceEmotion s
                        /\ textEmotion (channelStep s u) = textEmotion s
     | UVoice _ _ v => facialEmotion (channelStep s u) = facialEmotion s
                       /\ voiceEmotion (channelStep s u) = Some v
                       /\ textEmotion (channelStep s u) = textEmotion s
     | UText _ _ x => facialEmotion (channelStep s u) = facialEmotion s
                      /\ voiceEmotion (channelStep s u) = voiceEmotion s
                      /\ textEmotion (channelStep s u) = Some x
     end.
Proof.
  destruct u; simpl; unfold updateFacialEmotion, updateVoiceEmotion, updateTextEmotion;
    match goal with
    | |- context [recomputeMergedEmotion ?n ?x] =>
        destruct (recompute_frame n x) as (-> & -> & -> & -> & _)
    end; simpl; tauto.
Qed.


Lemma verdict_channelStep s1 s2 u1 u2 :
  collectEmotions (channelStep s1 u1) = collectEmotions (channelStep s2 u2) ->
  sessionDuration s1 = sessionDuration s2 ->
  verdict (channelStep s1 u1) = verdict (channelStep s2 u2).
Proof.
  intros Hc Hd. rewrite !collectEmotions_channelStep in Hc. unfold verdict.
  destruct u1, u2; cbn [channelStep];
    unfold updateFacialEmotion, updateVoiceEmotion, updateTextEmotion;
    match goal with
    | |- (mergedEmotion (recomputeMergedEmotion ?n1 ?x1), _)
         = (mergedEmotion (recomputeMergedEmotion ?n2 ?x2), _) =>
        destruct (recompute_merged_ext n1 n2 x1 x2 Hc Hd) as [-> ->]
    end; reflexivity.
Qed.

(** X20.  The merge looks at the latest reading of each channel only: two
    updates of different channels can be applied in either order, and an
    update of a channel makes an earlier update of the same channel
    irrelevant; in both cases the merged label and the confidence come out
    the same (the histories differ). *)
Theorem merge_uses_latest_reading_per_channel s u1 u2 :
  (channelOf u1 <> channelOf u2 ->
   verdict (channelStep (channelStep s u1) u2)
   = verdict (channelStep (channelStep s u2) u1))
  /\ (channelOf u1 = channelOf u2 ->
      verdict (channelStep (channelStep s u1) u2) = verdict (channelStep s u2)).
Proof.
  split; intros Hch.
  - apply verdict_channelStep.
    + rewrite !collectEmotions_channelStep.
      destruct (channelStep_fields s u1) as (_ & H1).
      destruct (channelStep_fields s u2) as (_ & H2).
      destruct u1, u2; cbn [channelOf] in Hch; try congruence;
        destruct H1 as (F1 & V1 & X1); destruct H2 as (F2 & V2 & X2);
        unfold collectEmotions;
        cbn [facialEmotion voiceEmotion textEmotion];
        rewrite ?F1, ?V1, ?X1, ?F2, ?V2, ?X2; reflexivity.
    + destruct (channelStep_fields s u1) as (-> & _).
      now destruct (channelStep_fields s u2) as (-> & _).
  - apply verdict_channelStep.
    + rewrite !collectEmotions_channelStep.
      destruct (channelStep_fields s u1) as (_ & H1).
      destruct u1, u2; cbn [channelOf] in Hch; try congruence;
        destruct H1 as (F1 & V1 & X1);
        unfold collectEmotions;
        cbn [facialEmotion voiceEmotion textEmotion];
        rewrite ?F1, ?V1, ?X1; reflexivity.
    + now destruct (channelStep_fields s u1) as (-> & _).
Qed.

Lemma merge_uses_latest_reading_per_channel_witness :
  verdict (channelStep (channelStep (initialState 0) (UVoice 1 1 (sampleVoice "calm")))
                       (UText 2 2 (sampleText "sad")))
  = verdict (channelStep (channelStep (initialState 0) (UText 2 2 (sampleText "sad")))
                         (UVoice 1 1 (sampleVoice "calm")))
  /\ verdict (channelStep (channelStep (initialState 0) (UText 1 1 (sampleText "sad")))
                          (UText 2 2 (sampleText "happy")))
     = verdict (channelStep (initialState 0) (UText 2 2 (sampleText "happy"))).
Proof.
  split.
  - apply (proj1 (merge_uses_latest_reading_per_channel (initialState 0)
                    (UVoice 1 1 (sampleVoice "calm")) (UText 2 2 (sampleText "sad")))).
    simpl. discriminate.
  - apply (proj2 (merge_uses_latest_reading_per_channel (initialState 0)
                    (UText 1 1 (sampleText "sad")) (UText 2 2 (sampleText "happy")))).
    reflexivity.
Defined.

(** X21.  The merge ignores everything in a reading but its label: two
    readings of one channel that carry the same label, whatever their
    confidences, timestamps, tone or window, lead to the same merged label
    and the same confidence. *)
Theorem merge_reads_labels_only s u u' :
  channelOf u = channelOf u' ->
  labelOf u = labelOf u' ->
  verdict (channelStep s u) = verdict (channelStep s u').
Proof.
  intros Hch Hl. apply verdict_channelStep; [|reflexivity].
  rewrite !collectEmotions_channelStep.
  destruct u, u'; cbn [channelOf labelOf] in Hch, Hl; try congruence;
    unfold collectEmotions; cbn [facialEmotion voiceEmotion textEmotion];
    now rewrite Hl.
Qed.

Lemma merge_reads_labels_only_witness :
  verdict (channelStep happyState (UVoice 1 2 (sampleVoice "sad")))
  = verdict (channelStep happyState
               (UVoice 30 40 {| VoiceEmotionData.emotion := "sad";
                                VoiceEmotionData.confidence := 0.01;
                                VoiceEmotionData.tone := "flat";
                                VoiceEmotionData.timestamp := 30 |})).
Proof.
  apply (merge_reads_labels_only happyState (UVoice 1 2 (sampleVoice "sad"))); reflexivity.
Defined.

Lemma pushBounded_length_exact {A} n (x : A) l :
  (length l <= n)%nat -> length (pushBounded n x l) = Nat.min n (S (length l)).
Proof.
  intros H. unfold pushBounded. rewrite length_app. simpl.
  destruct (Nat.ltb_spec n (length l + 1)) as [Hlt|Hge].
  - destruct l; simpl in *; [lia|]. rewrite length_app. simpl. lia.
  - rewrite length_app. simpl. lia.
Qed.

Lemma updateSessionDuration_as_recompute now seconds s :
  exists x,
    updateSessionDuration now seconds s = recomputeMergedEmotion now x
    /\ collectEmotions x = collectEmotions s
    /\ sessionDuration x = seconds
    /\ emotionHistory x = emotionHistory s.
Proof. eexists. repeat split. Qed.

(** X22.  Repeating a duration update changes no verdict but is logged each
    time: a second [updateSessionDuration] with the same duration leaves the
    merged label and the confidence as they are, and when a channel is
    present it still appends an entry to the history (up to the limit of
    50), so that the history counts recomputes, not changes of emotion. *)
Theorem repeated_duration_update now now' seconds s :
  let s1 := updateSessionDuration now seconds s in
  let s2 := updateSessionDuration now' seconds s1 in
  verdict s2 = verdict s1
  /\ (collectEmotions s <> [] ->
      (length (emotionHistory s1) <= 50)%nat ->
      length (emotionHistory s2) = Nat.min 50 (S (length (emotionHistory s1)))).
Proof.
  intros s1 s2.
  destruct (updateSessionDuration_as_recompute now seconds s)
    as (x1 & E1 & Ec1 & Ed1 & _).
  destruct (updateSessionDuration_as_recompute now' seconds s1)
    as (x2 & E2 & Ec2 & Ed2 & Eh2).
  fold s1 in E1. fold s2 in E2.
  assert (collectEmotions s1 = collectEmotions s) as Ec
    by (rewrite E1, collectEmotions_recompute; exact Ec1).
  split.
  - unfold verdict. rewrite E2, E1.
    destruct (recompute_merged_ext now' now x2 x1) as [-> ->];
      [congruence | congruence | reflexivity].
  - intros Hne Hlen. rewrite E2, recompute_history, Ec2, Ec, Eh2.
    destruct (collectEmotions s) as [|e es]; [congruence|].
    cbn [length Nat.eqb]. now apply pushBounded_length_exact.
Qed.

Lemma repeated_duration_update_witness :
  length (emotionHistory
            (updateSessionDuration 6 3000 (updateSessionDuration 5 3000 happyState)))
  = Nat.min 50 (S (length (emotionHistory (updateSessionDuration 5 3000 happyState)))).
Proof.
  apply (repeated_duration_update 5 6 3000 happyState).
  - simpl. discriminate.
  - vm_compute. lia.
Defined.
